(** * WD1770 floppy-disk-controller emulator: a shallow embedding

    The development follows the three components of the firmware:

    - the image catalog of [DiskManager.cpp] ([scanImages], [detectFormat],
      [parseExtendedDSK], [loadImage], [getDisk]);
    - the sector gateway of [FdcDevice.cpp] ([readSectorData],
      [writeSectorData]);
    - the controller engine of [FdcDevice.cpp] (bus handling, command
      decoder, sequencing state machine, drive select).

    C++ integers are integers of [Z] with the wrap-around of their width
    written out; [bool] is [bool]; NUL-terminated [char] arrays are
    [string]s; the SdFat library is an interface ([Backend]) with an
    in-memory instance used for concrete runs. *)

From Stdlib Require Import ZArith Lia Bool Ascii String.
From stdpp Require Import base list strings gmap.

Local Open Scope Z_scope.

(** Left-to-right application: a sequence of C assignments reads top-down. *)
Notation "x |> f" := (f x) (at level 68, left associativity, only parsing).

(* ===================================================================== *)
(** ** Machine integers *)
(* ===================================================================== *)

Module CInt.

Definition wrap8 (z : Z) : Z := z mod 256.
Definition wrap16 (z : Z) : Z := z mod 65536.
Definition wrap32 (z : Z) : Z := z mod 4294967296.

Definition is_u8 (z : Z) : Prop := 0 <= z < 256.
Definition is_u16 (z : Z) : Prop := 0 <= z < 65536.
Definition is_u32 (z : Z) : Prop := 0 <= z < 4294967296.

(** A C condition on an integer: nonzero is true. *)
Definition truthy (z : Z) : bool := negb (z =? 0).

End CInt.
Import CInt.

(* ===================================================================== *)
(** ** C strings *)
(* ===================================================================== *)

Module CStr.

(** [toupper] of the C library in the "C" locale. *)
Definition toupper (c : ascii) : ascii :=
  let n := Ascii.N_of_ascii c in
  if ((97 <=? n) && (n <=? 122))%N then Ascii.ascii_of_N (n - 32) else c.

(** [for (j = 0; s[j]; j++) s[j] = toupper(s[j]);] *)
Fixpoint upcase (s : string) : string :=
  match s with
  | EmptyString => EmptyString
  | String c s' => String (toupper c) (upcase s')
  end.

(** [strncpy(dst, src, n)] into a buffer that ends up NUL-terminated:
    the first [n] characters of [src]. *)
Fixpoint strncpy (n : nat) (src : string) : string :=
  match n, src with
  | O, _ => EmptyString
  | S _, EmptyString => EmptyString
  | S n', String c s' => String c (strncpy n' s')
  end.

(** [strstr(hay, needle) != NULL]: [needle] occurs somewhere in [hay]. *)
Fixpoint strstr (hay needle : string) : bool :=
  String.prefix needle hay ||
  match hay with
  | EmptyString => false
  | String _ hay' => strstr hay' needle
  end.


End CStr.
Import CStr.

(* ===================================================================== *)
(** ** Disk image descriptors ([DiskImage.h]) *)
(* ===================================================================== *)

Module Img.

Definition SIZE_TIMEX_FDD3000_SS : Z := 163840.
Definition SIZE_TIMEX_FDD3000_DS : Z := 327680.
Definition SIZE_CPC_40T : Z := 184320.
Definition SIZE_35_DD : Z := 737280.
Definition SIZE_525_DD : Z := 368640.

Record DiskImage := mkDiskImage {
  filename : string;          (* char[64] *)
  size : Z;                   (* uint32_t *)
  tracks : Z;                 (* uint8_t *)
  sectorsPerTrack : Z;        (* uint8_t *)
  sectorSize : Z;             (* uint16_t *)
  doubleDensity : bool;
  writeProtected : bool;
  isExtendedDSK : bool;
  headerOffset : Z;           (* uint16_t *)
  trackHeaderSize : Z         (* uint16_t *)
}.

(** Every field holds a value of its C type. *)
Record well_typed (d : DiskImage) : Prop := {
  wt_size : is_u32 (size d);
  wt_tracks : is_u8 (tracks d);
  wt_sectorsPerTrack : is_u8 (sectorsPerTrack d);
  wt_sectorSize : is_u16 (sectorSize d);
  wt_headerOffset : is_u16 (headerOffset d);
  wt_trackHeaderSize : is_u16 (trackHeaderSize d)
}.

(** The descriptor the [DiskManager] constructor leaves in each slot. *)
Definition empty : DiskImage :=
  {| filename := ""; size := 0; tracks := 0; sectorsPerTrack := 0;
     sectorSize := 0; doubleDensity := false; writeProtected := false;
     isExtendedDSK := false; headerOffset := 0; trackHeaderSize := 0 |}.

Definition set_geometry (t spt ssz : Z) (dd : bool) (d : DiskImage) :=
  {| filename := filename d; size := size d; tracks := t;
     sectorsPerTrack := spt; sectorSize := ssz; doubleDensity := dd;
     writeProtected := writeProtected d; isExtendedDSK := isExtendedDSK d;
     headerOffset := headerOffset d; trackHeaderSize := trackHeaderSize d |}.

Definition set_tracks (t : Z) (d : DiskImage) :=
  set_geometry t (sectorsPerTrack d) (sectorSize d) (doubleDensity d) d.

End Img.

(* ===================================================================== *)
(** ** The storage backend (SdFat), as the firmware uses it *)
(* ===================================================================== *)

Module Storage.

Record DirEntry := mkDirEntry { name : string; isDirectory : bool }.

(** The calls the firmware makes on the card, one method per call
    sequence.  Bytes are integers in 0..255. *)
Class Backend (Fs : Type) := {
  (** [open("/")] then [openNextFile()] until it fails; [None] when the
      root directory does not open. *)
  fs_list : Fs -> option (list DirEntry);
  (** [open(path, O_READ)] then [size()]; [None] when the open fails. *)
  fs_size : Fs -> string -> option Z;
  (** [open(path, O_READ)], [seek(off)], [read(buf, n)], [close()]:
      [None] when the open fails, else the bytes delivered (their number
      is the value [read] returns). *)
  fs_read : Fs -> string -> Z -> Z -> option (list Z);
  (** [open(path, O_WRITE)], [seek(off)], [write(buf, n)], [flush()],
      [close()]: [None] when the open fails, else the card afterwards. *)
  fs_write : Fs -> string -> Z -> list Z -> option Fs
}.

(** An in-memory card: the root directory in enumeration order, each
    regular file with its contents. *)
Definition RamFs : Type := list (DirEntry * list Z).

Definition ram_path (e : DirEntry) : string := String.append "/" (name e).

Fixpoint ram_find (path : string) (fs : RamFs) : option (list Z) :=
  match fs with
  | [] => None
  | (e, bytes) :: fs' =>
      if negb (isDirectory e) && String.eqb (ram_path e) path
      then Some bytes else ram_find path fs'
  end.

Fixpoint ram_store (path : string) (bytes : list Z) (fs : RamFs) : RamFs :=
  match fs with
  | [] => []
  | (e, old) :: fs' =>
      if negb (isDirectory e) && String.eqb (ram_path e) path
      then (e, bytes) :: fs' else (e, old) :: ram_store path bytes fs'
  end.

(** Overwrite [old] from offset [off] on, growing the file if needed. *)
Definition overwrite (off : nat) (new old : list Z) : list Z :=
  take off old ++ new ++ drop (off + length new) old.

#[global] Instance ram_backend : Backend RamFs := {
  fs_list fs := Some (fst <$> fs);
  fs_size fs path := (fun b => Z.of_nat (length b)) <$> ram_find path fs;
  fs_read fs path off n :=
    (fun b => take (Z.to_nat n) (drop (Z.to_nat off) b)) <$> ram_find path fs;
  fs_write fs path off bytes :=
    (fun b => ram_store path (overwrite (Z.to_nat off) bytes b) fs)
      <$> ram_find path fs
}.

End Storage.
Import Storage.

(* ===================================================================== *)
(** ** The image catalog ([DiskManager.h], [DiskManager.cpp]) *)
(* ===================================================================== *)

Module Catalog.

Definition MAX_DISK_IMAGES : Z := 100.
Definition MAX_DRIVES : Z := 2.

(** [diskImages] holds the [totalImages] catalogued names, so
    [totalImages] is its length; [disks] and [loadedImageIndex] have
    [MAX_DRIVES] entries.  The card the [sd] pointer designates is an
    explicit argument of the member functions that use it. *)
Record DiskManager := mkDiskManager {
  diskImages : list string;
  loadedImageIndex : list Z;
  disks : list Img.DiskImage
}.

Definition totalImages (dm : DiskManager) : Z :=
  Z.of_nat (length (diskImages dm)).

(** [DiskManager::DiskManager] *)
Definition DiskManager_new : DiskManager :=
  {| diskImages := []; loadedImageIndex := [-1; -1];
     disks := [Img.empty; Img.empty] |}.

Definition set_diskImages (l : list string) (dm : DiskManager) :=
  {| diskImages := l; loadedImageIndex := loadedImageIndex dm;
     disks := disks dm |}.

Definition set_disk (drive : Z) (d : Img.DiskImage) (dm : DiskManager) :=
  {| diskImages := diskImages dm; loadedImageIndex := loadedImageIndex dm;
     disks := <[Z.to_nat drive := d]> (disks dm) |}.

Definition set_loadedImageIndex (drive i : Z) (dm : DiskManager) :=
  {| diskImages := diskImages dm;
     loadedImageIndex := <[Z.to_nat drive := i]> (loadedImageIndex dm);
     disks := disks dm |}.

(** [DiskManager::getDisk]: [None] is the null pointer. *)
Definition getDisk (drive : Z) (dm : DiskManager) : option Img.DiskImage :=
  if drive >=? MAX_DRIVES then None else disks dm !! Z.to_nat drive.

(** The test of [scanImages] on one name: upper-case a copy, then look
    for each extension with [strstr]. *)
Definition has_image_extension (filename : string) : bool :=
  let upper := upcase (strncpy 63 filename) in
  strstr upper ".DSK" || strstr upper ".IMG" ||
  strstr upper ".ST" || strstr upper ".HFE".

(** One iteration of the [while (true)] loop of [scanImages], on the
    entry [openNextFile] returned. *)
Definition scan_entry (e : DirEntry) (images : list string) : list string :=
  if negb (isDirectory e) then
    if has_image_extension (name e) then
      if Z.of_nat (length images) <? MAX_DISK_IMAGES
      then images ++ [strncpy 63 (name e)]
      else images
    else images
  else images.

(** The loop runs until [openNextFile] fails, that is over all entries. *)
Fixpoint scan_loop (entries : list DirEntry) (images : list string)
  : list string :=
  match entries with
  | [] => images
  | e :: rest => scan_loop rest (scan_entry e images)
  end.

(** [DiskManager::detectFormat]: the geometry for a file size, and
    whether the size is a known one. *)
Definition detectFormat (disk : Img.DiskImage) (fileSize : Z)
  : bool * Img.DiskImage :=
  if fileSize =? Img.SIZE_TIMEX_FDD3000_SS then
    (true, Img.set_geometry 40 16 256 false disk)
  else if fileSize =? Img.SIZE_TIMEX_FDD3000_DS then
    (true, Img.set_geometry 80 16 256 false disk)
  else if fileSize =? Img.SIZE_35_DD then
    (true, Img.set_geometry 80 9 512 true disk)
  else if fileSize =? Img.SIZE_525_DD then
    (true, Img.set_geometry 40 9 512 true disk)
  else if fileSize =? Img.SIZE_CPC_40T then
    (true, Img.set_geometry 40 9 512 true disk)
  else if fileSize =? 174336 then
    (true, Img.set_geometry 40 9 512 true disk)
  else
    let sectors256 := fileSize / 256 in
    if sectors256 =? 640 then
      (true, Img.set_geometry 40 16 256 false disk)
    else if sectors256 =? 1280 then
      (true, Img.set_geometry 80 16 256 false disk)
    else
      let sectors512 := fileSize / 512 in
      if sectors512 <? 720 then
        (false, Img.set_geometry 40 (wrap8 (sectors512 / 40)) 512 true disk)
      else
        (false, Img.set_geometry 80 (wrap8 (sectors512 / 80)) 512 true disk).

(** The bytes of a string literal. *)
Definition bytes_of_string (s : string) : list Z :=
  (fun c => Z.of_N (Ascii.N_of_ascii c)) <$> list_ascii_of_string s.

(** [strncmp((char* )buf, lit, n) == 0] for a literal of at least [n]
    characters without NUL. *)
Definition strncmp_eq (buf : list Z) (lit : string) (n : nat) : bool :=
  bool_decide (take n buf = take n (bytes_of_string lit)).

(** [buf[i]] of a byte array that was filled by a successful read. *)
Definition byte_at (buf : list Z) (i : nat) : Z := default 0 (buf !! i).

(** [128 << sectorSizeCode] stored in the [uint16_t] field: the low 16 bits
    of the shifted value (for codes of 24 and more the shift overflows
    [int], which C++ leaves undefined; the model keeps the same rule). *)
Definition sector_size_of_code (code : Z) : Z := wrap16 (Z.shiftl 128 code).

Section WithCard.
Context {Fs : Type} `{Backend Fs}.

(** [DiskManager::scanImages] *)
Definition scanImages (card : Fs) (dm : DiskManager) : DiskManager :=
  match fs_list card with
  | None => dm
  | Some entries => set_diskImages (scan_loop entries []) dm
  end.

(** [DiskManager::parseExtendedDSK].  The two [read] calls deliver the
    first and the second 256 bytes of the file.  [tracks] is stored
    before the track block is read, so it stays changed on the later
    failures. *)
Definition parseExtendedDSK (card : Fs) (drive : Z) (path : string)
    (dm : DiskManager) : bool * DiskManager :=
  match fs_read card path 0 256 with
  | None => (false, dm)
  | Some diskHeader =>
    if negb (Z.of_nat (length diskHeader) =? 256) then (false, dm)
    else if negb (strncmp_eq diskHeader "EXTENDED CPC DSK" 16) &&
            negb (strncmp_eq diskHeader "MV - CPCEMU Disk" 16)
    then (false, dm)
    else
      let disk := default Img.empty (disks dm !! Z.to_nat drive) in
      let disk := Img.set_tracks (byte_at diskHeader 48) disk in
      let dm := set_disk drive disk dm in
      let trackHeader := default [] (fs_read card path 256 256) in
      if negb (Z.of_nat (length trackHeader) =? 256) then (false, dm)
      else if negb (strncmp_eq trackHeader "Track-Info" 10)
      then (false, dm)
      else
        let spt := byte_at trackHeader 21 in
        let ssz := sector_size_of_code (byte_at trackHeader 20) in
        let disk :=
          {| Img.filename := Img.filename disk; Img.size := Img.size disk;
             Img.tracks := Img.tracks disk;
             Img.sectorsPerTrack := spt; Img.sectorSize := ssz;
             Img.doubleDensity := (ssz >=? 512);
             Img.writeProtected := Img.writeProtected disk;
             Img.isExtendedDSK := true;
             Img.headerOffset := 256; Img.trackHeaderSize := 256 |} in
        (true, set_disk drive disk dm)
  end.

(** [DiskManager::loadImage] *)
Definition loadImage (card : Fs) (drive imageIndex : Z)
    (dm : DiskManager) : bool * DiskManager :=
  if (drive >=? MAX_DRIVES) || (imageIndex >=? totalImages dm) ||
     (imageIndex <? 0)
  then (false, dm)
  else
    let image := default "" (diskImages dm !! Z.to_nat imageIndex) in
    let path := String.append "/" image in
    match fs_size card path with
    | None => (false, dm)
    | Some fileSize =>
      let disk := default Img.empty (disks dm !! Z.to_nat drive) in
      let disk :=
        {| Img.filename := strncpy 63 image; Img.size := fileSize;
           Img.tracks := Img.tracks disk;
           Img.sectorsPerTrack := Img.sectorsPerTrack disk;
           Img.sectorSize := Img.sectorSize disk;
           Img.doubleDensity := Img.doubleDensity disk;
           Img.writeProtected := Img.writeProtected disk;
           Img.isExtendedDSK := Img.isExtendedDSK disk;
           Img.headerOffset := Img.headerOffset disk;
           Img.trackHeaderSize := Img.trackHeaderSize disk |} in
      let disk := snd (detectFormat disk fileSize) in
      let disk :=
        {| Img.filename := Img.filename disk; Img.size := Img.size disk;
           Img.tracks := Img.tracks disk;
           Img.sectorsPerTrack := Img.sectorsPerTrack disk;
           Img.sectorSize := Img.sectorSize disk;
           Img.doubleDensity := Img.doubleDensity disk;
           Img.writeProtected := false; Img.isExtendedDSK := false;
           Img.headerOffset := 0; Img.trackHeaderSize := 0 |} in
      let dm := set_loadedImageIndex drive imageIndex (set_disk drive disk dm) in
      let extCheck := upcase (strncpy 69 path) in
      let dm :=
        if strstr extCheck ".DSK" || strstr extCheck ".HFE"
        then snd (parseExtendedDSK card drive path dm) else dm in
      (true, dm)
    end.

(** [DiskManager::ejectDrive] *)
Definition ejectDrive (drive : Z) (dm : DiskManager) : DiskManager :=
  if drive >=? MAX_DRIVES then dm
  else
    let disk := default Img.empty (disks dm !! Z.to_nat drive) in
    let disk :=
      {| Img.filename := ""; Img.size := 0;
         Img.tracks := Img.tracks disk;
         Img.sectorsPerTrack := Img.sectorsPerTrack disk;
         Img.sectorSize := Img.sectorSize disk;
         Img.doubleDensity := Img.doubleDensity disk;
         Img.writeProtected := Img.writeProtected disk;
         Img.isExtendedDSK := Img.isExtendedDSK disk;
         Img.headerOffset := Img.headerOffset disk;
         Img.trackHeaderSize := Img.trackHeaderSize disk |} in
    set_loadedImageIndex drive (-1) (set_disk drive disk dm).

End WithCard.

End Catalog.

(* ===================================================================== *)
(** ** The controller ([FdcDevice.h], [FdcDevice.cpp]) *)
(* ===================================================================== *)

Module Fdc.

(** Command types *)
Definition CMD_RESTORE : Z := 0x00.
Definition CMD_SEEK : Z := 0x10.
Definition CMD_STEP : Z := 0x20.
Definition CMD_STEP_IN : Z := 0x40.
Definition CMD_STEP_OUT : Z := 0x60.
Definition CMD_READ_SECTOR : Z := 0x80.
Definition CMD_READ_SECTORS : Z := 0x90.
Definition CMD_WRITE_SECTOR : Z := 0xA0.
Definition CMD_WRITE_SECTORS : Z := 0xB0.
Definition CMD_READ_ADDRESS : Z := 0xC0.
Definition CMD_READ_TRACK : Z := 0xE0.
Definition CMD_WRITE_TRACK : Z := 0xF0.
Definition CMD_FORCE_INT : Z := 0xD0.

(** Status bits *)
Definition ST_BUSY : Z := 0x01.
Definition ST_DRQ : Z := 0x02.
Definition ST_LOST_DATA : Z := 0x04.
Definition ST_CRC_ERROR : Z := 0x08.
Definition ST_RNF : Z := 0x10.
Definition ST_RECORD_TYPE : Z := 0x20.
Definition ST_WRITE_PROTECT : Z := 0x40.
Definition ST_NOT_READY : Z := 0x80.
Definition ST_TRACK00 : Z := 0x04.

(** Disk geometry and timing (microseconds) *)
Definition MAX_TRACKS : Z := 84.
Definition STEP_TIME_6MS : Z := 6000.
Definition STEP_TIME_12MS : Z := 12000.
Definition STEP_TIME_20MS : Z := 20000.
Definition STEP_TIME_30MS : Z := 30000.

(** [sizeof fdc.sectorBuffer] *)
Definition BUFFER_SIZE : Z := 1024.

(** [enum FDCStateEnum].  The last constructor is no enumerator: it is a
    stored value above 8, namely [8 + excess], which no assignment of
    the firmware produces and only a store past the end of
    [fdc.sectorBuffer] can leave in [fdc.state]. *)
Inductive FDCStateEnum :=
| STATE_IDLE
| STATE_SEEKING
| STATE_SETTLING
| STATE_READING_SECTOR
| STATE_SECTOR_READ_COMPLETE
| STATE_WRITING_SECTOR
| STATE_SECTOR_WRITE_COMPLETE
| STATE_WAITING_FOR_DATA_IN
| STATE_WAITING_FOR_DATA_OUT
| STATE_OUT_OF_RANGE (excess : positive).

(** The enumerators' values; [a == b] on the enum compares them. *)
Definition state_code (s : FDCStateEnum) : Z :=
  match s with
  | STATE_IDLE => 0
  | STATE_SEEKING => 1
  | STATE_SETTLING => 2
  | STATE_READING_SECTOR => 3
  | STATE_SECTOR_READ_COMPLETE => 4
  | STATE_WRITING_SECTOR => 5
  | STATE_SECTOR_WRITE_COMPLETE => 6
  | STATE_WAITING_FOR_DATA_IN => 7
  | STATE_WAITING_FOR_DATA_OUT => 8
  | STATE_OUT_OF_RANGE excess => 8 + Z.pos excess
  end.

(** The state a stored value stands for. *)
Definition state_of_code (n : Z) : FDCStateEnum :=
  if n =? 0 then STATE_IDLE
  else if n =? 1 then STATE_SEEKING
  else if n =? 2 then STATE_SETTLING
  else if n =? 3 then STATE_READING_SECTOR
  else if n =? 4 then STATE_SECTOR_READ_COMPLETE
  else if n =? 5 then STATE_WRITING_SECTOR
  else if n =? 6 then STATE_SECTOR_WRITE_COMPLETE
  else if n =? 7 then STATE_WAITING_FOR_DATA_IN
  else if n =? 8 then STATE_WAITING_FOR_DATA_OUT
  else STATE_OUT_OF_RANGE (Z.to_pos (n - 8)).

Definition state_is (a b : FDCStateEnum) : bool :=
  state_code a =? state_code b.

(** FDC registers and state *)
Record FDCState := mkFDCState {
  status : Z;   (* uint8_t *)
  track : Z;   (* uint8_t *)
  sector : Z;   (* uint8_t *)
  data : Z;   (* uint8_t *)
  command : Z;   (* uint8_t *)
  currentTrack : Z;   (* uint8_t *)
  direction : Z;   (* int8_t *)
  busy : bool;
  drq : bool;
  intrq : bool;
  doubleDensity : bool;
  dataIndex : Z;   (* uint16_t *)
  dataLength : Z;   (* uint16_t *)
  sectorBuffer : list Z;   (* uint8_t[1024] *)
  operationStartTime : Z;   (* uint32_t *)
  stepRate : Z;   (* uint32_t *)
  writeProtect : bool;
  motorOn : bool;
  state : FDCStateEnum;
  sectorsRemaining : Z;   (* uint8_t *)
  multiSector : bool
}.

(** Assignments to one member. *)
Definition set_status (v : Z) (s : FDCState) : FDCState :=
  {| status := v; track := track s; sector := sector s; data := data s;
     command := command s; currentTrack := currentTrack s;
     direction := direction s; busy := busy s; drq := drq s;
     intrq := intrq s; doubleDensity := doubleDensity s;
     dataIndex := dataIndex s; dataLength := dataLength s;
     sectorBuffer := sectorBuffer s;
     operationStartTime := operationStartTime s; stepRate := stepRate s;
     writeProtect := writeProtect s; motorOn := motorOn s;
     state := state s; sectorsRemaining := sectorsRemaining s;
     multiSector := multiSector s |}.
Definition set_track (v : Z) (s : FDCState) : FDCState :=
  {| status := status s; track := v; sector := sector s; data := data s;
     command := command s; currentTrack := currentTrack s;
     direction := direction s; busy := busy s; drq := drq s;
     intrq := intrq s; doubleDensity := doubleDensity s;
     dataIndex := dataIndex s; dataLength := dataLength s;
     sectorBuffer := sectorBuffer s;
     operationStartTime := operationStartTime s; stepRate := stepRate s;
     writeProtect := writeProtect s; motorOn := motorOn s;
     state := state s; sectorsRemaining := sectorsRemaining s;
     multiSector := multiSector s |}.
Definition set_sector (v : Z) (s : FDCState) : FDCState :=
  {| status := status s; track := track s; sector := v; data := data s;
     command := command s; currentTrack := currentTrack s;
     direction := direction s; busy := busy s; drq := drq s;
     intrq := intrq s; doubleDensity := doubleDensity s;
     dataIndex := dataIndex s; dataLength := dataLength s;
     sectorBuffer := sectorBuffer s;
     operationStartTime := operationStartTime s; stepRate := stepRate s;
     writeProtect := writeProtect s; motorOn := motorOn s;
     state := state s; sectorsRemaining := sectorsRemaining s;
     multiSector := multiSector s |}.
Definition set_data (v : Z) (s : FDCState) : FDCState :=
  {| status := status s; track := track s; sector := sector s; data := v;
     command := command s; currentTrack := currentTrack s;
     direction := direction s; busy := busy s; drq := drq s;
     intrq := intrq s; doubleDensity := doubleDensity s;
     dataIndex := dataIndex s; dataLength := dataLength s;
     sectorBuffer := sectorBuffer s;
     operationStartTime := operationStartTime s; stepRate := stepRate s;
     writeProtect := writeProtect s; motorOn := motorOn s;
     state := state s; sectorsRemaining := sectorsRemaining s;
     multiSector := multiSector s |}.
Definition set_command (v : Z) (s : FDCState) : FDCState :=
  {| status := status s; track := track s; sector := sector s;
     data := data s; command := v; currentTrack := currentTrack s;
     direction := direction s; busy := busy s; drq := drq s;
     intrq := intrq s; doubleDensity := doubleDensity s;
     dataIndex := dataIndex s; dataLength := dataLength s;
     sectorBuffer := sectorBuffer s;
     operationStartTime := operationStartTime s; stepRate := stepRate s;
     writeProtect := writeProtect s; motorOn := motorOn s;
     state := state s; sectorsRemaining := sectorsRemaining s;
     multiSector := multiSector s |}.
Definition set_currentTrack (v : Z) (s : FDCState) : FDCState :=
  {| status := status s; track := track s; sector := sector s;
     data := data s; command := command s; currentTrack := v;
     direction := direction s; busy := busy s; drq := drq s;
     intrq := intrq s; doubleDensity := doubleDensity s;
     dataIndex := dataIndex s; dataLength := dataLength s;
     sectorBuffer := sectorBuffer s;
     operationStartTime := operationStartTime s; stepRate := stepRate s;
     writeProtect := writeProtect s; motorOn := motorOn s;
     state := state s; sectorsRemaining := sectorsRemaining s;
     multiSector := multiSector s |}.
Definition set_direction (v : Z) (s : FDCState) : FDCState :=
  {| status := status s; track := track s; sector := sector s;
     data := data s; command := command s; currentTrack := currentTrack s;
     direction := v; busy := busy s; drq := drq s; intrq := intrq s;
     doubleDensity := doubleDensity s; dataIndex := dataIndex s;
     dataLength := dataLength s; sectorBuffer := sectorBuffer s;
     operationStartTime := operationStartTime s; stepRate := stepRate s;
     writeProtect := writeProtect s; motorOn := motorOn s;
     state := state s; sectorsRemaining := sectorsRemaining s;
     multiSector := multiSector s |}.
Definition set_busy (v : bool) (s : FDCState) : FDCState :=
  {| status := status s; track := track s; sector := sector s;
     data := data s; command := command s; currentTrack := currentTrack s;
     direction := direction s; busy := v; drq := drq s; intrq := intrq s;
     doubleDensity := doubleDensity s; dataIndex := dataIndex s;
     dataLength := dataLength s; sectorBuffer := sectorBuffer s;
     operationStartTime := operationStartTime s; stepRate := stepRate s;
     writeProtect := writeProtect s; motorOn := motorOn s;
     state := state s; sectorsRemaining := sectorsRemaining s;
     multiSector := multiSector s |}.
Definition set_drq (v : bool) (s : FDCState) : FDCState :=
  {| status := status s; track := track s; sector := sector s;
     data := data s; command := command s; currentTrack := currentTrack s;
     direction := direction s; busy := busy s; drq := v; intrq := intrq s;
     doubleDensity := doubleDensity s; dataIndex := dataIndex s;
     dataLength := dataLength s; sectorBuffer := sectorBuffer s;
     operationStartTime := operationStartTime s; stepRate := stepRate s;
     writeProtect := writeProtect s; motorOn := motorOn s;
     state := state s; sectorsRemaining := sectorsRemaining s;
     multiSector := multiSector s |}.
Definition set_intrq (v : bool) (s : FDCState) : FDCState :=
  {| status := status s; track := track s; sector := sector s;
     data := data s; command := command s; currentTrack := currentTrack s;
     direction := direction s; busy := busy s; drq := drq s; intrq := v;
     doubleDensity := doubleDensity s; dataIndex := dataIndex s;
     dataLength := dataLength s; sectorBuffer := sectorBuffer s;
     operationStartTime := operationStartTime s; stepRate := stepRate s;
     writeProtect := writeProtect s; motorOn := motorOn s;
     state := state s; sectorsRemaining := sectorsRemaining s;
     multiSector := multiSector s |}.
Definition set_dataIndex (v : Z) (s : FDCState) : FDCState :=
  {| status := status s; track := track s; sector := sector s;
     data := data s; command := command s; currentTrack := currentTrack s;
     direction := direction s; busy := busy s; drq := drq s;
     intrq := intrq s; doubleDensity := doubleDensity s; dataIndex := v;
     dataLength := dataLength s; sectorBuffer := sectorBuffer s;
     operationStartTime := operationStartTime s; stepRate := stepRate s;
     writeProtect := writeProtect s; motorOn := motorOn s;
     state := state s; sectorsRemaining := sectorsRemaining s;
     multiSector := multiSector s |}.
Definition set_dataLength (v : Z) (s : FDCState) : FDCState :=
  {| status := status s; track := track s; sector := sector s;
     data := data s; command := command s; currentTrack := currentTrack s;
     direction := direction s; busy := busy s; drq := drq s;
     intrq := intrq s; doubleDensity := doubleDensity s;
     dataIndex := dataIndex s; dataLength := v;
     sectorBuffer := sectorBuffer s;
     operationStartTime := operationStartTime s; stepRate := stepRate s;
     writeProtect := writeProtect s; motorOn := motorOn s;
     state := state s; sectorsRemaining := sectorsRemaining s;
     multiSector := multiSector s |}.
Definition set_sectorBuffer (v : list Z) (s : FDCState) : FDCState :=
  {| status := status s; track := track s; sector := sector s;
     data := data s; command := command s; currentTrack := currentTrack s;
     direction := direction s; busy := busy s; drq := drq s;
     intrq := intrq s; doubleDensity := doubleDensity s;
     dataIndex := dataIndex s; dataLength := dataLength s;
     sectorBuffer := v; operationStartTime := operationStartTime s;
     stepRate := stepRate s; writeProtect := writeProtect s;
     motorOn := motorOn s; state := state s;
     sectorsRemaining := sectorsRemaining s;
     multiSector := multiSector s |}.
Definition set_operationStartTime (v : Z) (s : FDCState) : FDCState :=
  {| status := status s; track := track s; sector := sector s;
     data := data s; command := command s; currentTrack := currentTrack s;
     direction := direction s; busy := busy s; drq := drq s;
     intrq := intrq s; doubleDensity := doubleDensity s;
     dataIndex := dataIndex s; dataLength := dataLength s;
     sectorBuffer := sectorBuffer s; operationStartTime := v;
     stepRate := stepRate s; writeProtect := writeProtect s;
     motorOn := motorOn s; state := state s;
     sectorsRemaining := sectorsRemaining s;
     multiSector := multiSector s |}.
Definition set_stepRate (v : Z) (s : FDCState) : FDCState :=
  {| status := status s; track := track s; sector := sector s;
     data := data s; command := command s; currentTrack := currentTrack s;
     direction := direction s; busy := busy s; drq := drq s;
     intrq := intrq s; doubleDensity := doubleDensity s;
     dataIndex := dataIndex s; dataLength := dataLength s;
     sectorBuffer := sectorBuffer s;
     operationStartTime := operationStartTime s; stepRate := v;
     writeProtect := writeProtect s; motorOn := motorOn s;
     state := state s; sectorsRemaining := sectorsRemaining s;
     multiSector := multiSector s |}.
Definition set_writeProtect (v : bool) (s : FDCState) : FDCState :=
  {| status := status s; track := track s; sector := sector s;
     data := data s; command := command s; currentTrack := currentTrack s;
     direction := direction s; busy := busy s; drq := drq s;
     intrq := intrq s; doubleDensity := doubleDensity s;
     dataIndex := dataIndex s; dataLength := dataLength s;
     sectorBuffer := sectorBuffer s;
     operationStartTime := operationStartTime s; stepRate := stepRate s;
     writeProtect := v; motorOn := motorOn s; state := state s;
     sectorsRemaining := sectorsRemaining s;
     multiSector := multiSector s |}.
Definition set_motorOn (v : bool) (s : FDCState) : FDCState :=
  {| status := status s; track := track s; sector := sector s;
     data := data s; command := command s; currentTrack := currentTrack s;
     direction := direction s; busy := busy s; drq := drq s;
     intrq := intrq s; doubleDensity := doubleDensity s;
     dataIndex := dataIndex s; dataLength := dataLength s;
     sectorBuffer := sectorBuffer s;
     operationStartTime := operationStartTime s; stepRate := stepRate s;
     writeProtect := writeProtect s; motorOn := v; state := state s;
     sectorsRemaining := sectorsRemaining s;
     multiSector := multiSector s |}.
Definition set_state (v : FDCStateEnum) (s : FDCState) : FDCState :=
  {| status := status s; track := track s; sector := sector s;
     data := data s; command := command s; currentTrack := currentTrack s;
     direction := direction s; busy := busy s; drq := drq s;
     intrq := intrq s; doubleDensity := doubleDensity s;
     dataIndex := dataIndex s; dataLength := dataLength s;
     sectorBuffer := sectorBuffer s;
     operationStartTime := operationStartTime s; stepRate := stepRate s;
     writeProtect := writeProtect s; motorOn := motorOn s; state := v;
     sectorsRemaining := sectorsRemaining s;
     multiSector := multiSector s |}.
Definition set_sectorsRemaining (v : Z) (s : FDCState) : FDCState :=
  {| status := status s; track := track s; sector := sector s;
     data := data s; command := command s; currentTrack := currentTrack s;
     direction := direction s; busy := busy s; drq := drq s;
     intrq := intrq s; doubleDensity := doubleDensity s;
     dataIndex := dataIndex s; dataLength := dataLength s;
     sectorBuffer := sectorBuffer s;
     operationStartTime := operationStartTime s; stepRate := stepRate s;
     writeProtect := writeProtect s; motorOn := motorOn s;
     state := state s; sectorsRemaining := v;
     multiSector := multiSector s |}.
Definition set_multiSector (v : bool) (s : FDCState) : FDCState :=
  {| status := status s; track := track s; sector := sector s;
     data := data s; command := command s; currentTrack := currentTrack s;
     direction := direction s; busy := busy s; drq := drq s;
     intrq := intrq s; doubleDensity := doubleDensity s;
     dataIndex := dataIndex s; dataLength := dataLength s;
     sectorBuffer := sectorBuffer s;
     operationStartTime := operationStartTime s; stepRate := stepRate s;
     writeProtect := writeProtect s; motorOn := motorOn s;
     state := state s; sectorsRemaining := sectorsRemaining s;
     multiSector := v |}.

(** The four assignments with which the sector gateway gives a command up
    as record-not-found. *)
Definition record_not_found (s : FDCState) : FDCState :=
  s |> set_status ST_RNF |> set_busy false |> set_intrq true
    |> set_state STATE_IDLE.

(** [FdcDevice::getStepRate] *)
Definition getStepRate (s : FDCState) : Z :=
  let rateCode := Z.land (command s) 0x03 in
  if rateCode =? 0 then STEP_TIME_6MS
  else if rateCode =? 1 then STEP_TIME_12MS
  else if rateCode =? 2 then STEP_TIME_20MS
  else if rateCode =? 3 then STEP_TIME_30MS
  else STEP_TIME_6MS.

(** The Type-I command handlers; [now] is what [micros()] returns. *)

Definition cmdRestore (now : Z) (s : FDCState) : FDCState :=
  s |> set_busy true |> set_status ST_BUSY |> set_currentTrack 0
    |> set_track 0 |> set_direction (-1) |> set_state STATE_SEEKING
    |> (fun s => set_stepRate (getStepRate s) s)
    |> set_operationStartTime now.

Definition cmdSeek (now : Z) (s : FDCState) : FDCState :=
  s |> set_busy true |> set_status ST_BUSY
    |> (fun s => set_direction (if data s >? currentTrack s then 1 else -1) s)
    |> set_state STATE_SEEKING
    |> (fun s => set_stepRate (getStepRate s) s)
    |> set_operationStartTime now.

Definition cmdStep (now : Z) (s : FDCState) : FDCState :=
  s |> set_busy true |> set_status ST_BUSY |> set_state STATE_SEEKING
    |> (fun s => set_stepRate (getStepRate s) s)
    |> set_operationStartTime now.

Definition cmdStepIn (now : Z) (s : FDCState) : FDCState :=
  s |> set_busy true |> set_status ST_BUSY |> set_direction 1
    |> set_state STATE_SEEKING
    |> (fun s => set_stepRate (getStepRate s) s)
    |> set_operationStartTime now.

Definition cmdStepOut (now : Z) (s : FDCState) : FDCState :=
  s |> set_busy true |> set_status ST_BUSY |> set_direction (-1)
    |> set_state STATE_SEEKING
    |> (fun s => set_stepRate (getStepRate s) s)
    |> set_operationStartTime now.

(** Byte [k] of a little-endian word replaced by the byte [v]; byte 0 is
    the least significant one. *)
Definition replace_byte (k : Z) (v word : Z) : Z :=
  word mod 256 ^ k + 256 ^ k * wrap8 v +
  256 ^ (k + 1) * (word / 256 ^ (k + 1)).

(** A byte stored at [fdc.sectorBuffer + BUFFER_SIZE + j], past the end
    of the array: C++ gives such a store no meaning, and on the target it
    lands on what follows the array in memory.  In [FDCState] these are
    the members declared after [sectorBuffer]; in declaration order, each
    aligned to its size, with four-byte little-endian words and the enum
    stored as an [int], they are

      j = 0..3    operationStartTime
      j = 4..7    stepRate
      j = 8       writeProtect
      j = 9       motorOn
      j = 10, 11  padding
      j = 12..15  state
      j = 16      sectorsRemaining
      j = 17      multiSector
      j = 18, 19  padding.

    A [bool] is read as true when its byte is not zero.  From [j = 20] on
    the store is outside [fdc]; what it hits there is not part of this
    state, and the device records such a store in [overrun]. *)
Definition store_past_buffer (j : Z) (v : Z) (s : FDCState) : FDCState :=
  if j <? 4 then
    set_operationStartTime (replace_byte j v (operationStartTime s)) s
  else if j <? 8 then
    set_stepRate (replace_byte (j - 4) v (stepRate s)) s
  else if j =? 8 then set_writeProtect (negb (wrap8 v =? 0)) s
  else if j =? 9 then set_motorOn (negb (wrap8 v =? 0)) s
  else if j <? 12 then s
  else if j <? 16 then
    set_state (state_of_code
                 (replace_byte (j - 12) v (state_code (state s)))) s
  else if j =? 16 then set_sectorsRemaining (wrap8 v) s
  else if j =? 17 then set_multiSector (negb (wrap8 v =? 0)) s
  else s.

(** [fdc.sectorBuffer[i] = v]: inside the array the byte is stored in
    it; the code never checks [i] against the array's size, and a
    larger index stores past its end. *)
Definition store_byte (i : nat) (v : Z) (s : FDCState) : FDCState :=
  if Z.of_nat i <? BUFFER_SIZE
  then set_sectorBuffer (<[i := v]> (sectorBuffer s)) s
  else store_past_buffer (Z.of_nat i - BUFFER_SIZE) v s.

(** Consecutive bytes stored past the end of the array, the first one at
    [fdc.sectorBuffer + BUFFER_SIZE + j]. *)
Fixpoint store_run_past_buffer (j : Z) (bytes : list Z) (s : FDCState)
  : FDCState :=
  match bytes with
  | [] => s
  | v :: rest => store_run_past_buffer (j + 1) rest (store_past_buffer j v s)
  end.

(** [FdcDevice::cmdReadAddress] *)
Definition cmdReadAddress (s : FDCState) : FDCState :=
  s |> (fun s => store_byte 0 (currentTrack s) s)
    |> store_byte 1 0 |> store_byte 2 1 |> store_byte 3 2
    |> store_byte 4 0 |> store_byte 5 0
    |> set_dataIndex 0 |> set_dataLength 6 |> set_drq true
    |> set_busy true |> set_status ST_BUSY
    |> set_state STATE_READING_SECTOR.

(** [FdcDevice::cmdForceInterrupt] *)
Definition cmdForceInterrupt (s : FDCState) : FDCState :=
  s |> set_busy false |> set_drq false |> set_intrq true
    |> set_state STATE_IDLE |> set_status 0.

(** The byte offset of a sector, as [readSectorData] computes it in
    [uint32_t]; [T] is [fdc.currentTrack] and [S] is [fdc.sector]. *)
Definition readSectorData_offset (disk : Img.DiskImage) (T S : Z) : Z :=
  if Img.isExtendedDSK disk then
    let trackSize :=
      wrap32 (Img.trackHeaderSize disk +
              Img.sectorsPerTrack disk * Img.sectorSize disk) in
    wrap32 (Img.headerOffset disk + wrap32 (T * trackSize) +
            Img.trackHeaderSize disk + (S - 1) * Img.sectorSize disk)
  else
    wrap32 ((T * Img.sectorsPerTrack disk + (S - 1)) * Img.sectorSize disk).

(** The same computation, as [writeSectorData] repeats it. *)
Definition writeSectorData_offset (disk : Img.DiskImage) (T S : Z) : Z :=
  if Img.isExtendedDSK disk then
    let trackSize :=
      wrap32 (Img.trackHeaderSize disk +
              Img.sectorsPerTrack disk * Img.sectorSize disk) in
    wrap32 (Img.headerOffset disk + wrap32 (T * trackSize) +
            Img.trackHeaderSize disk + (S - 1) * Img.sectorSize disk)
  else
    wrap32 ((T * Img.sectorsPerTrack disk + (S - 1)) * Img.sectorSize disk).

(** [snprintf(filename, sizeof(filename), "/%s", currentDisk->filename)] *)
Definition image_path (disk : Img.DiskImage) : string :=
  strncpy 69 (String.append "/" (Img.filename disk)).

Inductive PinMode := INPUT | OUTPUT.
Inductive Level := LOW | HIGH.

(** A transfer the firmware asked the card for. *)
Inductive IoEvent :=
| IoRead (path : string) (offset len : Z)
| IoWrite (path : string) (offset : Z) (bytes : list Z).

(** [digitalRead(pin)] as an [int]. *)
Definition level_bit (l : Level) : Z :=
  match l with LOW => 0 | HIGH => 1 end.

Definition is_high (l : Level) : bool :=
  match l with HIGH => true | LOW => false end.

Definition is_low (l : Level) : bool := negb (is_high l).

Section Device.
Context {Fs : Type} `{Backend Fs}.

(** The members of [class FdcDevice], followed by the part of the
    board and of the card the device acts on.  A pointer member is an
    [option]: [None] is [nullptr], [Some x] holds the object pointed
    to.  [overrun] records that an access went past the end of
    [fdc.sectorBuffer]: from then on memory that the source does not
    name may have been overwritten. *)
Record FdcDevice := mkFdcDevice {
  fdc : FDCState;
  diskManager : option Catalog.DiskManager;
  sd : option Fs;
  activeDrive : Z;                    (* uint8_t *)
  lastCS : bool;
  lastRW : bool;
  dataBusDriven : bool;
  dataValidUntil : Z;                 (* uint32_t *)
  dataPinMode : list PinMode;         (* pinMode of dataPins[0..7] *)
  dataPinOut : list Level;            (* level written to dataPins[0..7] *)
  intrqPin : Level;                   (* WD_INTRQ *)
  drqPin : Level;                     (* WD_DRQ *)
  ioLog : list IoEvent;
  overrun : bool
}.

Definition on_fdc (f : FDCState -> FDCState) (d : FdcDevice) :=
  {| fdc := f (fdc d); diskManager := diskManager d; sd := sd d;
     activeDrive := activeDrive d; lastCS := lastCS d;
     lastRW := lastRW d; dataBusDriven := dataBusDriven d;
     dataValidUntil := dataValidUntil d; dataPinMode := dataPinMode d;
     dataPinOut := dataPinOut d; intrqPin := intrqPin d;
     drqPin := drqPin d; ioLog := ioLog d; overrun := overrun d |}.

(** [FdcDevice::setDiskManager] *)
Definition setDiskManager (dm : option Catalog.DiskManager)
    (d : FdcDevice) :=
  {| fdc := fdc d; diskManager := dm; sd := sd d;
     activeDrive := activeDrive d; lastCS := lastCS d;
     lastRW := lastRW d; dataBusDriven := dataBusDriven d;
     dataValidUntil := dataValidUntil d; dataPinMode := dataPinMode d;
     dataPinOut := dataPinOut d; intrqPin := intrqPin d;
     drqPin := drqPin d; ioLog := ioLog d; overrun := overrun d |}.

(** [FdcDevice::setSD] *)
Definition setSD (card : option Fs) (d : FdcDevice) :=
  {| fdc := fdc d; diskManager := diskManager d; sd := card;
     activeDrive := activeDrive d; lastCS := lastCS d;
     lastRW := lastRW d; dataBusDriven := dataBusDriven d;
     dataValidUntil := dataValidUntil d; dataPinMode := dataPinMode d;
     dataPinOut := dataPinOut d; intrqPin := intrqPin d;
     drqPin := drqPin d; ioLog := ioLog d; overrun := overrun d |}.

Definition set_activeDrive (v : Z) (d : FdcDevice) :=
  {| fdc := fdc d; diskManager := diskManager d; sd := sd d;
     activeDrive := v; lastCS := lastCS d;
     lastRW := lastRW d; dataBusDriven := dataBusDriven d;
     dataValidUntil := dataValidUntil d; dataPinMode := dataPinMode d;
     dataPinOut := dataPinOut d; intrqPin := intrqPin d;
     drqPin := drqPin d; ioLog := ioLog d; overrun := overrun d |}.

Definition set_last (cs rw : bool) (d : FdcDevice) :=
  {| fdc := fdc d; diskManager := diskManager d; sd := sd d;
     activeDrive := activeDrive d; lastCS := cs;
     lastRW := rw; dataBusDriven := dataBusDriven d;
     dataValidUntil := dataValidUntil d; dataPinMode := dataPinMode d;
     dataPinOut := dataPinOut d; intrqPin := intrqPin d;
     drqPin := drqPin d; ioLog := ioLog d; overrun := overrun d |}.

(** The data pins and the two members that track their ownership. *)
Definition set_bus (driven : bool) (until : Z) (modes : list PinMode)
    (out : list Level) (d : FdcDevice) :=
  {| fdc := fdc d; diskManager := diskManager d; sd := sd d;
     activeDrive := activeDrive d; lastCS := lastCS d;
     lastRW := lastRW d; dataBusDriven := driven;
     dataValidUntil := until; dataPinMode := modes;
     dataPinOut := out; intrqPin := intrqPin d;
     drqPin := drqPin d; ioLog := ioLog d; overrun := overrun d |}.

Definition set_handshake (i q : Level) (d : FdcDevice) :=
  {| fdc := fdc d; diskManager := diskManager d; sd := sd d;
     activeDrive := activeDrive d; lastCS := lastCS d;
     lastRW := lastRW d; dataBusDriven := dataBusDriven d;
     dataValidUntil := dataValidUntil d; dataPinMode := dataPinMode d;
     dataPinOut := dataPinOut d; intrqPin := i;
     drqPin := q; ioLog := ioLog d; overrun := overrun d |}.

Definition log_io (e : IoEvent) (d : FdcDevice) :=
  {| fdc := fdc d; diskManager := diskManager d; sd := sd d;
     activeDrive := activeDrive d; lastCS := lastCS d;
     lastRW := lastRW d; dataBusDriven := dataBusDriven d;
     dataValidUntil := dataValidUntil d; dataPinMode := dataPinMode d;
     dataPinOut := dataPinOut d; intrqPin := intrqPin d;
     drqPin := drqPin d; ioLog := ioLog d ++ [e]; overrun := overrun d |}.

Definition mark_overrun (b : bool) (d : FdcDevice) :=
  {| fdc := fdc d; diskManager := diskManager d; sd := sd d;
     activeDrive := activeDrive d; lastCS := lastCS d;
     lastRW := lastRW d; dataBusDriven := dataBusDriven d;
     dataValidUntil := dataValidUntil d; dataPinMode := dataPinMode d;
     dataPinOut := dataPinOut d; intrqPin := intrqPin d;
     drqPin := drqPin d; ioLog := ioLog d;
     overrun := overrun d || b |}.

(** [FdcDevice::FdcDevice]: [memset] clears [fdc]; the data pins are
    inputs after reset. *)
Definition FdcDevice_new : FdcDevice :=
  {| fdc :=
       {| status := 0; track := 0; sector := 0; data := 0; command := 0;
          currentTrack := 0; direction := 0; busy := false; drq := false;
          intrq := false; doubleDensity := false; dataIndex := 0;
          dataLength := 0;
          sectorBuffer := replicate (Z.to_nat BUFFER_SIZE) 0;
          operationStartTime := 0; stepRate := 0; writeProtect := false;
          motorOn := false; state := STATE_IDLE; sectorsRemaining := 0;
          multiSector := false |};
     diskManager := None; sd := None; activeDrive := 0;
     lastCS := true; lastRW := true; dataBusDriven := false;
     dataValidUntil := 0;
     dataPinMode := replicate 8 INPUT; dataPinOut := replicate 8 LOW;
     intrqPin := LOW; drqPin := LOW; ioLog := []; overrun := false |}.

(** [FdcDevice::begin] *)
Definition begin (d : FdcDevice) : FdcDevice :=
  on_fdc (fun s =>
    {| status := ST_TRACK00; track := 0; sector := 1; data := 0;
       command := 0; currentTrack := 0; direction := 1; busy := false;
       drq := false; intrq := false; doubleDensity := false;
       dataIndex := 0; dataLength := 0; sectorBuffer := sectorBuffer s;
       operationStartTime := operationStartTime s;
       stepRate := STEP_TIME_6MS; writeProtect := false;
       motorOn := false; state := STATE_IDLE; sectorsRemaining := 0;
       multiSector := false |}) d.

(** [FdcDevice::isEnabled], on the level of [WD_DDEN]. *)
Definition isEnabled (dden : Level) : bool := is_low dden.

(** [FdcDevice::checkDriveSelect], on the levels of [WD_DS0], [WD_DS1]. *)
Definition checkDriveSelect (ds0 ds1 : Level) (d : FdcDevice) : FdcDevice :=
  if is_high ds0 then set_activeDrive 0 d
  else if is_high ds1 then set_activeDrive 1 d
  else d.

(** [for (int i = 0; i < 8; i++) pinMode(dataPins[i], m);] *)
Definition pinMode_all (m : PinMode) (modes : list PinMode) : list PinMode :=
  foldl (fun acc i => <[i := m]> acc) modes (seq 0 8).

(** [for (...) digitalWrite(dataPins[i], (data & (1 << i)) ? HIGH : LOW);] *)
Definition digitalWrite_all (v : Z) (out : list Level) : list Level :=
  foldl (fun acc i =>
           <[i := if truthy (Z.land v (Z.shiftl 1 (Z.of_nat i)))
                  then HIGH else LOW]> acc)
        out (seq 0 8).

(** The second loop of [readDataBus]: bit [i] of the value is the
    level on [dataPins[i]]. *)
Definition bus_value (lines : list Level) : Z :=
  foldl (fun acc i =>
           if is_high (default LOW (lines !! i))
           then Z.lor acc (Z.shiftl 1 (Z.of_nat i)) else acc)
        0 (seq 0 8).

(** [FdcDevice::readDataBus]: the pins become inputs, and the value is
    what the host puts on the eight lines. *)
Definition readDataBus (lines : list Level) (d : FdcDevice)
  : Z * FdcDevice :=
  let d := set_bus (dataBusDriven d) (dataValidUntil d)
             (pinMode_all INPUT (dataPinMode d)) (dataPinOut d) d in
  (bus_value lines, d).

(** [FdcDevice::driveDataBus] *)
Definition driveDataBus (v : Z) (now : Z) (d : FdcDevice) : FdcDevice :=
  set_bus true (wrap32 (now + 500))
    (pinMode_all OUTPUT (dataPinMode d))
    (digitalWrite_all v (dataPinOut d)) d.

(** [FdcDevice::releaseDataBus] *)
Definition releaseDataBus (d : FdcDevice) : FdcDevice :=
  set_bus false (dataValidUntil d)
    (pinMode_all INPUT (dataPinMode d)) (dataPinOut d) d.

(** [FdcDevice::disable] *)
Definition disable (d : FdcDevice) : FdcDevice :=
  if dataBusDriven d then releaseDataBus d else d.

(** [FdcDevice::updateOutputs] *)
Definition updateOutputs (d : FdcDevice) : FdcDevice :=
  set_handshake (if intrq (fdc d) then HIGH else LOW)
                (if drq (fdc d) then HIGH else LOW) d.

(** [imageFile.read(fdc.sectorBuffer, n)]: the bytes delivered are
    stored from [fdc.sectorBuffer] on, all of them.  The first
    [BUFFER_SIZE] replace the front of the buffer; the others are stored
    past its end. *)
Definition read_into_buffer (bytes : list Z) (d : FdcDevice) : FdcDevice :=
  d |> on_fdc (fun s =>
         set_sectorBuffer
           (take (Z.to_nat BUFFER_SIZE)
                 (bytes ++ drop (length bytes) (sectorBuffer s))) s)
    |> on_fdc (store_run_past_buffer 0 (drop (Z.to_nat BUFFER_SIZE) bytes))
    |> mark_overrun (Z.of_nat (length bytes) >? BUFFER_SIZE).

(** [FdcDevice::readSectorData].  [read(buf, n)] stores at most [n]
    bytes, whatever the card holds. *)
Definition readSectorData (d : FdcDevice) : FdcDevice :=
  match diskManager d, sd d with
  | Some dm, Some card =>
    match Catalog.getDisk (activeDrive d) dm with
    | None => on_fdc record_not_found d
    | Some currentDisk =>
      if Img.size currentDisk =? 0 then on_fdc record_not_found d
      else if (sector (fdc d) <? 1) ||
              (sector (fdc d) >? Img.sectorsPerTrack currentDisk)
      then on_fdc record_not_found d
      else
        let offset :=
          readSectorData_offset currentDisk (currentTrack (fdc d))
                                (sector (fdc d)) in
        let path := image_path currentDisk in
        let d := log_io (IoRead path offset (Img.sectorSize currentDisk)) d in
        match fs_read card path offset (Img.sectorSize currentDisk) with
        | None => on_fdc record_not_found d
        | Some bytes =>
          let bytes := take (Z.to_nat (Img.sectorSize currentDisk)) bytes in
          let d := read_into_buffer bytes d in
          if negb (Z.of_nat (length bytes) =? Img.sectorSize currentDisk)
          then on_fdc record_not_found d
          else
            d |> on_fdc (fun s =>
              s |> set_dataIndex 0
                |> set_dataLength (Img.sectorSize currentDisk)
                |> set_drq true
                |> set_status (Z.lor ST_BUSY ST_DRQ)
                |> set_state STATE_READING_SECTOR)
        end
    end
  | _, _ => d
  end.

(** [FdcDevice::writeSectorData].  The [delay] calls have no effect on
    the state.  With a sector size above [BUFFER_SIZE] the source hands
    [write] the bytes that follow the array in memory too; the model
    hands over the array and records the access in [overrun]. *)
Definition writeSectorData (d : FdcDevice) : FdcDevice :=
  match diskManager d, sd d with
  | Some dm, Some card =>
    match Catalog.getDisk (activeDrive d) dm with
    | None => on_fdc record_not_found d
    | Some currentDisk =>
      if Img.size currentDisk =? 0 then on_fdc record_not_found d
      else
        let offset :=
          writeSectorData_offset currentDisk (currentTrack (fdc d))
                                 (sector (fdc d)) in
        let path := image_path currentDisk in
        let bytes :=
          take (Z.to_nat (Img.sectorSize currentDisk))
               (sectorBuffer (fdc d)) in
        let d := log_io (IoWrite path offset bytes) d in
        match fs_write card path offset bytes with
        | None =>
          d |> on_fdc (fun s =>
            s |> set_status ST_WRITE_PROTECT |> set_busy false
              |> set_intrq true |> set_state STATE_IDLE)
        | Some card' =>
          d |> setSD (Some card')
            |> mark_overrun (Img.sectorSize currentDisk >? BUFFER_SIZE)
            |> on_fdc (set_state STATE_SECTOR_WRITE_COMPLETE)
        end
    end
  | _, _ => d
  end.

(** [FdcDevice::cmdReadSector] *)
Definition cmdReadSector (now : Z) (d : FdcDevice) : FdcDevice :=
  let fail := on_fdc (fun s => s |> set_status ST_RNF |> set_intrq true) in
  match diskManager d with
  | None => fail d
  | Some dm =>
    match Catalog.getDisk (activeDrive d) dm with
    | None => fail d
    | Some currentDisk =>
      if Img.size currentDisk =? 0 then fail d
      else
        d |> on_fdc (fun s =>
               s |> set_busy true |> set_status ST_BUSY
                 |> (fun s => set_multiSector
                       (Z.land (command s) 0xF0 =? CMD_READ_SECTORS) s)
                 |> (fun s => set_sectorsRemaining
                       (if multiSector s
                        then Img.sectorsPerTrack currentDisk else 1) s)
                 |> set_state STATE_READING_SECTOR
                 |> set_operationStartTime now)
          |> readSectorData
    end
  end.

(** [FdcDevice::cmdWriteSector] *)
Definition cmdWriteSector (now : Z) (d : FdcDevice) : FdcDevice :=
  let fail := on_fdc (fun s => s |> set_status ST_RNF |> set_intrq true) in
  match diskManager d with
  | None => fail d
  | Some dm =>
    match Catalog.getDisk (activeDrive d) dm with
    | None => fail d
    | Some currentDisk =>
      if Img.size currentDisk =? 0 then fail d
      else if Img.writeProtected currentDisk then
        on_fdc (fun s => s |> set_status ST_WRITE_PROTECT
                           |> set_intrq true) d
      else
        d |> on_fdc (fun s =>
               s |> set_busy true |> set_status ST_BUSY
                 |> (fun s => set_multiSector
                       (Z.land (command s) 0xF0 =? CMD_WRITE_SECTORS) s)
                 |> (fun s => set_sectorsRemaining
                       (if multiSector s
                        then Img.sectorsPerTrack currentDisk else 1) s)
                 |> set_dataIndex 0
                 |> set_dataLength (Img.sectorSize currentDisk)
                 |> set_drq true
                 |> set_state STATE_WAITING_FOR_DATA_IN
                 |> set_operationStartTime now)
    end
  end.

(** [FdcDevice::handleRead].  A cursor of [BUFFER_SIZE] or more reads
    past the end of the array: the byte then comes from the memory that
    follows it, which the model does not reconstruct; it delivers 0 and
    records the access in [overrun]. *)
Definition handleRead (addr : Z) (now : Z) (d : FdcDevice) : FdcDevice :=
  let s := fdc d in
  let '(value, d) :=
    if addr =? 0 then
      let value := status s in
      let value := if busy s then Z.lor value ST_BUSY else value in
      let value := if drq s then Z.lor value ST_DRQ else value in
      (value, on_fdc (set_intrq false) d)
    else if addr =? 1 then (track s, d)
    else if addr =? 2 then (sector s, d)
    else if addr =? 3 then
      if state_is (state s) STATE_READING_SECTOR &&
         (dataIndex s <? dataLength s)
      then
        let value := default 0 (sectorBuffer s !! Z.to_nat (dataIndex s)) in
        let d := mark_overrun (dataIndex s >=? BUFFER_SIZE) d in
        let d := on_fdc (fun s =>
                   s |> set_dataIndex (wrap16 (dataIndex s + 1))
                     |> set_data value) d in
        if dataIndex (fdc d) >=? dataLength (fdc d)
        then (value, on_fdc (fun s => s |> set_drq false
                               |> set_state STATE_SECTOR_READ_COMPLETE) d)
        else (value, d)
      else (data s, d)
    else (0, d) in
  driveDataBus value now d.

(** The command decoder of [handleWrite], case 0. *)
Definition dispatch (now : Z) (d : FdcDevice) : FdcDevice :=
  let c := command (fdc d) in
  if Z.land c 0xF0 =? CMD_RESTORE then on_fdc (cmdRestore now) d
  else if Z.land c 0xF0 =? CMD_SEEK then on_fdc (cmdSeek now) d
  else if Z.land c 0xE0 =? CMD_STEP then on_fdc (cmdStep now) d
  else if Z.land c 0xE0 =? CMD_STEP_IN then on_fdc (cmdStepIn now) d
  else if Z.land c 0xE0 =? CMD_STEP_OUT then on_fdc (cmdStepOut now) d
  else if (Z.land c 0xF0 =? CMD_READ_SECTOR) ||
          (Z.land c 0xF0 =? CMD_READ_SECTORS) then cmdReadSector now d
  else if (Z.land c 0xF0 =? CMD_WRITE_SECTOR) ||
          (Z.land c 0xF0 =? CMD_WRITE_SECTORS) then cmdWriteSector now d
  else if Z.land c 0xF0 =? CMD_READ_ADDRESS then on_fdc cmdReadAddress d
  else if Z.land c 0xF0 =? CMD_FORCE_INT then on_fdc cmdForceInterrupt d
  else d.

(** [FdcDevice::handleWrite]; the byte written is in [fdc.data]. *)
Definition handleWrite (addr : Z) (now : Z) (d : FdcDevice) : FdcDevice :=
  let s := fdc d in
  if addr =? 0 then
    d |> on_fdc (fun s => set_command (data s) s) |> dispatch now
  else if addr =? 1 then on_fdc (fun s => set_track (data s) s) d
  else if addr =? 2 then on_fdc (fun s => set_sector (data s) s) d
  else if addr =? 3 then
    if state_is (state s) STATE_WAITING_FOR_DATA_IN &&
       (dataIndex s <? dataLength s)
    then
      let d := mark_overrun (dataIndex s >=? BUFFER_SIZE) d in
      let d := on_fdc (fun s =>
                 s |> store_byte (Z.to_nat (dataIndex s)) (data s)
                   |> set_dataIndex (wrap16 (dataIndex s + 1))) d in
      if dataIndex (fdc d) >=? dataLength (fdc d)
      then d |> on_fdc (fun s => s |> set_drq false
                          |> set_state STATE_WRITING_SECTOR)
             |> writeSectorData
      else d
    else d
  else d.

(** The three ways a seek ends, in [processStateMachine]. *)
Definition seek_done (s : FDCState) : FDCState :=
  s |> set_busy false |> set_intrq true |> set_state STATE_IDLE.

Definition update_track (s : FDCState) : FDCState :=
  s |> (fun s => if truthy (Z.land (command s) 0x10)
                 then set_track (currentTrack s) s else s)
    |> (fun s => set_status (if currentTrack s =? 0 then ST_TRACK00 else 0) s).

(** [FdcDevice::processStateMachine]; the [switch] has no [default]. *)
Definition processStateMachine (now : Z) (d : FdcDevice) : FdcDevice :=
  let s := fdc d in
  match state s with
  | STATE_IDLE => d
  | STATE_SEEKING =>
    if wrap32 (now - operationStartTime s) >=? stepRate s then
      if Z.land (command s) 0xF0 =? CMD_RESTORE then
        on_fdc (fun s => s |> set_currentTrack 0 |> set_track 0
                           |> set_status ST_TRACK00 |> seek_done) d
      else if Z.land (command s) 0xF0 =? CMD_SEEK then
        on_fdc (fun s => s |> set_currentTrack (data s)
                           |> update_track |> seek_done) d
      else
        on_fdc (fun s =>
          s |> set_currentTrack (wrap8 (currentTrack s + direction s))
            |> (fun s => if currentTrack s <? 0
                         then set_currentTrack 0 s else s)
            |> (fun s => if currentTrack s >? MAX_TRACKS
                         then set_currentTrack MAX_TRACKS s else s)
            |> update_track |> seek_done) d
    else d
  | STATE_READING_SECTOR => d
  | STATE_SECTOR_READ_COMPLETE =>
    if multiSector s && (sectorsRemaining s >? 1) then
      d |> on_fdc (fun s =>
             s |> set_sectorsRemaining (wrap8 (sectorsRemaining s - 1))
               |> set_sector (wrap8 (sector s + 1)))
        |> readSectorData
    else
      on_fdc (fun s => s |> set_busy false |> set_drq false
                         |> set_intrq true |> set_status 0
                         |> set_state STATE_IDLE) d
  | STATE_WAITING_FOR_DATA_IN => d
  | STATE_WRITING_SECTOR => d
  | STATE_SECTOR_WRITE_COMPLETE =>
    if multiSector s && (sectorsRemaining s >? 1) then
      on_fdc (fun s =>
        s |> set_sectorsRemaining (wrap8 (sectorsRemaining s - 1))
          |> set_sector (wrap8 (sector s + 1))
          |> set_dataIndex 0 |> set_drq true
          |> set_state STATE_WAITING_FOR_DATA_IN) d
    else
      on_fdc (fun s => s |> set_busy false |> set_drq false
                         |> set_intrq true |> set_status 0
                         |> set_state STATE_IDLE) d
  | STATE_SETTLING => d
  | STATE_WAITING_FOR_DATA_OUT => d
  | STATE_OUT_OF_RANGE _ => d
  end.

(** The levels the host puts on the bus when [handleBus] samples it. *)
Record BusSample := mkBusSample {
  WD_CS : Level;
  WD_RW : Level;
  WD_A0 : Level;
  WD_A1 : Level;
  dataLines : list Level
}.

(** [FdcDevice::handleBus] *)
Definition handleBus (p : BusSample) (now : Z) (d : FdcDevice) : FdcDevice :=
  let cs := is_low (WD_CS p) in
  let rw := is_high (WD_RW p) in
  let d :=
    if negb (lastCS d) && cs then
      let addr := Z.lor (Z.shiftl (level_bit (WD_A1 p)) 1)
                        (level_bit (WD_A0 p)) in
      if rw then handleRead addr now d
      else
        let '(v, d) := readDataBus (dataLines p) d in
        d |> on_fdc (set_data v) |> handleWrite addr now
    else d in
  let d :=
    if lastCS d && negb cs then
      if dataBusDriven d && (now >? dataValidUntil d)
      then releaseDataBus d else d
    else d in
  set_last cs rw d.

(** What the firmware's loop and its collaborators do to the device:
    bus polling, state-machine ticks, drive-select polling, output
    refresh, disabling, and the installation or replacement (by the
    selection UI, through the shared pointers) of the catalog and of
    the card. *)
Inductive Event :=
| EvBus (p : BusSample) (now : Z)
| EvTick (now : Z)
| EvSelect (ds0 ds1 : Level)
| EvOutputs
| EvDisable
| EvDiskManager (dm : option Catalog.DiskManager)
| EvCard (card : option Fs).

Definition step (e : Event) (d : FdcDevice) : FdcDevice :=
  match e with
  | EvBus p now => handleBus p now d
  | EvTick now => processStateMachine now d
  | EvSelect ds0 ds1 => checkDriveSelect ds0 ds1 d
  | EvOutputs => updateOutputs d
  | EvDisable => disable d
  | EvDiskManager dm => setDiskManager dm d
  | EvCard card => setSD card d
  end.

Fixpoint run (evs : list Event) (d : FdcDevice) : FdcDevice :=
  match evs with
  | [] => d
  | e :: evs' => run evs' (step e d)
  end.

(** The device after power-up: constructed, then [begin]. *)
Definition power_up : FdcDevice := begin FdcDevice_new.

(** The host's side of the bus, as polls of [handleBus]: a poll that
    finds chip-select released, and a write or a read cycle of the
    register at address [2 * a1 + a0], seen once while chip-select is
    asserted and once after its release. *)
Definition released (rw : Level) : BusSample :=
  {| WD_CS := HIGH; WD_RW := rw; WD_A0 := LOW; WD_A1 := LOW;
     dataLines := [] |}.

Definition write_cycle (a1 a0 : Level) (lines : list Level)
    (t_select t_release : Z) : list Event :=
  [ EvBus {| WD_CS := LOW; WD_RW := LOW; WD_A0 := a0; WD_A1 := a1;
             dataLines := lines |} t_select;
    EvBus (released LOW) t_release ].

Definition read_cycle (a1 a0 : Level) (t_select t_release : Z)
  : list Event :=
  [ EvBus {| WD_CS := LOW; WD_RW := HIGH; WD_A0 := a0; WD_A1 := a1;
             dataLines := [] |} t_select;
    EvBus (released HIGH) t_release ].

(** The eight levels that carry the byte [v]. *)
Definition lines_of (v : Z) : list Level :=
  (fun i => if Z.testbit v (Z.of_nat i) then HIGH else LOW) <$> seq 0 8.

End Device.

Arguments FdcDevice : clear implicits.
Arguments Event : clear implicits.

End Fdc.

(* ===================================================================== *)
(** ** Predicates and reference functions used in the statements *)
(* ===================================================================== *)

Module Props.
Import Fdc.

(** The offset of the specification for a headered image:
    [H + T * (h + spt * ssz) + h + (S - 1) * ssz]. *)
Definition headered_offset (H h spt ssz T S : Z) : Z :=
  H + T * (h + spt * ssz) + h + (S - 1) * ssz.







(** The drive-select rule in the specification's words: the inputs are
    active-low, so a line is asserted when it reads LOW. *)
Definition spec_activeDrive (ds0 ds1 : Level) (previous : Z) : Z :=
  if is_low ds0 then 0 else if is_low ds1 then 1 else previous.

(** A slot is empty ([size] 0) or its image has sectors of at least one
    byte that fit the staging buffer. *)
Definition disk_usable (disk : Img.DiskImage) : bool :=
  (Img.size disk =? 0) ||
  (0 <? Img.sectorSize disk) && (Img.sectorSize disk <=? BUFFER_SIZE).

Definition catalog_usable (dm : option Catalog.DiskManager) : bool :=
  match dm with
  | None => true
  | Some dm => forallb disk_usable (Catalog.disks dm)
  end.

(** The register a cycle addresses: [(A1 << 1) | A0]. *)
Definition reg_addr (a1 a0 : Level) : Z :=
  Z.lor (Z.shiftl (level_bit a1) 1) (level_bit a0).


(** The invariant of the registers: DRQ only during a transfer with bytes
    left; BUSY clear only when idle; the cursor is never negative; a
    sector whose write has completed had at least one byte; a transfer
    is never longer than the staging buffer. *)
Definition fdc_inv (s : FDCState) : Prop :=
  (drq s = true ->
     (state s = STATE_READING_SECTOR \/
      state s = STATE_WAITING_FOR_DATA_IN) /\
     dataIndex s < dataLength s) /\
  (busy s = false -> state s = STATE_IDLE) /\
  0 <= dataIndex s /\
  (state s = STATE_SECTOR_WRITE_COMPLETE -> 0 < dataLength s) /\
  dataLength s <= BUFFER_SIZE.

Section WithCard.
Context {Fs : Type} `{Backend Fs}.

(** The byte a poll of [handleBus] latches into the Command register, if
    the poll is the start of a write cycle at address 0. *)
Definition command_write (p : BusSample) (d : FdcDevice Fs) : option Z :=
  if negb (lastCS d) && is_low (WD_CS p) && negb (is_high (WD_RW p)) &&
     (Z.lor (Z.shiftl (level_bit (WD_A1 p)) 1) (level_bit (WD_A0 p)) =? 0)
  then Some (bus_value (dataLines p)) else None.

(** The discipline of a host written for the real chip, and of the
    catalog: a command other than FORCE INTERRUPT is written only while
    BUSY is clear, and a catalog handed to the controller has no bound
    image with sectors of zero bytes or of more bytes than the staging
    buffer holds. *)
Definition polite (e : Event Fs) (d : FdcDevice Fs) : bool :=
  match e with
  | EvBus p _ =>
      match command_write p d with
      | Some c => negb (busy (fdc d)) || (Z.land c 0xF0 =? CMD_FORCE_INT)
      | None => true
      end
  | EvDiskManager dm => catalog_usable dm
  | _ => true
  end.

(** What goes on while a host waits for a command to end: polls on
    which the host does not write (the R/W line is high: a read of some
    register, or no cycle at all), ticks of the state machine,
    drive-select polls and refreshes of the outputs. *)
Definition host_waits (e : Event Fs) : bool :=
  match e with
  | EvBus p _ => is_high (WD_RW p)
  | EvTick _ => true
  | EvSelect _ _ => true
  | EvOutputs => true
  | _ => false
  end.

Fixpoint polite_run (evs : list (Event Fs)) (d : FdcDevice Fs) : bool :=
  match evs with
  | [] => true
  | e :: evs' => polite e d && polite_run evs' (step e d)
  end.

Definition device_inv (d : FdcDevice Fs) : Prop :=
  fdc_inv (fdc d) /\ catalog_usable (diskManager d) = true.

(** The part of the device the engine works on; the rest is the bus. *)
Definition core (d : FdcDevice Fs) :=
  (fdc d, diskManager d, sd d, activeDrive d, ioLog d, overrun d).

(** The members a sector transfer to the host leaves alone. *)
Definition same_transfer (d d' : FdcDevice Fs) : Prop :=
  diskManager d' = diskManager d /\ sd d' = sd d /\
  activeDrive d' = activeDrive d /\ ioLog d' = ioLog d /\
  sector (fdc d') = sector (fdc d) /\
  currentTrack (fdc d') = currentTrack (fdc d) /\
  multiSector (fdc d') = multiSector (fdc d) /\
  sectorsRemaining (fdc d') = sectorsRemaining (fdc d) /\
  dataLength (fdc d') = dataLength (fdc d) /\
  sectorBuffer (fdc d') = sectorBuffer (fdc d) /\
  busy (fdc d') = busy (fdc d).


(** Data-register read cycles, one per pair of poll times. *)
Definition data_reads (reads : list (Z * Z)) : list (Event Fs) :=
  mjoin ((fun r => read_cycle HIGH HIGH r.1 r.2) <$> reads).

End WithCard.

End Props.

(* ===================================================================== *)
(** ** Concrete images, cards and bus traces *)
(* ===================================================================== *)

Module Runs.
Import Fdc Props.

Abbreviation Device := (FdcDevice RamFs).

(** A 40-track, 9-sector, 512-byte Extended DSK descriptor, with the
    256-byte disk and track headers. *)
Definition cpc_extended : Img.DiskImage :=
  {| Img.filename := "GAME.DSK"; Img.size := 194816; Img.tracks := 40;
     Img.sectorsPerTrack := 9; Img.sectorSize := 512;
     Img.doubleDensity := true; Img.writeProtected := false;
     Img.isExtendedDSK := true; Img.headerOffset := 256;
     Img.trackHeaderSize := 256 |}.



(** The bus is idle and chip-select has been seen released. *)
Definition settle : list (Event RamFs) := [EvBus (released HIGH) 0].

(** READ ADDRESS (0xC0) at 10 us, then SEEK (0x10) at 30 us while the six
    address bytes are still waiting for the host. *)
Definition seek_over_read_address : list (Event RamFs) :=
  settle ++
  write_cycle LOW LOW (lines_of 0xC0) 10 20 ++
  write_cycle LOW LOW (lines_of 0x10) 30 40.

(** SEEK (0x10) issued to the idle controller. *)
Definition seek_when_idle : list (Event RamFs) :=
  settle ++ write_cycle LOW LOW (lines_of 0x10) 10 20.

(** SEEK (0x10, step rate 6 ms) at 10 us; the host stores 200 in the Data
    register at 30 us; the state machine ticks at 7000 us. *)
Definition seek_to_200 : list (Event RamFs) :=
  settle ++
  write_cycle LOW LOW (lines_of 0x10) 10 20 ++
  write_cycle HIGH HIGH (lines_of 200) 30 40 ++
  [EvTick 7000].

(** A Status read selected at 10 us and released at 100 us, then a poll
    at 100000 us with chip-select still released. *)
Definition short_read : list (Event RamFs) :=
  settle ++ read_cycle LOW LOW 10 100 ++ [EvBus (released HIGH) 100000].

(** A block of [n] bytes that starts with [sig] and has the given bytes
    at the given offsets. *)
Definition block (n : nat) (sig : string) (fields : list (nat * Z))
  : list Z :=
  foldl (fun acc f => <[f.1 := f.2]> acc)
        (take n (Catalog.bytes_of_string sig ++ replicate n 0)) fields.

(** An Extended DSK file: disk information block, then per track a
    track information block and [spt] sectors of [128 << code] bytes,
    every data byte being [fill]. *)
Definition extended_dsk (ntracks spt code fill : Z) : list Z :=
  block 256 "EXTENDED CPC DSK" [(48%nat, ntracks); (49%nat, 1)] ++
  mjoin (replicate (Z.to_nat ntracks)
           (block 256 "Track-Info" [(20%nat, code); (21%nat, spt)] ++
            replicate (Z.to_nat (spt * Z.shiftl 128 code)) fill)).

Definition card_with (filename : string) (bytes : list Z) : RamFs :=
  [({| name := filename; isDirectory := false |}, bytes)].

(** The catalog after scanning the card and binding its first image to
    drive 0. *)
Definition catalog_of (card : RamFs) : Catalog.DiskManager :=
  snd (Catalog.loadImage card 0 0
         (Catalog.scanImages card Catalog.DiskManager_new)).

(** A freshly started controller that has been handed that catalog and
    the card. *)
Definition mount (card : RamFs) : list (Event RamFs) :=
  EvDiskManager (Some (catalog_of card)) :: EvCard (Some card) :: settle.

Definition mounted (card : RamFs) : Device := run (mount card) power_up.

Definition bound_disk (d : Device) : option Img.DiskImage :=
  diskManager d ≫= Catalog.getDisk (activeDrive d).

Definition card_bytes (filename : string) (d : Device) : option (list Z) :=
  sd d ≫= ram_find (String.append "/" filename).

(** One track of one 2048-byte sector: size code 4. *)
Definition big_card : RamFs := card_with "BIG.DSK" (extended_dsk 1 1 4 229).

(** READ SECTOR (0x80). *)
Definition read_big : list (Event RamFs) :=
  write_cycle LOW LOW (lines_of 0x80) 10 20.

(** Two tracks of two 128-byte sectors; every data byte is 0xE5. *)
Definition tiny_card : RamFs := card_with "TINY.DSK" (extended_dsk 2 2 0 0xE5).

(** The descriptor [loadImage] resolves for it. *)
Definition tiny_disk : Img.DiskImage :=
  default Img.empty (Catalog.getDisk 0 (catalog_of tiny_card)).

(** Sector register := 3, WRITE SECTOR (0xA0), 128 bytes 0xAA through the
    Data register, one tick of the state machine. *)
Definition write_sector_3 : list (Event RamFs) :=
  write_cycle HIGH LOW (lines_of 3) 10 20 ++
  write_cycle LOW LOW (lines_of 0xA0) 30 40 ++
  mjoin (replicate 128 (write_cycle HIGH HIGH (lines_of 0xAA) 50 60)) ++
  [EvTick 70].



(** One track of two sectors with size code 9 and no sector data:
    [128 << 9] is 65536, which the 16-bit [sectorSize] holds as 0. *)
Definition zero_size_card : RamFs :=
  card_with "ZERO.DSK"
    (block 256 "EXTENDED CPC DSK" [(48%nat, 1); (49%nat, 1)] ++
     block 256 "Track-Info" [(20%nat, 9); (21%nat, 2)]).

(** The controller on [zero_size_card] with the Sector register set to
    2, the last sector of the track. *)
Definition at_last_zero_sector : Device :=
  run (write_cycle HIGH LOW (lines_of 2) 10 20) (mounted zero_size_card).

(** WRITE SECTOR (0xA0) on [big_card], then 1037 bytes 0xAA through the
    Data register: the last one is stored at index 1036. *)
Definition write_past_buffer : list (Event RamFs) :=
  write_cycle LOW LOW (lines_of 0xA0) 30 40 ++
  mjoin (replicate 1037 (write_cycle HIGH HIGH (lines_of 0xAA) 50 60)).

(** READ SECTOR (0x80) of sector 1, track 0, on [tiny_card]. *)
Definition read_sector_1 : list (Event RamFs) :=
  mount tiny_card ++ write_cycle LOW LOW (lines_of 0x80) 10 20.

(** The controller on [tiny_card] with the Sector register set to 2, the
    last sector of a track. *)
Definition at_last_sector : Device :=
  run (write_cycle HIGH LOW (lines_of 2) 10 20) (mounted tiny_card).

End Runs.

(* ===================================================================== *)
(** ** More of the image catalog: lookups and the persisted binding *)
(* ===================================================================== *)

Module Config.
Import Catalog.

Definition LASTIMG_FILE : string := "/lastimg.cfg".


(** [DiskManager::getLoadedIndex] *)
Definition getLoadedIndex (drive : Z) (dm : DiskManager) : Z :=
  if drive >=? MAX_DRIVES then -1
  else default (-1) (loadedImageIndex dm !! Z.to_nat drive).

(** What [saveConfig] prints for one drive: the catalogued name when
    [loadedImageIndex[drive]] is a valid index, else [NONE]. *)
Definition config_name (drive : nat) (dm : DiskManager) : string :=
  let i := default (-1) (loadedImageIndex dm !! drive) in
  if (i >=? 0) && (i <? totalImages dm)
  then default "" (diskImages dm !! Z.to_nat i) else "NONE".

(** The characters [saveConfig] sends to the file: [print], [print(",")],
    [println], the last of which ends the line with CR LF. *)
Definition config_text (dm : DiskManager) : string :=
  String.append (config_name 0 dm)
    (String.append "," (String.append (config_name 1 dm)
       (String (ascii_of_nat 13) (String (ascii_of_nat 10) EmptyString)))).

(** The read loop of [loadConfig]: characters up to the first LF or CR,
    at most [n] of them. *)
Fixpoint read_line (n : nat) (chars : string) : string :=
  match n, chars with
  | O, _ => EmptyString
  | S _, EmptyString => EmptyString
  | S n', String c rest =>
      if (Ascii.eqb c (ascii_of_nat 10) || Ascii.eqb c (ascii_of_nat 13))%bool
      then EmptyString else String c (read_line n' rest)
  end.

(** A [char] buffer read as a C string: it ends at the first NUL. *)
Fixpoint c_str (buf : string) : string :=
  match buf with
  | EmptyString => EmptyString
  | String c rest =>
      if Ascii.eqb c (ascii_of_nat 0) then EmptyString
      else String c (c_str rest)
  end.

(** [strchr(line, ',')], then [*commaPtr = 0]: the text before the first
    comma and the text after it; [None] when there is no comma. *)
Fixpoint split_at_comma (line : string) : option (string * string) :=
  match line with
  | EmptyString => None
  | String c rest =>
      if Ascii.eqb c "," then Some (EmptyString, rest)
      else match split_at_comma rest with
           | Some (before, after) => Some (String c before, after)
           | None => None
           end
  end.

(** The search loops of [loadConfig]: the first index whose catalogued
    name is [filename], by [strcmp]. *)
Fixpoint find_image (filename : string) (images : list string) : option Z :=
  match images with
  | [] => None
  | image :: rest =>
      if String.eqb image filename then Some 0
      else Z.succ <$> find_image filename rest
  end.

(** The calls [saveConfig] makes on the card, for the one file it uses. *)
Class ConfigWriter (Fs : Type) := {
  (** [exists(path)] *)
  cfg_exists : Fs -> string -> bool;
  (** [remove(path)] *)
  cfg_remove : Fs -> string -> Fs;
  (** [open(path, O_WRITE)], the [print] calls, [flush()], [close()]:
      [None] when the open fails, else the card afterwards. *)
  cfg_print : Fs -> string -> string -> option Fs
}.

(** The calls [loadConfig] makes: [open(path, O_READ)] and the characters
    [read()] delivers while [available()] holds; [None] when the open
    fails. *)
Class ConfigReader (Fs : Type) := {
  cfg_chars : Fs -> string -> option string
}.

Section WithCard.
Context {Fs : Type} `{Backend Fs} `{ConfigWriter Fs} `{ConfigReader Fs}.

(** [DiskManager::saveConfig]; the [delay] calls have no effect on the
    state. *)
Definition saveConfig (card : Fs) (dm : DiskManager) : Fs :=
  let card :=
    if cfg_exists card LASTIMG_FILE then cfg_remove card LASTIMG_FILE
    else card in
  match cfg_print card LASTIMG_FILE (config_text dm) with
  | None => card
  | Some card' => card'
  end.

(** One of the two search-and-load blocks of [loadConfig]. *)
Definition load_named (card : Fs) (drive : Z) (filename : string)
    (dm : DiskManager) : DiskManager :=
  if negb (String.eqb filename "NONE") then
    match find_image filename (diskImages dm) with
    | Some idx => snd (loadImage card drive idx dm)
    | None => dm
    end
  else dm.

(** [DiskManager::loadConfig] *)
Definition loadConfig (card : Fs) (dm : DiskManager) : DiskManager :=
  match cfg_chars card LASTIMG_FILE with
  | None => dm
  | Some chars =>
      let line := c_str (read_line 139 chars) in
      match split_at_comma line with
      | None => dm
      | Some (filename0, filename1) =>
          dm |> load_named card 0 filename0 |> load_named card 1 filename1
      end
  end.




End WithCard.

(** The in-memory card keeps the configuration record like any other
    file of the root directory. *)
Definition string_of_bytes (bytes : list Z) : string :=
  string_of_list_ascii ((fun b => ascii_of_N (Z.to_N b)) <$> bytes).

#[global] Instance ram_config : ConfigReader RamFs := {
  cfg_chars fs path := string_of_bytes <$> ram_find path fs
}.

End Config.

(* ===================================================================== *)
(** ** More predicates and reference functions *)
(* ===================================================================== *)

Module MoreProps.
Import Catalog Config Fdc.

(** The descriptor [loadImage] stores before it looks for an Extended
    DSK header. *)
Definition flat_descriptor (image : string) (fileSize : Z) : Img.DiskImage :=
  let g := snd (detectFormat Img.empty fileSize) in
  {| Img.filename := strncpy 63 image; Img.size := fileSize;
     Img.tracks := Img.tracks g;
     Img.sectorsPerTrack := Img.sectorsPerTrack g;
     Img.sectorSize := Img.sectorSize g;
     Img.doubleDensity := Img.doubleDensity g;
     Img.writeProtected := false; Img.isExtendedDSK := false;
     Img.headerOffset := 0; Img.trackHeaderSize := 0 |}.

(** A character the configuration record can carry inside a name: not the
    separator, not an end of line, not NUL. *)
Definition plain_char (c : ascii) : bool :=
  negb (Ascii.eqb c "," || Ascii.eqb c (ascii_of_nat 10) ||
        Ascii.eqb c (ascii_of_nat 13) || Ascii.eqb c (ascii_of_nat 0)).

Fixpoint plain_name (s : string) : bool :=
  match s with
  | EmptyString => true
  | String c rest => plain_char c && plain_name rest
  end.

(** The index [saveConfig] records for a drive, if it records one. *)
Definition saved_index (drive : nat) (dm : DiskManager) : option Z :=
  let i := default (-1) (loadedImageIndex dm !! drive) in
  if (i >=? 0) && (i <? totalImages dm) then Some i else None.


Section WithCard.
Context {Fs : Type} `{Backend Fs}.

(** Bind the drive to a recorded index; a drive recorded as NONE is left
    as it is. *)
Definition restore_binding (card : Fs) (drive : Z) (index : option Z)
    (dm : DiskManager) : DiskManager :=
  match index with
  | Some i => snd (loadImage card drive i dm)
  | None => dm
  end.


(** The byte a Status read returns: the stored status with the BUSY and
    DRQ bits of the moment. *)
Definition status_byte (s : FDCState) : Z :=
  Z.lor (Z.lor (status s) (if busy s then ST_BUSY else 0))
        (if drq s then ST_DRQ else 0).

(** The poll that finds chip-select asserted for a read of the register
    at address [2 * a1 + a0]. *)
Definition select_for_read (a1 a0 : Level) : BusSample :=
  {| WD_CS := LOW; WD_RW := HIGH; WD_A0 := a0; WD_A1 := a1;
     dataLines := [] |}.

End WithCard.

End MoreProps.

(* ===================================================================== *)
(** ** More cards and catalogs to run the firmware on *)
(* ===================================================================== *)

Module Cards.
Import Catalog Config Fdc Runs.

(** A flat image of 1024 bytes. *)
Definition flat_card : RamFs := card_with "FLAT.IMG" (replicate 1024 0).


(** [TINY.DSK] and [FLAT.IMG], in this order, and the catalog after the
    scan. *)
Definition images_card : RamFs := tiny_card ++ flat_card.

Definition scanned : DiskManager := scanImages images_card DiskManager_new.

(** Drive 0 bound to [FLAT.IMG] (index 1), drive 1 to [TINY.DSK]
    (index 0). *)
Definition both_bound : DiskManager :=
  scanned |> (fun dm => snd (loadImage images_card 0 1 dm))
          |> (fun dm => snd (loadImage images_card 1 0 dm)).

(** The same card with the configuration record [saveConfig] prints for
    [both_bound], and with a record that has no comma. *)
Definition configured_card : RamFs :=
  images_card ++
  card_with "lastimg.cfg" (bytes_of_string (config_text both_bound)).

Definition garbled_card : RamFs :=
  images_card ++ card_with "lastimg.cfg" (bytes_of_string "NONE").

(** The two header blocks of [TINY.DSK]. *)
Definition tiny_disk_block : list Z := take 256 (extended_dsk 2 2 0 0xE5).

Definition tiny_track_block : list Z :=
  take 256 (drop 256 (extended_dsk 2 2 0 0xE5)).

End Cards.

(* ===================================================================== *)
(** ** Facts about machine integers and strings *)
(* ===================================================================== *)

Module CIntFacts.

Lemma wrap8_u8 z : is_u8 (wrap8 z).
Proof. unfold is_u8, wrap8. apply Z.mod_pos_bound. lia. Qed.

Lemma wrap16_u16 z : is_u16 (wrap16 z).
Proof. unfold is_u16, wrap16. apply Z.mod_pos_bound. lia. Qed.

Lemma wrap32_u32 z : is_u32 (wrap32 z).
Proof. unfold is_u32, wrap32. apply Z.mod_pos_bound. lia. Qed.

Lemma wrap8_id z : is_u8 z -> wrap8 z = z.
Proof. unfold is_u8, wrap8. intros H. apply Z.mod_small. exact H. Qed.

Lemma wrap16_id z : is_u16 z -> wrap16 z = z.
Proof. unfold is_u16, wrap16. intros H. apply Z.mod_small. exact H. Qed.

Lemma wrap32_id z : is_u32 z -> wrap32 z = z.
Proof. unfold is_u32, wrap32. intros H. apply Z.mod_small. exact H. Qed.

End CIntFacts.
Import CIntFacts.

Module CStrFacts.







End CStrFacts.
Import CStrFacts.

(* ===================================================================== *)
(** ** The sector gateway's offsets *)
(* ===================================================================== *)

Module OffsetFacts.
Import Fdc Props Runs.

Lemma headered_offset_fits (H h spt ssz T S : Z) :
  is_u16 H -> is_u16 h -> is_u8 spt -> is_u16 ssz -> is_u8 T ->
  1 <= S < 256 ->
  0 <= spt * ssz <= 255 * 65535 /\
  0 <= T * (h + spt * ssz) <= 255 * (65535 + 255 * 65535) /\
  0 <= (S - 1) * ssz <= 254 * 65535.
Proof.
  unfold is_u16, is_u8. intros HH Hh Hspt Hssz HT HS.
  assert (A : 0 <= spt * ssz <= 255 * 65535).
  { split; [apply Z.mul_nonneg_nonneg; lia|].
    apply Z.mul_le_mono_nonneg; lia. }
  assert (B : 0 <= T * (h + spt * ssz) <= 255 * (65535 + 255 * 65535)).
  { split; [apply Z.mul_nonneg_nonneg; lia|].
    apply Z.mul_le_mono_nonneg; lia. }
  assert (C : 0 <= (S - 1) * ssz <= 254 * 65535).
  { split; [apply Z.mul_nonneg_nonneg; lia|].
    apply Z.mul_le_mono_nonneg; lia. }
  auto.
Qed.

Lemma extended_offsets_agree disk T S :
  writeSectorData_offset disk T S = readSectorData_offset disk T S.
Proof. reflexivity. Qed.

Lemma read_offset_headered disk T S :
  Img.well_typed disk -> Img.isExtendedDSK disk = true ->
  is_u8 T -> 1 <= S < 256 ->
  readSectorData_offset disk T S =
  headered_offset (Img.headerOffset disk) (Img.trackHeaderSize disk)
    (Img.sectorsPerTrack disk) (Img.sectorSize disk) T S.
Proof.
  intros [_ _ Hspt Hssz HH Hh] Hext HT HS.
  destruct (headered_offset_fits _ _ _ _ _ _ HH Hh Hspt Hssz HT HS)
    as (A & B & C).
  unfold readSectorData_offset, headered_offset. rewrite Hext.
  cbv zeta. unfold is_u16, is_u8 in *.
  rewrite (wrap32_id (Img.trackHeaderSize disk + _))
    by (unfold is_u32; lia).
  rewrite (wrap32_id (T * _)) by (unfold is_u32; lia).
  apply wrap32_id. unfold is_u32. lia.
Qed.

Lemma cpc_extended_well_typed : Img.well_typed cpc_extended.
Proof. split; unfold is_u8, is_u16, is_u32; simpl; lia. Qed.

(** C4, as stated, fails in its worked value: with H = h = 256, spt = 9
    and ssz = 512 the formula itself, and both gateway functions, give
    16640 for (T, S) = (3, 4), not 15680 (3 * (256 + 9 * 512) is 14592,
    not 13632). *)
Lemma C4_counterexample :
  headered_offset 256 256 9 512 3 4 = 16640 /\
  readSectorData_offset cpc_extended 3 4 = 16640 /\
  writeSectorData_offset cpc_extended 3 4 = 16640 /\
  readSectorData_offset cpc_extended 3 4 <> 15680 /\
  writeSectorData_offset cpc_extended 3 4 <> 15680.
Proof. repeat split; try reflexivity; discriminate. Qed.

(** C4, amended. For a headered (Extended DSK) image whose descriptor
    fields hold values of their C types, and for every track T in 0..255
    and sector S in 1..255, both [readSectorData] and [writeSectorData]
    use the byte offset H + T * (h + spt * ssz) + h + (S - 1) * ssz,
    without wrap-around; with H = h = 256, spt = 9 and ssz = 512 the
    offset of (3, 4) is 16640. *)
Theorem C4_headered_offset disk T S :
  Img.well_typed disk -> Img.isExtendedDSK disk = true ->
  is_u8 T -> 1 <= S < 256 ->
  let formula :=
    headered_offset (Img.headerOffset disk) (Img.trackHeaderSize disk)
      (Img.sectorsPerTrack disk) (Img.sectorSize disk) in
  readSectorData_offset disk T S = formula T S /\
  writeSectorData_offset disk T S = formula T S /\
  (Img.headerOffset disk = 256 -> Img.trackHeaderSize disk = 256 ->
   Img.sectorsPerTrack disk = 9 -> Img.sectorSize disk = 512 ->
   readSectorData_offset disk 3 4 = 16640 /\
   writeSectorData_offset disk 3 4 = 16640).
Proof.
  intros Hwt Hext HT HS formula. subst formula.
  split; [|split].
  - apply read_offset_headered; assumption.
  - rewrite extended_offsets_agree. apply read_offset_headered; assumption.
  - intros EH Eh Espt Essz.
    assert (E : readSectorData_offset disk 3 4 = 16640).
    { rewrite read_offset_headered; try assumption.
      - rewrite EH, Eh, Espt, Essz. reflexivity.
      - unfold is_u8; lia.
      - lia. }
    split; [exact E | rewrite extended_offsets_agree; exact E].
Qed.

(** The theorem on the descriptor [cpc_extended]. *)
Lemma C4_headered_offset_witness :
  readSectorData_offset cpc_extended 3 4 = 16640 /\
  writeSectorData_offset cpc_extended 3 4 = 16640.
Proof.
  destruct (C4_headered_offset cpc_extended 3 4) as (_ & _ & K).
  - split; unfold is_u8, is_u16, is_u32; simpl; lia.
  - reflexivity.
  - unfold is_u8; lia.
  - lia.
  - apply K; reflexivity.
Defined.

End OffsetFacts.

(* ===================================================================== *)
(** ** The catalog scan *)
(* ===================================================================== *)

Module CatalogFacts.
Import Catalog Props Runs.









End CatalogFacts.

(* ===================================================================== *)
(** ** Drive select *)
(* ===================================================================== *)

Module SelectFacts.
Import Fdc Props Runs.

(** C8, as stated, fails: with DS0 low (asserted) and DS1 high, the
    firmware selects drive 1 where the rule selects drive 0. *)
Lemma C8_counterexample :
  activeDrive (checkDriveSelect LOW HIGH (power_up (Fs := RamFs))) = 1 /\
  spec_activeDrive LOW HIGH (activeDrive (power_up (Fs := RamFs))) = 0.
Proof. split; reflexivity. Qed.

(** C8, amended. At each poll the firmware reads the two drive-select
    inputs as active-high: the active drive becomes 0 when DS0 reads HIGH,
    else 1 when DS1 reads HIGH, and otherwise keeps its previous value;
    nothing else of the device changes. *)
Theorem C8_drive_select {Fs : Type} `{Backend Fs} (ds0 ds1 : Level)
    (d : FdcDevice Fs) :
  checkDriveSelect ds0 ds1 d =
    set_activeDrive
      (if is_high ds0 then 0 else if is_high ds1 then 1 else activeDrive d)
      d /\
  activeDrive (checkDriveSelect ds0 ds1 d) =
    match ds0, ds1 with
    | HIGH, _ => 0
    | LOW, HIGH => 1
    | LOW, LOW => activeDrive d
    end.
Proof.
  unfold checkDriveSelect.
  destruct ds0, ds1; simpl; split; try reflexivity; destruct d; reflexivity.
Qed.

End SelectFacts.

(* ===================================================================== *)
(** ** The controller engine *)
(* ===================================================================== *)

Module EngineFacts.
Import Fdc Props.

#[local] Arguments Catalog.getDisk : simpl never.
#[local] Arguments readSectorData_offset : simpl never.
#[local] Arguments writeSectorData_offset : simpl never.
#[local] Arguments image_path : simpl never.
#[local] Arguments wrap8 : simpl never.
#[local] Arguments wrap16 : simpl never.
#[local] Arguments wrap32 : simpl never.
#[local] Arguments read_into_buffer : simpl never.

Section WithCard.
Context {Fs : Type} `{Backend Fs}.
Implicit Types (d : FdcDevice Fs) (s : FDCState).

Lemma state_is_eq a b : state_is a b = true -> a = b.
Proof.
  unfold state_is. intros E. apply Z.eqb_eq in E.
  destruct a, b; cbn [state_code] in E; try reflexivity; try lia.
  f_equal. lia.
Qed.

(** A store past the end of the buffer leaves the members declared
    before that end as they are. *)
Lemma store_past_buffer_front j v s :
  let s' := store_past_buffer j v s in
  status s' = status s /\ track s' = track s /\ sector s' = sector s /\
  data s' = data s /\ command s' = command s /\
  currentTrack s' = currentTrack s /\ direction s' = direction s /\
  busy s' = busy s /\ drq s' = drq s /\ intrq s' = intrq s /\
  dataIndex s' = dataIndex s /\ dataLength s' = dataLength s /\
  sectorBuffer s' = sectorBuffer s.
Proof.
  unfold store_past_buffer.
  repeat match goal with
  | |- context [if ?b then _ else _] => destruct b
  end; cbv zeta; repeat split.
Qed.

Lemma store_run_past_buffer_front bytes : forall j s,
  let s' := store_run_past_buffer j bytes s in
  status s' = status s /\ track s' = track s /\ sector s' = sector s /\
  data s' = data s /\ command s' = command s /\
  currentTrack s' = currentTrack s /\ direction s' = direction s /\
  busy s' = busy s /\ drq s' = drq s /\ intrq s' = intrq s /\
  dataIndex s' = dataIndex s /\ dataLength s' = dataLength s /\
  sectorBuffer s' = sectorBuffer s.
Proof.
  induction bytes as [|v bytes IH]; intros j s; [cbv zeta; repeat split|].
  cbn [store_run_past_buffer]. cbv zeta.
  pose proof (IH (j + 1) (store_past_buffer j v s)) as A.
  pose proof (store_past_buffer_front j v s) as B.
  cbv zeta in A, B. intuition congruence.
Qed.

Lemma store_byte_inside i v s :
  Z.of_nat i < BUFFER_SIZE ->
  store_byte i v s = set_sectorBuffer (<[i := v]> (sectorBuffer s)) s.
Proof.
  intros Hi. unfold store_byte.
  destruct (Z.ltb_spec (Z.of_nat i) BUFFER_SIZE); [reflexivity|lia].
Qed.


(** What a delivery of at most [BUFFER_SIZE] bytes does, and what any
    delivery leaves alone. *)
Lemma read_into_buffer_fits bytes d :
  Z.of_nat (length bytes) <= BUFFER_SIZE ->
  read_into_buffer bytes d =
  on_fdc (fun s =>
    set_sectorBuffer
      (take (Z.to_nat BUFFER_SIZE)
            (bytes ++ drop (length bytes) (sectorBuffer s))) s) d
  |> mark_overrun false.
Proof.
  intros Hlen. unfold read_into_buffer.
  rewrite drop_ge by (unfold BUFFER_SIZE in *; lia).
  destruct (Z.gtb_spec (Z.of_nat (length bytes)) BUFFER_SIZE); [lia|].
  destruct d; reflexivity.
Qed.

Lemma read_into_buffer_front bytes d :
  let d' := read_into_buffer bytes d in
  let s := fdc d in
  let s' := fdc d' in
  (status s' = status s /\ track s' = track s /\ sector s' = sector s /\
   data s' = data s /\ command s' = command s /\
   currentTrack s' = currentTrack s /\ direction s' = direction s /\
   busy s' = busy s /\ drq s' = drq s /\ intrq s' = intrq s /\
   dataIndex s' = dataIndex s /\ dataLength s' = dataLength s) /\
  diskManager d' = diskManager d /\ sd d' = sd d /\
  activeDrive d' = activeDrive d /\ ioLog d' = ioLog d /\
  lastCS d' = lastCS d.
Proof.
  unfold read_into_buffer. cbv zeta.
  destruct d as [s dm card ad lcs lrw dbd dvu pm po ip dp io ov].
  cbn [on_fdc mark_overrun fdc diskManager sd activeDrive ioLog lastCS].
  split; [|repeat split].
  match goal with
  | |- context [store_run_past_buffer ?j ?b ?x] =>
      pose proof (store_run_past_buffer_front b j x) as A
  end.
  cbv zeta in A. cbn [set_sectorBuffer status track sector data command
    currentTrack direction busy drq intrq dataIndex dataLength] in A.
  intuition.
Qed.

Lemma getDisk_usable dm drive disk :
  catalog_usable (Some dm) = true ->
  Catalog.getDisk drive dm = Some disk ->
  Img.size disk = 0 \/ 0 < Img.sectorSize disk <= BUFFER_SIZE.
Proof.
  simpl. intros Hall Hget. unfold Catalog.getDisk in Hget.
  destruct (drive >=? Catalog.MAX_DRIVES); [discriminate|].
  rewrite forallb_forall in Hall.
  assert (Hin : In disk (Catalog.disks dm)).
  { apply list_elem_of_In. eapply list_elem_of_lookup_2. exact Hget. }
  specialize (Hall disk Hin). unfold disk_usable in Hall.
  apply orb_true_iff in Hall. destruct Hall as [E|E]; [left|right]; lia.
Qed.

Ltac split_ifs :=
  repeat match goal with
  | |- context [if ?b then _ else _] => destruct b eqn:?; simpl
  | |- context [match ?x with _ => _ end] => destruct x eqn:?; simpl
  end.

Ltac reflect_tests :=
  repeat match goal with
  | E : _ && _ = true |- _ => apply andb_true_iff in E; destruct E
  | E : state_is _ _ = true |- _ => apply state_is_eq in E
  | E : (_ <? _) = true |- _ => apply Z.ltb_lt in E
  | E : (_ <? _) = false |- _ => apply Z.ltb_ge in E
  | E : (_ >=? _) = true |- _ => apply Z.geb_le in E
  | E : (_ >=? _) = false |- _ => rewrite Z.geb_leb in E; apply Z.leb_gt in E
  | E : (_ =? _) = true |- _ => apply Z.eqb_eq in E
  | E : (_ =? _) = false |- _ => apply Z.eqb_neq in E
  | E : negb _ = false |- _ => apply negb_false_iff in E
  | E : negb _ = true |- _ => apply negb_true_iff in E
  end.

Ltac close_inv :=
  unfold BUFFER_SIZE in *;
  match goal with
  | |- context [wrap16 ?x] => pose proof (wrap16_u16 x) as ?B; unfold is_u16 in B
  | _ => idtac
  end;
  intuition (try congruence; try lia).

Lemma handleRead_inv addr now d :
  fdc_inv (fdc d) -> fdc_inv (fdc (handleRead addr now d)).
Proof.
  unfold fdc_inv, handleRead. intros (I1 & I2 & I3 & I4 & I5).
  destruct d as [s dm card ad lcs lrw dbd dvu pm po ip dp io ov]; simpl in *.
  split_ifs; reflect_tests; close_inv.
Qed.

Lemma record_not_found_inv d :
  device_inv d -> drq (fdc d) = false ->
  device_inv (on_fdc record_not_found d).
Proof.
  unfold device_inv, fdc_inv. intros ((I1 & I2 & I3 & I4 & I5) & Hdm) Hdrq.
  destruct d as [s dm card ad lcs lrw dbd dvu pm po ip dp io ov]; simpl in *.
  close_inv.
Qed.

Lemma readSectorData_inv d :
  device_inv d -> drq (fdc d) = false -> busy (fdc d) = true ->
  device_inv (readSectorData d).
Proof.
  intros Hinv Hdrq Hbusy. unfold readSectorData.
  destruct (diskManager d) as [dm|] eqn:Edm; [|exact Hinv].
  destruct (sd d) as [card|] eqn:Esd; [|exact Hinv].
  destruct (Catalog.getDisk (activeDrive d) dm) as [disk|] eqn:Hget;
    [|apply record_not_found_inv; assumption].
  assert (Hok : Img.size disk = 0 \/ 0 < Img.sectorSize disk <= BUFFER_SIZE).
  { destruct Hinv as (_ & Hdm). rewrite Edm in Hdm.
    exact (getDisk_usable dm (activeDrive d) disk Hdm Hget). }
  destruct (Img.size disk =? 0) eqn:Hsize;
    [apply record_not_found_inv; assumption|].
  destruct ((sector (fdc d) <? 1) ||
            (sector (fdc d) >? Img.sectorsPerTrack disk));
    [apply record_not_found_inv; assumption|].
  cbv zeta.
  set (d1 := log_io _ d).
  assert (Hinv1 : device_inv d1) by (destruct d; exact Hinv).
  assert (Hdrq1 : drq (fdc d1) = false) by (destruct d; exact Hdrq).
  assert (Hbusy1 : busy (fdc d1) = true) by (destruct d; exact Hbusy).
  destruct (fs_read card _ _ _) as [delivered|];
    [|apply record_not_found_inv; assumption].
  set (bytes := take (Z.to_nat (Img.sectorSize disk)) delivered).
  destruct (read_into_buffer_front bytes d1)
    as ((_ & _ & _ & _ & _ & _ & _ & Eb & Eq & _ & Ei & El) & Em & _).
  cbv zeta in Eb, Eq, Ei, El, Em.
  set (d2 := read_into_buffer bytes d1) in *.
  destruct Hinv1 as ((I1 & I2 & I3 & I4 & I5) & Hdm1).
  destruct (negb (Z.of_nat (length bytes) =? Img.sectorSize disk)).
  - split; [|destruct d2; simpl in *; rewrite Em; exact Hdm1].
    unfold fdc_inv. destruct d2 as [s2]; simpl in *.
    rewrite Eq, Ei, El, Hdrq1. intuition (try congruence; try lia).
  - split; [|destruct d2; simpl in *; rewrite Em; exact Hdm1].
    unfold fdc_inv. destruct d2 as [s2]; simpl in *.
    rewrite Eb, Hbusy1. apply Z.eqb_neq in Hsize.
    intuition (try congruence; try lia).
Qed.

Lemma writeSectorData_inv d :
  device_inv d -> drq (fdc d) = false -> busy (fdc d) = true ->
  0 < dataLength (fdc d) ->
  device_inv (writeSectorData d).
Proof.
  unfold device_inv, fdc_inv, writeSectorData.
  intros ((I1 & I2 & I3 & I4 & I5) & Hdm) Hdrq Hbusy Hlen.
  destruct d as [s dm card ad lcs lrw dbd dvu pm po ip dp io ov]; simpl in *.
  split_ifs; reflect_tests; close_inv.
Qed.

Lemma cmdReadSector_inv now d :
  device_inv d -> drq (fdc d) = false -> device_inv (cmdReadSector now d).
Proof.
  intros Hinv Hdrq. unfold cmdReadSector.
  destruct (diskManager d) as [dm|] eqn:Hdm.
  2:{ destruct Hinv as ((I1 & I2 & I3 & I4 & I5) & Hok). split; [|exact Hok].
      destruct d as [s]; unfold fdc_inv; simpl in *. close_inv. }
  destruct (Catalog.getDisk (activeDrive d) dm) as [disk|] eqn:Hget.
  2:{ destruct Hinv as ((I1 & I2 & I3 & I4 & I5) & Hok). split; [|exact Hok].
      destruct d as [s]; unfold fdc_inv; simpl in *. close_inv. }
  destruct (Img.size disk =? 0).
  { destruct Hinv as ((I1 & I2 & I3 & I4 & I5) & Hok). split; [|exact Hok].
    destruct d as [s]; unfold fdc_inv; simpl in *. close_inv. }
  apply readSectorData_inv; [| destruct d; exact Hdrq | destruct d; reflexivity].
  destruct Hinv as ((I1 & I2 & I3 & I4 & I5) & Hok). split; [|destruct d; exact Hok].
  destruct d as [s]; unfold fdc_inv; simpl in *. close_inv.
Qed.

Lemma cmdWriteSector_inv now d :
  device_inv d -> drq (fdc d) = false -> device_inv (cmdWriteSector now d).
Proof.
  unfold device_inv, fdc_inv, cmdWriteSector.
  intros ((I1 & I2 & I3 & I4 & I5) & Hdm) Hdrq.
  destruct d as [s dm card ad lcs lrw dbd dvu pm po ip dp io ov]; simpl in *.
  destruct dm as [dm|]; simpl; [|close_inv].
  destruct (Catalog.getDisk ad dm) as [disk|] eqn:Hget; simpl; [|close_inv].
  pose proof (getDisk_usable dm ad disk Hdm Hget) as Hok.
  split_ifs; reflect_tests; close_inv.
Qed.

(** A command is dispatched by a polite host: the controller is not
    busy, or the command is FORCE INTERRUPT. *)
Lemma dispatch_inv now d :
  device_inv d ->
  busy (fdc d) = false \/ Z.land (command (fdc d)) 0xF0 = CMD_FORCE_INT ->
  device_inv (dispatch now d).
Proof.
  intros Hinv.
  assert (Hforce : device_inv (on_fdc cmdForceInterrupt d)).
  { destruct Hinv as ((I1 & I2 & I3 & I4 & I5) & Hok).
    split; [|destruct d; exact Hok].
    destruct d as [s]; unfold fdc_inv; simpl in *. close_inv. }
  intros Hpol. destruct Hpol as [Hidle|Hcmd].
  - assert (Hdrq : drq (fdc d) = false).
    { destruct Hinv as ((I1 & I2 & _) & _).
      destruct (drq (fdc d)); [|reflexivity].
      destruct (I1 eq_refl) as [[E|E] _]; rewrite (I2 Hidle) in E;
        discriminate E. }
    unfold dispatch. split_ifs;
      try (apply cmdReadSector_inv; assumption);
      try (apply cmdWriteSector_inv; assumption);
      try exact Hforce; try exact Hinv.
    all: destruct Hinv as ((I1 & I2 & I3 & I4 & I5) & Hok);
      (split; [|destruct d; exact Hok]);
      destruct d as [s]; unfold fdc_inv; simpl in *; close_inv.
  - unfold dispatch. rewrite Hcmd.
    replace (Z.land (command (fdc d)) 0xE0) with 0xC0.
    + exact Hforce.
    + change 0xE0 with (Z.land 0xF0 0xE0). rewrite Z.land_assoc, Hcmd.
      reflexivity.
Qed.

Lemma handleWrite_inv addr now d :
  device_inv d ->
  (addr = 0 ->
   busy (fdc d) = false \/ Z.land (data (fdc d)) 0xF0 = CMD_FORCE_INT) ->
  device_inv (handleWrite addr now d).
Proof.
  intros Hinv Hpol. unfold handleWrite.
  destruct (addr =? 0) eqn:E0.
  { apply Z.eqb_eq in E0. specialize (Hpol E0).
    apply dispatch_inv.
    - destruct Hinv as ((I1 & I2 & I3 & I4 & I5) & Hok).
      split; [|destruct d; exact Hok].
      destruct d as [s]; unfold fdc_inv; simpl in *. close_inv.
    - destruct d as [s]; simpl in *. exact Hpol. }
  clear Hpol. pose proof Hinv as ((I1 & I2 & I3 & I4 & I5) & Hok).
  destruct (addr =? 1).
  { split; [|destruct d; exact Hok].
    destruct d as [s]; unfold fdc_inv; simpl in *. close_inv. }
  destruct (addr =? 2).
  { split; [|destruct d; exact Hok].
    destruct d as [s]; unfold fdc_inv; simpl in *. close_inv. }
  destruct (addr =? 3); [|exact Hinv].
  destruct (state_is (state (fdc d)) STATE_WAITING_FOR_DATA_IN &&
            (dataIndex (fdc d) <? dataLength (fdc d))) eqn:Hw;
    [|exact Hinv].
  reflect_tests.
  assert (Hbusy : busy (fdc d) = true).
  { destruct (busy (fdc d)); [reflexivity|].
    rewrite (I2 eq_refl) in *. discriminate. }
  assert (Hin : Z.of_nat (Z.to_nat (dataIndex (fdc d))) < BUFFER_SIZE)
    by lia.
  cbv zeta.
  destruct d as [s dm card ad lcs lrw dbd dvu pm po ip dp io ov].
  cbn [mark_overrun on_fdc fdc] in *.
  match goal with
  | |- context [if ?b then _ else _] => destruct b eqn:Hfull
  end.
  - apply writeSectorData_inv.
    + split; [|exact Hok].
      unfold fdc_inv; simpl in *.
      rewrite !(store_byte_inside _ _ _ Hin) in *. simpl in *. close_inv.
    + reflexivity.
    + simpl in *. rewrite !(store_byte_inside _ _ _ Hin). exact Hbusy.
    + simpl in *. rewrite !(store_byte_inside _ _ _ Hin) in *.
      simpl in *. lia.
  - split; [|exact Hok].
    unfold fdc_inv; simpl in *.
    rewrite !(store_byte_inside _ _ _ Hin) in *. simpl in *.
    reflect_tests. close_inv.
Qed.

Lemma processStateMachine_inv now d :
  device_inv d -> device_inv (processStateMachine now d).
Proof.
  intros Hinv. pose proof Hinv as ((I1 & I2 & I3 & I4 & I5) & Hok).
  unfold processStateMachine.
  destruct (state (fdc d)) eqn:Hst; try exact Hinv.
  - (* SEEKING *)
    assert (Hdrq : drq (fdc d) = false).
    { destruct (drq (fdc d)); [|reflexivity].
      destruct (I1 eq_refl) as [[E|E] _]; discriminate E. }
    split_ifs; try exact Hinv.
    all: split; [|destruct d; exact Hok].
    all: destruct d as [s]; unfold fdc_inv, update_track, seek_done;
      simpl in *; split_ifs; close_inv.
  - (* SECTOR_READ_COMPLETE *)
    assert (Hdrq : drq (fdc d) = false).
    { destruct (drq (fdc d)); [|reflexivity].
      destruct (I1 eq_refl) as [[E|E] _]; discriminate E. }
    assert (Hbusy : busy (fdc d) = true).
    { destruct (busy (fdc d)); [reflexivity|].
      specialize (I2 eq_refl). discriminate I2. }
    destruct (multiSector (fdc d) && (sectorsRemaining (fdc d) >? 1)).
    + apply readSectorData_inv.
      * split; [|destruct d; exact Hok].
        destruct d as [s]; unfold fdc_inv; simpl in *. close_inv.
      * destruct d as [s]; simpl in *. exact Hdrq.
      * destruct d as [s]; simpl in *. exact Hbusy.
    + split; [|destruct d; exact Hok].
      destruct d as [s]; unfold fdc_inv; simpl in *. close_inv.
  - (* SECTOR_WRITE_COMPLETE *)
    specialize (I4 eq_refl).
    destruct (multiSector (fdc d) && (sectorsRemaining (fdc d) >? 1)).
    all: split; [|destruct d; exact Hok].
    all: destruct d as [s]; unfold fdc_inv; simpl in *; close_inv.
Qed.

Lemma handleBus_inv p now d :
  device_inv d -> polite (EvBus p now) d = true ->
  device_inv (handleBus p now d).
Proof.
  intros Hinv Hpol. unfold handleBus.
  set (addr := Z.lor (Z.shiftl (level_bit (WD_A1 p)) 1) (level_bit (WD_A0 p))).
  assert (Hframe : forall d' cs rw,
    device_inv d' ->
    device_inv (set_last cs rw
      (if lastCS d' && negb (is_low (WD_CS p))
       then if dataBusDriven d' && (now >? dataValidUntil d')
            then releaseDataBus d' else d'
       else d'))).
  { intros d' cs rw (Hf & Hok). split_ifs; split; destruct d'; assumption. }
  apply Hframe.
  destruct (negb (lastCS d) && is_low (WD_CS p)) eqn:Hedge; [|exact Hinv].
  destruct (is_high (WD_RW p)) eqn:Hrw.
  - destruct Hinv as (Hf & Hok). split.
    + apply handleRead_inv. exact Hf.
    + unfold handleRead. split_ifs; destruct d; exact Hok.
  - simpl. apply handleWrite_inv.
    + destruct Hinv as ((I1 & I2 & I3 & I4 & I5) & Hok).
      split; [|destruct d; exact Hok].
      destruct d as [s]; unfold fdc_inv; simpl in *. close_inv.
    + intros Haddr. simpl in Hpol. unfold command_write in Hpol.
      fold addr in Hpol. rewrite Hedge, Hrw, Haddr in Hpol. simpl in Hpol.
      apply orb_true_iff in Hpol. destruct Hpol as [E|E].
      * left. apply negb_true_iff in E. destruct d as [s]; exact E.
      * right. apply Z.eqb_eq in E. destruct d as [s]; exact E.
Qed.

Lemma step_inv e d :
  device_inv d -> polite e d = true -> device_inv (step e d).
Proof.
  intros Hinv Hpol. destruct e as [p now|now|ds0 ds1| | |dm|card]; simpl.
  - apply handleBus_inv; assumption.
  - apply processStateMachine_inv; assumption.
  - destruct Hinv as (Hf & Hok). unfold checkDriveSelect.
    split_ifs; split; destruct d; assumption.
  - destruct Hinv as (Hf & Hok). split; destruct d; assumption.
  - destruct Hinv as (Hf & Hok). unfold disable.
    split_ifs; split; destruct d; assumption.
  - destruct Hinv as (Hf & Hok). split; destruct d; [exact Hf | exact Hpol].
  - destruct Hinv as (Hf & Hok). split; destruct d; assumption.
Qed.

Lemma power_up_inv : device_inv (power_up (Fs := Fs)).
Proof. split; [|reflexivity]. unfold fdc_inv; simpl. intuition (try discriminate; lia). Qed.

Lemma run_inv evs d :
  device_inv d -> polite_run evs d = true -> device_inv (run evs d).
Proof.
  revert d. induction evs as [|e evs IH]; intros d Hinv Hpol; simpl in *.
  - exact Hinv.
  - apply andb_true_iff in Hpol. destruct Hpol as [He Hrest].
    apply IH; [apply step_inv; assumption | exact Hrest].
Qed.

(** No access goes past the end of the staging buffer while the
    transfers are no longer than the buffer and the bound images have
    sectors that fit it. *)
Ltac no_mark :=
  unfold BUFFER_SIZE in *;
  repeat match goal with
  | |- context [?a >=? ?b] =>
      destruct (Z.geb_spec a b); [try lia|]
  | |- context [?a >? ?b] =>
      destruct (Z.gtb_spec a b); [try lia|]
  end;
  rewrite ?orb_false_r; try reflexivity.

Lemma handleRead_overrun addr now d :
  dataLength (fdc d) <= BUFFER_SIZE ->
  overrun (handleRead addr now d) = overrun d.
Proof.
  intros Hlen.
  destruct d as [s dm card ad lcs lrw dbd dvu pm po ip dp io ov].
  unfold handleRead, driveDataBus; simpl in *.
  split_ifs; reflect_tests; no_mark.
Qed.

Lemma read_into_buffer_overrun bytes d :
  overrun (read_into_buffer bytes d) =
  overrun d || (Z.of_nat (length bytes) >? BUFFER_SIZE).
Proof. destruct d. reflexivity. Qed.

Lemma readSectorData_overrun d :
  catalog_usable (diskManager d) = true ->
  overrun (readSectorData d) = overrun d.
Proof.
  intros Hok. unfold readSectorData.
  destruct (diskManager d) as [dm|] eqn:Edm; [|reflexivity].
  destruct (sd d) as [card|] eqn:Esd; [|reflexivity].
  destruct (Catalog.getDisk (activeDrive d) dm) as [disk|] eqn:Hget;
    [|destruct d; reflexivity].
  pose proof (getDisk_usable dm (activeDrive d) disk Hok Hget) as Hfit.
  destruct (Z.eqb_spec (Img.size disk) 0) as [Hsize|Hsize];
    [destruct d; reflexivity|].
  destruct Hfit as [Hfit|Hfit]; [contradiction|].
  destruct ((sector (fdc d) <? 1) ||
            (sector (fdc d) >? Img.sectorsPerTrack disk));
    [destruct d; reflexivity|].
  cbv zeta.
  destruct (fs_read card _ _ _) as [delivered|]; [|destruct d; reflexivity].
  set (bytes := take (Z.to_nat (Img.sectorSize disk)) delivered).
  assert (Hlen : Z.of_nat (length bytes) <= BUFFER_SIZE).
  { unfold bytes. rewrite length_take. lia. }
  assert (E : overrun (read_into_buffer bytes
                (log_io (IoRead (image_path disk)
                   (readSectorData_offset disk (currentTrack (fdc d))
                      (sector (fdc d))) (Img.sectorSize disk)) d)) =
              overrun d).
  { rewrite read_into_buffer_overrun.
    destruct (Z.gtb_spec (Z.of_nat (length bytes)) BUFFER_SIZE); [lia|].
    destruct d; simpl. apply orb_false_r. }
  destruct (negb (Z.of_nat (length bytes) =? Img.sectorSize disk));
    rewrite <- E;
    match goal with
    | |- overrun (on_fdc _ ?x) = _ => destruct x; reflexivity
    end.
Qed.

Lemma writeSectorData_overrun d :
  catalog_usable (diskManager d) = true ->
  overrun (writeSectorData d) = overrun d.
Proof.
  intros Hok. unfold writeSectorData.
  destruct (diskManager d) as [dm|] eqn:Edm; [|reflexivity].
  destruct (sd d) as [card|] eqn:Esd; [|reflexivity].
  destruct (Catalog.getDisk (activeDrive d) dm) as [disk|] eqn:Hget;
    [|destruct d; reflexivity].
  pose proof (getDisk_usable dm (activeDrive d) disk Hok Hget) as Hfit.
  destruct (Z.eqb_spec (Img.size disk) 0) as [Hsize|Hsize];
    [destruct d; reflexivity|].
  destruct Hfit as [Hfit|Hfit]; [contradiction|].
  cbv zeta.
  destruct (fs_write card _ _ _) as [card'|]; [|destruct d; reflexivity].
  destruct d; simpl. no_mark.
Qed.

Lemma dispatch_overrun now d :
  catalog_usable (diskManager d) = true ->
  overrun (dispatch now d) = overrun d.
Proof.
  intros Hok. unfold dispatch. cbv zeta.
  repeat match goal with
  | |- context [if ?b then _ else _] => destruct b
  end; try (destruct d; reflexivity).
  - unfold cmdReadSector. cbv zeta.
    destruct (diskManager d) as [dm|] eqn:Edm; [|destruct d; reflexivity].
    destruct (Catalog.getDisk (activeDrive d) dm); [|destruct d; reflexivity].
    destruct (Img.size _ =? 0); [destruct d; reflexivity|].
    rewrite readSectorData_overrun; [destruct d; reflexivity|].
    destruct d; simpl in *. rewrite Edm. exact Hok.
  - unfold cmdWriteSector. cbv zeta.
    destruct (diskManager d) as [dm|]; [|destruct d; reflexivity].
    destruct (Catalog.getDisk (activeDrive d) dm); [|destruct d; reflexivity].
    destruct (Img.size _ =? 0); [destruct d; reflexivity|].
    destruct (Img.writeProtected _); destruct d; reflexivity.
Qed.

Lemma handleWrite_overrun addr now d :
  catalog_usable (diskManager d) = true ->
  dataLength (fdc d) <= BUFFER_SIZE ->
  overrun (handleWrite addr now d) = overrun d.
Proof.
  intros Hok Hlen. unfold handleWrite. cbv zeta.
  destruct (addr =? 0).
  { rewrite dispatch_overrun; destruct d; [reflexivity|exact Hok]. }
  destruct (addr =? 1); [destruct d; reflexivity|].
  destruct (addr =? 2); [destruct d; reflexivity|].
  destruct (addr =? 3); [|reflexivity].
  destruct (state_is (state (fdc d)) STATE_WAITING_FOR_DATA_IN &&
            (dataIndex (fdc d) <? dataLength (fdc d))) eqn:Hgo;
    [|reflexivity].
  reflect_tests.
  assert (E : overrun (mark_overrun (dataIndex (fdc d) >=? BUFFER_SIZE) d) =
              overrun d).
  { destruct d; simpl in *. no_mark. }
  match goal with
  | |- context [if ?b then _ else _] => destruct b
  end.
  - rewrite writeSectorData_overrun;
      destruct d; simpl in *; [exact E|exact Hok].
  - destruct d; simpl in *. exact E.
Qed.

Lemma processStateMachine_overrun now d :
  catalog_usable (diskManager d) = true ->
  overrun (processStateMachine now d) = overrun d.
Proof.
  intros Hok. unfold processStateMachine. cbv zeta.
  destruct (state (fdc d)); try reflexivity.
  - split_ifs; destruct d; reflexivity.
  - destruct (multiSector (fdc d) && (sectorsRemaining (fdc d) >? 1));
      [|destruct d; reflexivity].
    rewrite readSectorData_overrun; destruct d; [reflexivity|exact Hok].
  - split_ifs; destruct d; reflexivity.
Qed.

Lemma handleBus_overrun p now d :
  device_inv d -> overrun (handleBus p now d) = overrun d.
Proof.
  intros ((_ & _ & _ & _ & Hlen) & Hok). unfold handleBus. cbv zeta.
  match goal with
  | |- overrun (set_last ?a ?b ?x) = _ => change (overrun x = overrun d)
  end.
  match goal with
  | |- overrun (if ?c then (if ?c2 then releaseDataBus ?x else ?x)
                else ?x) = _ =>
      assert (Hx : overrun x = overrun d);
      [|destruct c; [destruct c2|]; exact Hx]
  end.
  destruct (negb (lastCS d) && is_low (WD_CS p)); [|reflexivity].
  destruct (is_high (WD_RW p)); [apply handleRead_overrun; exact Hlen|].
  unfold readDataBus. cbv zeta iota beta.
  rewrite handleWrite_overrun; destruct d; try reflexivity; assumption.
Qed.

Lemma step_overrun (e : Event Fs) d :
  device_inv d -> overrun (step e d) = overrun d.
Proof.
  intros Hinv. destruct e as [p now|now|ds0 ds1| | |dm|card]; simpl.
  - apply handleBus_overrun. exact Hinv.
  - apply processStateMachine_overrun. exact (proj2 Hinv).
  - unfold checkDriveSelect. split_ifs; reflexivity.
  - reflexivity.
  - unfold disable. split_ifs; reflexivity.
  - reflexivity.
  - reflexivity.
Qed.

Lemma run_overrun evs : forall d,
  device_inv d -> polite_run evs d = true ->
  overrun (run evs d) = overrun d.
Proof.
  induction evs as [|e evs IH]; intros d Hinv Hpol; [reflexivity|].
  simpl in Hpol. apply andb_true_iff in Hpol. destruct Hpol as [He Hrest].
  cbn [run]. rewrite IH; [|apply step_inv; assumption|exact Hrest].
  apply step_overrun. exact Hinv.
Qed.

Lemma handleWrite_core addr now d1 d2 :
  core d1 = core d2 ->
  core (handleWrite addr now d1) = core (handleWrite addr now d2).
Proof.
  destruct d1, d2. unfold core. simpl. intros E. inversion E; subst; clear E.
  unfold handleWrite, dispatch, cmdReadSector, cmdWriteSector,
    readSectorData, writeSectorData.
  simpl. split_ifs; reflexivity.
Qed.

Lemma released_core d rw now :
  core (handleBus (released rw) now d) = core d /\
  lastCS (handleBus (released rw) now d) = false.
Proof.
  unfold handleBus. simpl. rewrite andb_false_r.
  split_ifs; destruct d; split; reflexivity.
Qed.

Lemma select_write d a1 a0 l now :
  lastCS d = false ->
  let p := {| WD_CS := LOW; WD_RW := LOW; WD_A0 := a0; WD_A1 := a1;
              dataLines := l |} in
  core (handleBus p now d) =
    core (handleWrite (reg_addr a1 a0) now
            (on_fdc (set_data (bus_value l)) d)) /\
  lastCS (handleBus p now d) = true.
Proof.
  intros Hcs p. unfold handleBus. rewrite Hcs. simpl.
  rewrite andb_false_r. split; [|destruct d; reflexivity].
  change (Z.lor (Z.shiftl (level_bit a1) 1) (level_bit a0))
    with (reg_addr a1 a0).
  match goal with
  | |- core (set_last _ _ ?x) = _ => transitivity (core x)
  end.
  - match goal with |- core (set_last _ _ ?x) = _ => destruct x end.
    reflexivity.
  - apply handleWrite_core. destruct d; reflexivity.
Qed.

Lemma write_cycle_core d a1 a0 l t1 t2 :
  lastCS d = false ->
  let d' := run (write_cycle a1 a0 l t1 t2) d in
  core d' =
    core (handleWrite (reg_addr a1 a0) t1
            (on_fdc (set_data (bus_value l)) d)) /\
  lastCS d' = false.
Proof.
  intros Hcs.
  destruct (select_write d a1 a0 l t1 Hcs) as (E1 & _).
  cbv zeta in E1 |- *.
  change (run (write_cycle a1 a0 l t1 t2) d)
    with (handleBus (released LOW) t2
            (handleBus {| WD_CS := LOW; WD_RW := LOW; WD_A0 := a0;
                          WD_A1 := a1; dataLines := l |} t1 d)).
  match goal with
  | |- core (handleBus (released ?rw) ?t ?x) = _ /\ _ =>
      destruct (released_core x rw t) as (E2 & E3)
  end.
  split; [rewrite E2; exact E1 | exact E3].
Qed.

(** Projections of [core]. *)
Lemma core_eq d1 d2 :
  core d1 = core d2 ->
  fdc d1 = fdc d2 /\ diskManager d1 = diskManager d2 /\ sd d1 = sd d2 /\
  activeDrive d1 = activeDrive d2 /\ ioLog d1 = ioLog d2 /\
  overrun d1 = overrun d2.
Proof. unfold core. intros E. inversion E. auto 10. Qed.




(** Every Type-I handler leaves DRQ as it finds it. *)
Lemma type1_keeps_drq now s :
  drq (cmdRestore now s) = drq s /\ drq (cmdSeek now s) = drq s /\
  drq (cmdStep now s) = drq s /\ drq (cmdStepIn now s) = drq s /\
  drq (cmdStepOut now s) = drq s.
Proof. repeat split. Qed.

(** C1, amended. Take any run from power-up in which the host writes a
    command other than FORCE INTERRUPT only while BUSY is clear and in
    which no bound image has sectors of zero bytes or of more than the
    1024 bytes of the staging buffer.  In the state it
    reaches, DRQ set implies that the state is READING_SECTOR or
    WAITING_FOR_DATA_IN and that cursor < length, and no access of the
    run has gone past the end of the staging buffer.  Dispatching a Type-I
    command (RESTORE, SEEK, STEP, STEP IN, STEP OUT) leaves DRQ as it was;
    in such a run DRQ was clear when the command was accepted, so DRQ is
    clear whenever the state is SEEKING. *)
Theorem C1_drq_invariant (evs : list (Event Fs)) :
  polite_run evs power_up = true ->
  let s := fdc (run evs power_up) in
  (drq s = true ->
     (state s = STATE_READING_SECTOR \/
      state s = STATE_WAITING_FOR_DATA_IN) /\
     dataIndex s < dataLength s) /\
  (state s = STATE_SEEKING -> drq s = false) /\
  overrun (run evs power_up) = false /\
  (forall now s0,
     drq (cmdRestore now s0) = drq s0 /\ drq (cmdSeek now s0) = drq s0 /\
     drq (cmdStep now s0) = drq s0 /\ drq (cmdStepIn now s0) = drq s0 /\
     drq (cmdStepOut now s0) = drq s0).
Proof.
  intros Hpol s.
  destruct (run_inv evs power_up power_up_inv Hpol) as ((I1 & _) & _).
  fold s in I1. split; [exact I1|]. split; [|split].
  - intros Hseek. destruct (drq s) eqn:Hdrq; [|reflexivity].
    destruct (I1 eq_refl) as [[E|E] _]; rewrite Hseek in E; discriminate E.
  - rewrite (run_overrun evs power_up power_up_inv Hpol). reflexivity.
  - apply type1_keeps_drq.
Qed.

(** When a STEP, STEP IN or STEP OUT completes, the head is within
    [0, MAX_TRACKS]: this branch of [processStateMachine] clamps. *)
Lemma step_family_clamped now d :
  state (fdc d) = STATE_SEEKING ->
  Z.land (command (fdc d)) 0xF0 <> CMD_RESTORE ->
  Z.land (command (fdc d)) 0xF0 <> CMD_SEEK ->
  stepRate (fdc d) <= wrap32 (now - operationStartTime (fdc d)) ->
  0 <= currentTrack (fdc (processStateMachine now d)) <= MAX_TRACKS.
Proof.
  intros Hst Hr Hs Ht. unfold processStateMachine. rewrite Hst.
  destruct (wrap32 (now - operationStartTime (fdc d)) >=? stepRate (fdc d))
    eqn:E; [|rewrite Z.geb_leb in E; apply Z.leb_gt in E; lia].
  destruct (Z.eqb_spec (Z.land (command (fdc d)) 0xF0) CMD_RESTORE);
    [contradiction|].
  destruct (Z.eqb_spec (Z.land (command (fdc d)) 0xF0) CMD_SEEK);
    [contradiction|].
  pose proof (wrap8_u8 (currentTrack (fdc d) + direction (fdc d))) as B.
  unfold is_u8, MAX_TRACKS in *.
  destruct d as [s]; unfold update_track, seek_done; simpl in *.
  destruct (wrap8 (currentTrack s + direction s) <? 0) eqn:E0;
    [apply Z.ltb_lt in E0; lia|]. simpl.
  destruct (wrap8 (currentTrack s + direction s) >? 84) eqn:E1; simpl.
  - destruct (truthy (Z.land (command s) 16)); simpl; lia.
  - rewrite Z.gtb_ltb in E1. apply Z.ltb_ge in E1.
    destruct (truthy (Z.land (command s) 16)); simpl; lia.
Qed.

Lemma run_app evs1 evs2 d : run (evs1 ++ evs2) d = run evs2 (run evs1 d).
Proof. revert d. induction evs1 as [|e evs1 IH]; intros d; simpl; auto. Qed.




Lemma dispatch_read_sectors now d :
  Z.land (command (fdc d)) 0xF0 = CMD_READ_SECTORS ->
  dispatch now d = cmdReadSector now d.
Proof.
  intros Hcmd. unfold dispatch. rewrite Hcmd.
  replace (Z.land (command (fdc d)) 0xE0) with 0x80; [reflexivity|].
  change 0xE0 with (Z.land 0xF0 0xE0). rewrite Z.land_assoc, Hcmd.
  reflexivity.
Qed.

Lemma select_read d a1 a0 l now :
  lastCS d = false ->
  let p := {| WD_CS := LOW; WD_RW := HIGH; WD_A0 := a0; WD_A1 := a1;
              dataLines := l |} in
  core (handleBus p now d) = core (handleRead (reg_addr a1 a0) now d) /\
  lastCS (handleBus p now d) = true.
Proof.
  intros Hcs p. unfold handleBus. rewrite Hcs. simpl.
  rewrite andb_false_r. split; [|destruct d; reflexivity].
  change (Z.lor (Z.shiftl (level_bit a1) 1) (level_bit a0))
    with (reg_addr a1 a0).
  match goal with |- core (set_last _ _ ?x) = _ => destruct x end.
  reflexivity.
Qed.

Lemma read_cycle_core d a1 a0 t1 t2 :
  lastCS d = false ->
  let d' := run (read_cycle a1 a0 t1 t2) d in
  core d' = core (handleRead (reg_addr a1 a0) t1 d) /\ lastCS d' = false.
Proof.
  intros Hcs.
  destruct (select_read d a1 a0 [] t1 Hcs) as (E1 & _).
  cbv zeta in E1 |- *.
  change (run (read_cycle a1 a0 t1 t2) d)
    with (handleBus (released HIGH) t2
            (handleBus {| WD_CS := LOW; WD_RW := HIGH; WD_A0 := a0;
                          WD_A1 := a1; dataLines := [] |} t1 d)).
  match goal with
  | |- core (handleBus (released ?rw) ?t ?x) = _ /\ _ =>
      destruct (released_core x rw t) as (E2 & E3)
  end.
  split; [rewrite E2; exact E1 | exact E3].
Qed.

Lemma same_transfer_trans d1 d2 d3 :
  same_transfer d1 d2 -> same_transfer d2 d3 -> same_transfer d1 d3.
Proof. unfold same_transfer. intuition congruence. Qed.

Lemma data_read_cycle d t1 t2 :
  lastCS d = false -> state (fdc d) = STATE_READING_SECTOR ->
  0 <= dataIndex (fdc d) < dataLength (fdc d) ->
  dataLength (fdc d) < 65536 ->
  let d' := run (read_cycle HIGH HIGH t1 t2) d in
  lastCS d' = false /\ same_transfer d d' /\
  dataIndex (fdc d') = dataIndex (fdc d) + 1 /\
  (if dataIndex (fdc d) + 1 <? dataLength (fdc d)
   then state (fdc d') = STATE_READING_SECTOR /\ drq (fdc d') = drq (fdc d)
   else state (fdc d') = STATE_SECTOR_READ_COMPLETE /\ drq (fdc d') = false).
Proof.
  intros Hcs Hst Hidx Hlen d'.
  destruct (read_cycle_core d HIGH HIGH t1 t2 Hcs) as (E & Hcs').
  apply core_eq in E. destruct E as (Ef & Edm & Esd & Ead & Eio & _).
  fold d' in Ef, Edm, Esd, Ead, Eio, Hcs'. unfold same_transfer.
  rewrite Ef, Edm, Esd, Ead, Eio.
  split; [exact Hcs'|]. clear Ef Edm Esd Ead Eio Hcs' d'.
  change (reg_addr HIGH HIGH) with 3. unfold handleRead.
  destruct d as [s dm card ad lcs lrw dbd dvu pm po ip dp io ov]; simpl in *.
  rewrite Hst. simpl.
  destruct (dataIndex s <? dataLength s) eqn:E1; [|lia]. simpl.
  assert (Hw : wrap16 (dataIndex s + 1) = dataIndex s + 1)
    by (apply wrap16_id; unfold is_u16; lia).
  rewrite Hw.
  destruct (dataIndex s + 1 >=? dataLength s) eqn:E2;
    destruct (dataIndex s + 1 <? dataLength s) eqn:E3; try lia;
    simpl; rewrite ?Hw; auto 20.
Qed.

Lemma data_reads_cons t1 t2 reads :
  data_reads (Fs := Fs) ((t1, t2) :: reads) =
  read_cycle HIGH HIGH t1 t2 ++ data_reads reads.
Proof. reflexivity. Qed.

Lemma drain_sector reads : forall d,
  lastCS d = false -> state (fdc d) = STATE_READING_SECTOR ->
  0 <= dataIndex (fdc d) ->
  dataIndex (fdc d) + Z.of_nat (length reads) = dataLength (fdc d) ->
  dataLength (fdc d) < 65536 -> reads <> [] ->
  let d' := run (data_reads reads) d in
  lastCS d' = false /\ same_transfer d d' /\
  state (fdc d') = STATE_SECTOR_READ_COMPLETE /\ drq (fdc d') = false.
Proof.
  induction reads as [|[t1 t2] reads IH]; intros d Hcs Hst Hidx Hsum Hlen Hne;
    [congruence|].
  rewrite data_reads_cons. cbv zeta. rewrite run_app.
  simpl length in Hsum.
  destruct (data_read_cycle d t1 t2 Hcs Hst ltac:(lia) Hlen)
    as (Hcs1 & Hsame1 & Hidx1 & Hnext).
  destruct reads as [|r reads].
  - simpl in Hsum. destruct (Z.ltb_spec (dataIndex (fdc d) + 1)
                                        (dataLength (fdc d))); [lia|].
    simpl. destruct Hnext. auto.
  - simpl length in Hsum.
    destruct (Z.ltb_spec (dataIndex (fdc d) + 1) (dataLength (fdc d)));
      [|lia].
    destruct Hnext as (Hst1 & _).
    pose proof Hsame1 as (_ & _ & _ & _ & _ & _ & _ & _ & Hlen1 & _).
    destruct (IH (run (read_cycle HIGH HIGH t1 t2) d) Hcs1 Hst1)
      as (A & B & C & D); try (simpl length; lia); try congruence.
    split; [exact A|]. split; [|auto].
    eapply same_transfer_trans; eassumption.
Qed.

Lemma handleRead_dataLength addr now d :
  dataLength (fdc (handleRead addr now d)) = dataLength (fdc d).
Proof.
  destruct d as [s dm card ad lcs lrw dbd dvu pm po ip dp io ov].
  unfold handleRead, driveDataBus; simpl. split_ifs; reflexivity.
Qed.

Lemma data_reads_overrun reads : forall d,
  lastCS d = false -> dataLength (fdc d) <= BUFFER_SIZE ->
  overrun (run (data_reads reads) d) = overrun d.
Proof.
  induction reads as [|[t1 t2] reads IH]; intros d Hcs Hlen; [reflexivity|].
  rewrite data_reads_cons, run_app.
  destruct (read_cycle_core d HIGH HIGH t1 t2 Hcs) as (E & Hcs').
  apply core_eq in E. destruct E as (Ef & _ & _ & _ & _ & Eov).
  rewrite IH; [| exact Hcs' | rewrite Ef, handleRead_dataLength; exact Hlen].
  rewrite Eov. apply handleRead_overrun. exact Hlen.
Qed.

Lemma read_sectors_cycle d dm card disk bytes c t1 t2 :
  lastCS d = false ->
  diskManager d = Some dm -> sd d = Some card ->
  Catalog.getDisk (activeDrive d) dm = Some disk ->
  Img.size disk <> 0 ->
  1 <= sector (fdc d) <= Img.sectorsPerTrack disk ->
  Z.land (bus_value c) 0xF0 = CMD_READ_SECTORS ->
  fs_read card (image_path disk)
    (readSectorData_offset disk (currentTrack (fdc d)) (sector (fdc d)))
    (Img.sectorSize disk) = Some bytes ->
  Z.of_nat (length bytes) = Img.sectorSize disk ->
  Img.sectorSize disk <= BUFFER_SIZE ->
  let d' := run (write_cycle LOW LOW c t1 t2) d in
  lastCS d' = false /\
  diskManager d' = Some dm /\ sd d' = Some card /\
  activeDrive d' = activeDrive d /\
  ioLog d' =
    ioLog d ++
    [IoRead (image_path disk)
       (readSectorData_offset disk (currentTrack (fdc d)) (sector (fdc d)))
       (Img.sectorSize disk)] /\
  state (fdc d') = STATE_READING_SECTOR /\ drq (fdc d') = true /\
  busy (fdc d') = true /\
  dataIndex (fdc d') = 0 /\ dataLength (fdc d') = Img.sectorSize disk /\
  multiSector (fdc d') = true /\
  sectorsRemaining (fdc d') = Img.sectorsPerTrack disk /\
  sector (fdc d') = sector (fdc d) /\
  currentTrack (fdc d') = currentTrack (fdc d) /\
  overrun d' = overrun d.
Proof.
  intros Hcs Hdm Hsd Hget Hsize Hsec Hcmd Hread Hbytes Hfits d'.
  destruct (write_cycle_core d LOW LOW c t1 t2 Hcs) as (E & Hcs').
  apply core_eq in E. destruct E as (Ef & Edm & Esd & Ead & Eio & Eov).
  fold d' in Ef, Edm, Esd, Ead, Eio, Eov, Hcs'.
  rewrite Ef, Edm, Esd, Ead, Eio, Eov.
  split; [exact Hcs'|]. clear Ef Edm Esd Ead Eio Eov Hcs' d'.
  change (reg_addr LOW LOW) with 0. unfold handleWrite.
  change (0 =? 0) with true. cbv iota.
  rewrite dispatch_read_sectors by (destruct d; exact Hcmd).
  unfold cmdReadSector, readSectorData.
  destruct d as [s dmo cardo ad lcs lrw dbd dvu pm po ip dp io ov];
    simpl in *.
  subst dmo cardo. rewrite Hget. simpl.
  destruct (Img.size disk =? 0) eqn:E0; [apply Z.eqb_eq in E0; lia|].
  simpl.
  destruct (sector s <? 1) eqn:E1; [lia|].
  destruct (sector s >? Img.sectorsPerTrack disk) eqn:E2; [lia|].
  simpl. rewrite Hread. simpl.
  rewrite (take_ge bytes) by lia.
  rewrite read_into_buffer_fits by lia.
  rewrite Hbytes, Z.eqb_refl. simpl.
  rewrite Hcmd, orb_false_r. simpl. auto 20.
Qed.

Lemma tick_at_track_end d dm card disk now :
  diskManager d = Some dm -> sd d = Some card ->
  Catalog.getDisk (activeDrive d) dm = Some disk ->
  Img.size disk <> 0 ->
  1 <= Img.sectorsPerTrack disk < 256 ->
  state (fdc d) = STATE_SECTOR_READ_COMPLETE ->
  multiSector (fdc d) = true ->
  sectorsRemaining (fdc d) = Img.sectorsPerTrack disk ->
  sector (fdc d) = Img.sectorsPerTrack disk ->
  let d' := processStateMachine now d in
  state (fdc d') = STATE_IDLE /\ intrq (fdc d') = true /\
  busy (fdc d') = false /\
  ioLog d' = ioLog d /\ sd d' = sd d /\
  sectorBuffer (fdc d') = sectorBuffer (fdc d) /\
  overrun d' = overrun d /\
  sector (fdc d') =
    (if 1 <? Img.sectorsPerTrack disk
     then wrap8 (Img.sectorsPerTrack disk + 1)
     else Img.sectorsPerTrack disk).
Proof.
  intros Hdm Hsd Hget Hsize Hspt Hst Hmulti Hrem Hsec.
  unfold processStateMachine. rewrite Hst, Hmulti, Hrem. simpl.
  rewrite Z.gtb_ltb.
  destruct (1 <? Img.sectorsPerTrack disk) eqn:E1.
  - apply Z.ltb_lt in E1. unfold readSectorData.
    destruct d as [s dmo cardo ad lcs lrw dbd dvu pm po ip dp io ov];
      simpl in *.
    subst dmo cardo. rewrite Hget.
    destruct (Img.size disk =? 0) eqn:E0; [apply Z.eqb_eq in E0; lia|].
    rewrite Hsec.
    assert (Hout : (wrap8 (Img.sectorsPerTrack disk + 1) <? 1) ||
                   (wrap8 (Img.sectorsPerTrack disk + 1) >?
                      Img.sectorsPerTrack disk) = true).
    { apply orb_true_iff. unfold wrap8.
      destruct (Z.eq_dec (Img.sectorsPerTrack disk) 255) as [E|E].
      - left. rewrite E. reflexivity.
      - right. rewrite Z.mod_small by lia. apply Z.gtb_lt. lia. }
    rewrite Hout. simpl. rewrite ?Hsec. auto 10.
  - destruct d as [s]; simpl in *. auto 10.
Qed.

(** A read transfer with no byte left to hand over and INTRQ clear stays
    as it is while the host only waits: no read poll, tick, drive-select
    poll or output refresh ends it. *)
Lemma stalled_read evs : forall d,
  forallb host_waits evs = true ->
  state (fdc d) = STATE_READING_SECTOR ->
  dataLength (fdc d) <= dataIndex (fdc d) ->
  intrq (fdc d) = false -> busy (fdc d) = true ->
  let d' := run evs d in
  state (fdc d') = STATE_READING_SECTOR /\
  dataLength (fdc d') <= dataIndex (fdc d') /\
  intrq (fdc d') = false /\ busy (fdc d') = true.
Proof.
  induction evs as [|e evs IH]; intros d Hall Hst Hlen Hint Hbusy;
    [cbv zeta; auto|].
  simpl in Hall. apply andb_true_iff in Hall. destruct Hall as [He Hall].
  cbn [run]. apply IH; [exact Hall| | | |];
    destruct e as [p now|now|ds0 ds1| | |dm|card]; try discriminate He;
    simpl in He;
    destruct d as [s dmo cardo ad lcs lrw dbd dvu pm po ip dp io ov];
    simpl in *;
    unfold handleBus, handleRead, processStateMachine, checkDriveSelect;
    simpl; rewrite ?He, ?Hst; simpl;
    destruct (dataIndex s <? dataLength s) eqn:E; try lia;
    split_ifs; simpl; auto.
Qed.

(** READ SECTORS at the end of a track, on an image whose sectors fit
    the staging buffer.  READ SECTORS is issued with the Sector register
    on the last sector of the track of the bound image, whose sectors
    have between 1 and 1024 bytes, and that sector is read from the card
    in full.  Once the host has drained its bytes through the Data
    register the controller is in SECTOR_READ_COMPLETE, and the next tick
    of the state machine ends the command in IDLE with INTRQ set and BUSY
    clear.  That tick asks the card for nothing (the log of transfers
    still ends with the read of the last sector) and leaves the staging
    buffer alone, and in the whole command no access goes past the end
    of that buffer; the Sector register is then one past the last sector
    modulo 256, or unchanged on a one-sector track: it is 1 only if it
    was 1 before. *)
Theorem multi_read_stops_at_track_end
    d dm card disk bytes c t1 t2 reads now :
  lastCS d = false ->
  diskManager d = Some dm -> sd d = Some card ->
  Catalog.getDisk (activeDrive d) dm = Some disk ->
  Img.size disk <> 0 ->
  1 <= Img.sectorsPerTrack disk < 256 ->
  0 < Img.sectorSize disk <= BUFFER_SIZE ->
  sector (fdc d) = Img.sectorsPerTrack disk ->
  Z.land (bus_value c) 0xF0 = CMD_READ_SECTORS ->
  fs_read card (image_path disk)
    (readSectorData_offset disk (currentTrack (fdc d)) (sector (fdc d)))
    (Img.sectorSize disk) = Some bytes ->
  Z.of_nat (length bytes) = Img.sectorSize disk ->
  Z.of_nat (length reads) = Img.sectorSize disk ->
  let d1 := run (write_cycle LOW LOW c t1 t2) d in
  let d2 := run (data_reads reads) d1 in
  let d3 := processStateMachine now d2 in
  (state (fdc d1) = STATE_READING_SECTOR /\ drq (fdc d1) = true /\
   ioLog d1 =
     ioLog d ++
     [IoRead (image_path disk)
        (readSectorData_offset disk (currentTrack (fdc d)) (sector (fdc d)))
        (Img.sectorSize disk)]) /\
  (state (fdc d2) = STATE_SECTOR_READ_COMPLETE /\ drq (fdc d2) = false) /\
  (state (fdc d3) = STATE_IDLE /\ intrq (fdc d3) = true /\
   busy (fdc d3) = false /\
   ioLog d3 = ioLog d1 /\ sd d3 = sd d /\
   sectorBuffer (fdc d3) = sectorBuffer (fdc d1) /\
   overrun d3 = overrun d /\
   sector (fdc d3) =
     (if 1 <? Img.sectorsPerTrack disk
      then wrap8 (Img.sectorsPerTrack disk + 1)
      else Img.sectorsPerTrack disk) /\
   (sector (fdc d3) = 1 -> Img.sectorsPerTrack disk = 1)).
Proof.
  intros Hcs Hdm Hsd Hget Hsize Hspt Hssz Hsec Hcmd Hread Hbytes Hreads
    d1 d2 d3.
  pose proof (proj2 Hssz) as Hfits. unfold BUFFER_SIZE in Hssz.
  destruct (read_sectors_cycle d dm card disk bytes c t1 t2 Hcs Hdm Hsd
              Hget Hsize ltac:(lia) Hcmd Hread Hbytes Hfits)
    as (Hcs1 & Hdm1 & Hsd1 & Had1 & Hio1 & Hst1 & Hdrq1 & Hbusy1 & Hidx1 &
        Hlen1 & Hmulti1 & Hrem1 & Hsec1 & Htrk1 & Hov1).
  fold d1 in Hcs1, Hdm1, Hsd1, Had1, Hio1, Hst1, Hdrq1, Hbusy1, Hidx1,
    Hlen1, Hmulti1, Hrem1, Hsec1, Htrk1, Hov1.
  assert (Hov2 : overrun d2 = overrun d1).
  { apply data_reads_overrun; [exact Hcs1|]. rewrite Hlen1. exact Hfits. }
  assert (Hne : reads <> []).
  { intros ->. simpl in Hreads. lia. }
  destruct (drain_sector reads d1 Hcs1 Hst1 ltac:(lia) ltac:(lia)
              ltac:(lia) Hne)
    as (Hcs2 & Hsame & Hst2 & Hdrq2).
  fold d2 in Hcs2, Hsame, Hst2, Hdrq2.
  destruct Hsame as (Hdm2 & Hsd2 & Had2 & Hio2 & Hsec2 & Htrk2 & Hmulti2 &
                     Hrem2 & Hlen2 & Hbuf2 & Hbusy2).
  assert (Hget2 : Catalog.getDisk (activeDrive d2) dm = Some disk)
    by (rewrite Had2, Had1; exact Hget).
  destruct (tick_at_track_end d2 dm card disk now
              ltac:(congruence) ltac:(congruence) Hget2 Hsize Hspt Hst2
              ltac:(congruence) ltac:(congruence) ltac:(congruence))
    as (Hst3 & Hint3 & Hbusy3 & Hio3 & Hsd3 & Hbuf3 & Hov3 & Hsec3).
  fold d3 in Hst3, Hint3, Hbusy3, Hio3, Hsd3, Hbuf3, Hov3, Hsec3.
  split; [auto|]. split; [auto|].
  repeat split; try assumption; try congruence.
  rewrite Hsec3. destruct (Z.ltb_spec 1 (Img.sectorsPerTrack disk)) as [L|L];
    [|lia].
  unfold wrap8. intros E.
  destruct (Z.eq_dec (Img.sectorsPerTrack disk) 255) as [E255|E255].
  - rewrite E255 in E. discriminate E.
  - rewrite Z.mod_small in E by lia. lia.
Qed.
End WithCard.

End EngineFacts.

(* ===================================================================== *)
(** ** The controller on concrete runs *)
(* ===================================================================== *)

Module RunFacts.
Import Fdc Props Runs EngineFacts.

(** C1, as stated, fails: READ ADDRESS sets DRQ, and a SEEK written while
    the address bytes wait is dispatched without clearing it; the state is
    SEEKING with DRQ still set. *)
Lemma C1_counterexample :
  let s := fdc (run seek_over_read_address (power_up (Fs := RamFs))) in
  drq s = true /\ state s = STATE_SEEKING /\
  state s <> STATE_READING_SECTOR /\ state s <> STATE_WAITING_FOR_DATA_IN.
Proof. vm_compute. repeat split; discriminate. Qed.

(** The invariant on a run that satisfies the discipline: READ SECTOR of
    sector 1 on [tiny_card] sets DRQ in READING_SECTOR with 128 bytes to
    go. *)
Lemma C1_drq_invariant_witness :
  let s := fdc (run read_sector_1 (power_up (Fs := RamFs))) in
  drq s = true /\
  (state s = STATE_READING_SECTOR \/ state s = STATE_WAITING_FOR_DATA_IN) /\
  dataIndex s < dataLength s.
Proof.
  destruct (C1_drq_invariant read_sector_1) as (K & _).
  - vm_compute. reflexivity.
  - split; [vm_compute; reflexivity | apply K; vm_compute; reflexivity].
Defined.

(** C2, code at the failing input: the SEEK completes (IDLE, INTRQ set)
    with [currentTrack] equal to 200, above [MAX_TRACKS]. *)
Theorem C2_seek_unclamped :
  let d : Device := run seek_to_200 power_up in
  state (fdc d) = STATE_IDLE /\ intrq (fdc d) = true /\
  currentTrack (fdc d) = 200 /\ MAX_TRACKS < currentTrack (fdc d).
Proof. vm_compute. repeat split. Qed.

(** C3, code at the failing input: the image has 2 sectors per track and
    the Sector register holds 3; the command ends in IDLE with INTRQ and
    status 0 (no record-not-found bit), and 128 bytes at offset 768, the
    track information block of track 1, have been overwritten. *)
Theorem C3_write_out_of_range_sector :
  let d0 := mounted tiny_card in
  let d := run write_sector_3 d0 in
  (Img.sectorsPerTrack <$> bound_disk d0) = Some 2 /\
  sector (fdc d) = 3 /\
  state (fdc d) = STATE_IDLE /\ intrq (fdc d) = true /\
  Z.land (status (fdc d)) ST_RNF = 0 /\
  ioLog d = [IoWrite "/TINY.DSK" 768 (replicate 128 0xAA)] /\
  card_bytes "TINY.DSK" d0 = Some (extended_dsk 2 2 0 0xE5) /\
  card_bytes "TINY.DSK" d =
    Some (overwrite 768 (replicate 128 0xAA) (extended_dsk 2 2 0 0xE5)) /\
  card_bytes "TINY.DSK" d <> card_bytes "TINY.DSK" d0.
Proof. vm_compute. repeat split. discriminate. Qed.


(** C6, code at the failing input: the image has two sectors per track
    with size code 9, that is sectors of 0 bytes, and READ SECTORS is
    issued at sector 2, the last one.  The sector is read (0 bytes at
    offset 512) and the controller waits in READING_SECTOR with DRQ set
    for a transfer of length 0.  There is nothing to drain, and whatever
    the waiting host reads and however often the state machine ticks,
    the command does not end: the state stays READING_SECTOR, BUSY stays
    set and INTRQ stays clear. *)
Theorem C6_zero_size_sector_never_ends :
  let d1 :=
    run (write_cycle LOW LOW (lines_of 0x90) 30 40) at_last_zero_sector in
  (Img.sectorsPerTrack <$> bound_disk at_last_zero_sector) = Some 2 /\
  (Img.sectorSize <$> bound_disk at_last_zero_sector) = Some 0 /\
  sector (fdc at_last_zero_sector) = 2 /\
  state (fdc d1) = STATE_READING_SECTOR /\ drq (fdc d1) = true /\
  dataLength (fdc d1) = 0 /\
  ioLog d1 = [IoRead "/ZERO.DSK" 512 0] /\
  (forall evs, forallb host_waits evs = true ->
     state (fdc (run evs d1)) = STATE_READING_SECTOR /\
     busy (fdc (run evs d1)) = true /\
     intrq (fdc (run evs d1)) = false).
Proof.
  intros d1.
  assert (H1 : state (fdc d1) = STATE_READING_SECTOR)
    by (vm_compute; reflexivity).
  assert (H2 : dataLength (fdc d1) <= dataIndex (fdc d1))
    by (vm_compute; discriminate).
  assert (H3 : intrq (fdc d1) = false) by (vm_compute; reflexivity).
  assert (H4 : busy (fdc d1) = true) by (vm_compute; reflexivity).
  split; [vm_compute; reflexivity|]. split; [vm_compute; reflexivity|].
  split; [vm_compute; reflexivity|]. split; [exact H1|].
  split; [vm_compute; reflexivity|]. split; [vm_compute; reflexivity|].
  split; [vm_compute; reflexivity|].
  intros evs Hall.
  pose proof (stalled_read evs d1 Hall H1 H2 H3 H4) as K.
  cbv zeta in K. tauto.
Qed.

(** READ SECTORS at sector 2 of the two-sector tracks of [tiny_card]:
    after 128 Data reads and one tick the command is over and the Sector
    register holds 3. *)
Lemma multi_read_stops_at_track_end_witness :
  let d1 := run (write_cycle LOW LOW (lines_of 0x90) 30 40) at_last_sector in
  let d2 := run (data_reads (replicate 128 (50, 60))) d1 in
  let d3 := processStateMachine 70 d2 in
  sector (fdc at_last_sector) = Img.sectorsPerTrack tiny_disk /\
  state (fdc d3) = STATE_IDLE /\ intrq (fdc d3) = true /\
  busy (fdc d3) = false /\ ioLog d3 = ioLog d1 /\
  sector (fdc d3) = 3.
Proof.
  intros d1 d2 d3.
  assert (H1 : lastCS at_last_sector = false)
    by (vm_compute; reflexivity).
  assert (H2 : diskManager at_last_sector = Some (catalog_of tiny_card))
    by (vm_compute; reflexivity).
  assert (H3 : sd at_last_sector = Some tiny_card)
    by (vm_compute; reflexivity).
  assert (H4 : Catalog.getDisk (activeDrive at_last_sector)
                 (catalog_of tiny_card) = Some tiny_disk)
    by (vm_compute; reflexivity).
  assert (H5 : Img.size tiny_disk <> 0) by (vm_compute; discriminate).
  assert (H6 : 1 <= Img.sectorsPerTrack tiny_disk < 256)
    by (vm_compute; split; [discriminate | reflexivity]).
  assert (H7 : 0 < Img.sectorSize tiny_disk <= BUFFER_SIZE)
    by (vm_compute; split; [reflexivity | discriminate]).
  assert (H8 : sector (fdc at_last_sector) = Img.sectorsPerTrack tiny_disk)
    by (vm_compute; reflexivity).
  assert (H9 : Z.land (bus_value (lines_of 0x90)) 0xF0 = CMD_READ_SECTORS)
    by (vm_compute; reflexivity).
  assert (H10 : fs_read tiny_card (image_path tiny_disk)
                  (readSectorData_offset tiny_disk
                     (currentTrack (fdc at_last_sector))
                     (sector (fdc at_last_sector)))
                  (Img.sectorSize tiny_disk) = Some (replicate 128 0xE5))
    by (vm_compute; reflexivity).
  assert (H11 : Z.of_nat (length (replicate 128 0xE5)) =
                Img.sectorSize tiny_disk)
    by (vm_compute; reflexivity).
  assert (H12 : Z.of_nat (length (replicate 128 (50, 60))) =
                Img.sectorSize tiny_disk)
    by (vm_compute; reflexivity).
  assert (H13 : wrap8 (Img.sectorsPerTrack tiny_disk + 1) = 3)
    by (vm_compute; reflexivity).
  pose proof (multi_read_stops_at_track_end at_last_sector
                (catalog_of tiny_card) tiny_card tiny_disk
                (replicate 128 0xE5) (lines_of 0x90) 30 40
                (replicate 128 (50, 60)) 70
                H1 H2 H3 H4 H5 H6 H7 H8 H9 H10 H11 H12) as K.
  cbv zeta in K. destruct K as (_ & _ & A & B & C & D & _ & _ & _ & E & _).
  split; [exact H8|]. split; [exact A|]. split; [exact B|].
  split; [exact C|]. split; [exact D|].
  rewrite <- H13. exact E.
Defined.

(** A sector longer than the staging buffer: WRITE SECTOR on [big_card]
    asks the host for 2048 bytes, and the byte the host writes at cursor
    1036 is stored over [fdc.state].  DRQ is still set, the cursor is
    below the length, and the state is no enumerator: this is why the
    invariant of the registers is stated for images whose sectors fit
    the buffer. *)
Lemma write_past_buffer_hits_state :
  let d := run write_past_buffer (mounted big_card) in
  dataIndex (fdc d) = 1037 /\ dataLength (fdc d) = 2048 /\
  overrun d = true /\ drq (fdc d) = true /\
  state (fdc d) = STATE_OUT_OF_RANGE 162 /\
  state_code (state (fdc d)) = 0xAA.
Proof. vm_compute. repeat split. Qed.

(** C7, code at the failing input: binding the image resolves a sector
    size of 2048 bytes, and READ SECTOR then transfers 2048 bytes into
    the 1024-byte staging buffer and asks the host for 2048 bytes. *)
Theorem C7_sector_size_overruns_buffer :
  let d0 := mounted big_card in
  let d := run read_big d0 in
  (Img.sectorSize <$> bound_disk d0) = Some 2048 /\
  BUFFER_SIZE = 1024 /\
  overrun d0 = false /\ overrun d = true /\
  ioLog d = [IoRead "/BIG.DSK" 512 2048] /\
  dataLength (fdc d) = 2048 /\ drq (fdc d) = true.
Proof. vm_compute. repeat split. Qed.

(** C10, code at the failing input: at 100000 us the device is outside
    any bus cycle and far beyond the hold window that ended at 510 us,
    and all eight data pins are still outputs. *)
Theorem C10_bus_left_driven :
  let d : Device := run short_read power_up in
  lastCS d = false /\ dataValidUntil d = 510 /\ dataBusDriven d = true /\
  dataPinMode d = replicate 8 OUTPUT.
Proof. vm_compute. repeat split. Qed.

End RunFacts.

(* ===================================================================== *)
(** ** More about the catalog: geometry, binding, ejecting *)
(* ===================================================================== *)

Module GeometryFacts.
Import Catalog Fdc.

(** What [detectFormat] leaves alone. *)
Lemma detectFormat_frame disk fileSize :
  let r := snd (detectFormat disk fileSize) in
  Img.filename r = Img.filename disk /\ Img.size r = Img.size disk /\
  Img.writeProtected r = Img.writeProtected disk /\
  Img.isExtendedDSK r = Img.isExtendedDSK disk /\
  Img.headerOffset r = Img.headerOffset disk /\
  Img.trackHeaderSize r = Img.trackHeaderSize disk.
Proof.
  unfold detectFormat.
  repeat match goal with
         | |- context [if ?b then _ else _] => destruct b
         end; simpl; auto 10.
Qed.

(** The geometry depends on the file size only. *)
Lemma detectFormat_by_size disk fileSize :
  let g := snd (detectFormat Img.empty fileSize) in
  snd (detectFormat disk fileSize) =
  Img.set_geometry (Img.tracks g) (Img.sectorsPerTrack g) (Img.sectorSize g)
    (Img.doubleDensity g) disk.
Proof.
  unfold detectFormat.
  repeat match goal with
         | |- context [if ?b then _ else _] => destruct b
         end; reflexivity.
Qed.

(** The geometry [detectFormat] resolves, size by size. *)
Lemma detectFormat_resolved disk fileSize :
  0 <= fileSize ->
  let r := snd (detectFormat disk fileSize) in
  (Img.tracks r = 40 \/ Img.tracks r = 80) /\
  (Img.sectorSize r = 256 \/ Img.sectorSize r = 512) /\
  is_u8 (Img.sectorsPerTrack r) /\
  (Img.tracks r * Img.sectorsPerTrack r * Img.sectorSize r <=? fileSize) =
    negb (fileSize =? 174336).
Proof.
  intros Hpos. unfold detectFormat, Img.SIZE_TIMEX_FDD3000_SS,
    Img.SIZE_TIMEX_FDD3000_DS, Img.SIZE_35_DD, Img.SIZE_525_DD,
    Img.SIZE_CPC_40T.
  repeat match goal with
         | |- context [if ?a =? ?b then _ else _] =>
             destruct (Z.eqb_spec a b)
         end; try (subst fileSize; simpl; unfold is_u8; repeat split; auto; lia).
  all: cbn [negb].
  - (* 640 blocks of 256 bytes *)
    simpl. unfold is_u8. repeat split; auto; try lia.
    apply Z.leb_le.
    pose proof (Z.mul_div_le fileSize 256 ltac:(lia)). lia.
  - simpl. unfold is_u8. repeat split; auto; try lia.
    apply Z.leb_le.
    pose proof (Z.mul_div_le fileSize 256 ltac:(lia)). lia.
  - destruct (Z.ltb_spec (fileSize / 512) 720) as [Hlt|Hge]; simpl.
    + pose proof (wrap8_u8 (fileSize / 512 / 40)) as B.
      assert (Hq : 0 <= fileSize / 512 / 40 < 256).
      { split; [apply Z.div_pos; [apply Z.div_pos|]; lia|].
        apply Z.div_lt_upper_bound; lia. }
      rewrite (wrap8_id _ Hq). unfold is_u8. repeat split; auto; try lia.
      apply Z.leb_le.
      pose proof (Z.mul_div_le fileSize 512 ltac:(lia)).
      pose proof (Z.mul_div_le (fileSize / 512) 40 ltac:(lia)). lia.
    + pose proof (wrap8_u8 (fileSize / 512 / 80)) as B.
      assert (Hq : 0 <= fileSize / 512 / 80).
      { apply Z.div_pos; [apply Z.div_pos|]; lia. }
      assert (Hw : wrap8 (fileSize / 512 / 80) <= fileSize / 512 / 80).
      { unfold wrap8. apply Z.mod_le; lia. }
      unfold is_u8 in *. repeat split; auto; try lia.
      apply Z.leb_le.
      pose proof (Z.mul_div_le fileSize 512 ltac:(lia)).
      pose proof (Z.mul_div_le (fileSize / 512) 80 ltac:(lia)). nia.
Qed.

(** X1: every geometry [detectFormat] resolves has 40 or 80 tracks, sectors
    of 256 or 512 bytes and a sector count that fits its byte; it covers
    no more than the file, except for the 174336-byte entry of the table,
    whose 40 x 9 x 512 bytes are more than the file holds. *)
Theorem detectFormat_geometry disk fileSize :
  0 <= fileSize ->
  let r := snd (detectFormat disk fileSize) in
  (Img.tracks r = 40 \/ Img.tracks r = 80) /\
  (Img.sectorSize r = 256 \/ Img.sectorSize r = 512) /\
  is_u8 (Img.sectorsPerTrack r) /\
  (Img.tracks r * Img.sectorsPerTrack r * Img.sectorSize r <=? fileSize) =
    negb (fileSize =? 174336).
Proof. exact (detectFormat_resolved disk fileSize). Qed.

(** The 174336-byte entry: 40 tracks of 9 sectors of 512 bytes, 184320
    bytes in all. *)
Lemma detectFormat_geometry_witness :
  let r := snd (detectFormat Img.empty 174336) in
  (Img.tracks r = 40 \/ Img.tracks r = 80) /\
  (Img.tracks r * Img.sectorsPerTrack r * Img.sectorSize r <=? 174336) = false.
Proof.
  destruct (detectFormat_geometry Img.empty 174336) as (A & _ & _ & B);
    [lia|].
  split; [exact A | exact B].
Defined.

(** X2: on a flat image whose geometry [detectFormat] resolved from a file
    size other than 174336, every sector of every track lies inside the
    file: the offset both gateway functions compute is
    (T * spt + (S - 1)) * ssz, without wrap-around, and the sector ends at
    or before the end of the file. *)
Theorem flat_sectors_inside_file disk fileSize T S :
  0 <= fileSize -> fileSize <> 174336 ->
  Img.isExtendedDSK disk = false ->
  let r := snd (detectFormat disk fileSize) in
  0 <= T < Img.tracks r -> 1 <= S <= Img.sectorsPerTrack r ->
  readSectorData_offset r T S =
    (T * Img.sectorsPerTrack r + (S - 1)) * Img.sectorSize r /\
  writeSectorData_offset r T S = readSectorData_offset r T S /\
  0 <= readSectorData_offset r T S /\
  readSectorData_offset r T S + Img.sectorSize r <= fileSize.
Proof.
  intros Hpos Hne Hflat r HT HS.
  destruct (detectFormat_resolved disk fileSize Hpos)
    as (Htr & Hssz & Hspt & Hfit).
  destruct (detectFormat_frame disk fileSize) as (_ & _ & _ & Hext & _).
  fold r in Htr, Hssz, Hspt, Hfit, Hext. rewrite Hflat in Hext.
  rewrite (proj2 (Z.eqb_neq fileSize 174336) Hne) in Hfit.
  apply Z.leb_le in Hfit. unfold is_u8 in Hspt.
  assert (Hrow : (T + 1) * Img.sectorsPerTrack r <=
                 Img.tracks r * Img.sectorsPerTrack r).
  { apply Z.mul_le_mono_nonneg_r; lia. }
  assert (Hcap : Img.tracks r * Img.sectorsPerTrack r <= 80 * 255).
  { apply Z.mul_le_mono_nonneg; lia. }
  assert (Hlin : 0 <= T * Img.sectorsPerTrack r) by (apply Z.mul_nonneg_nonneg; lia).
  assert (E : readSectorData_offset r T S =
              (T * Img.sectorsPerTrack r + (S - 1)) * Img.sectorSize r).
  { unfold readSectorData_offset. rewrite Hext. apply wrap32_id.
    unfold is_u32. destruct Hssz as [E|E]; rewrite E; lia. }
  split; [exact E|]. split; [reflexivity|]. rewrite E.
  destruct Hssz as [E2|E2]; rewrite E2 in *; lia.
Qed.

(** The last sector of a 368640-byte flat image, resolved as 40 tracks of
    9 sectors of 512 bytes. *)
Lemma flat_sectors_inside_file_witness :
  let r := snd (detectFormat Img.empty 368640) in
  readSectorData_offset r 39 9 = 183808 /\
  readSectorData_offset r 39 9 + Img.sectorSize r <= 368640.
Proof.
  destruct (flat_sectors_inside_file Img.empty 368640 39 9)
    as (E & _ & _ & K).
  - lia.
  - lia.
  - reflexivity.
  - simpl. lia.
  - simpl. lia.
  - split; [rewrite E; reflexivity | exact K].
Defined.

End GeometryFacts.

Module BindingFacts.
Import Catalog Config MoreProps Runs Cards GeometryFacts.

(** X3: the sector size an Extended DSK size code resolves to, for the
    codes whose shift stays inside a 32-bit [int]: 128 * 2^code up to
    code 8, and 0 from code 9 on, where the value no longer fits the
    16-bit field; it fits the 1024-byte staging buffer, and is not zero,
    exactly for the codes 0 to 3. *)
Theorem sector_size_by_code code :
  0 <= code <= 23 ->
  (code <= 8 -> sector_size_of_code code = 128 * 2 ^ code) /\
  (9 <= code -> sector_size_of_code code = 0) /\
  (1 <= sector_size_of_code code <= 1024 <-> code <= 3).
Proof.
  intros [Hpos _].
  assert (Hsmall : code <= 8 -> sector_size_of_code code = 128 * 2 ^ code).
  { intros Hle.
    assert (Hc : code = 0 \/ code = 1 \/ code = 2 \/ code = 3 \/ code = 4 \/
                 code = 5 \/ code = 6 \/ code = 7 \/ code = 8) by lia.
    repeat (destruct Hc as [Hc|Hc]; [subst code; reflexivity|]).
    subst code; reflexivity. }
  assert (Hbig : 9 <= code -> sector_size_of_code code = 0).
  { intros Hge. unfold sector_size_of_code, wrap16.
    rewrite Z.shiftl_mul_pow2 by lia.
    replace code with (9 + (code - 9)) by lia.
    rewrite Z.pow_add_r by lia.
    replace (128 * (2 ^ 9 * 2 ^ (code - 9))) with (2 ^ (code - 9) * 65536)
      by (change (2 ^ 9) with 512; lia).
    apply Z.mod_mul. lia. }
  split; [exact Hsmall|]. split; [exact Hbig|].
  destruct (Z.le_gt_cases code 8) as [Hle|Hgt].
  - rewrite (Hsmall Hle).
    assert (Hc : code = 0 \/ code = 1 \/ code = 2 \/ code = 3 \/ code = 4 \/
                 code = 5 \/ code = 6 \/ code = 7 \/ code = 8) by lia.
    repeat (destruct Hc as [Hc|Hc]; [subst code; simpl; lia|]).
    subst code; simpl; lia.
  - rewrite (Hbig ltac:(lia)). lia.
Qed.

(** Size code 2 is 512 bytes; size code 9 is 0. *)
Lemma sector_size_by_code_witness :
  sector_size_of_code 2 = 128 * 2 ^ 2 /\ sector_size_of_code 9 = 0.
Proof.
  destruct (sector_size_by_code 2) as (K & _); [lia|].
  destruct (sector_size_by_code 9) as (_ & L & _); [lia|].
  split; [apply K | apply L]; lia.
Defined.

Section WithCard.
Context {Fs : Type} `{Backend Fs}.

(** [parseExtendedDSK] writes to the slot of [drive] only, and in it to
    neither name, size nor write protection. *)
Lemma parseExtendedDSK_frame (card : Fs) drive path dm :
  let r := snd (parseExtendedDSK card drive path dm) in
  diskImages r = diskImages dm /\
  loadedImageIndex r = loadedImageIndex dm /\
  length (disks r) = length (disks dm) /\
  (forall i, i <> Z.to_nat drive -> disks r !! i = disks dm !! i) /\
  (forall disk, disks dm !! Z.to_nat drive = Some disk ->
     exists disk', disks r !! Z.to_nat drive = Some disk' /\
       Img.filename disk' = Img.filename disk /\
       Img.size disk' = Img.size disk /\
       Img.writeProtected disk' = Img.writeProtected disk).
Proof.
  unfold parseExtendedDSK.
  assert (Hsame : let r := dm in
    diskImages r = diskImages dm /\
    loadedImageIndex r = loadedImageIndex dm /\
    length (disks r) = length (disks dm) /\
    (forall i, i <> Z.to_nat drive -> disks r !! i = disks dm !! i) /\
    (forall disk, disks dm !! Z.to_nat drive = Some disk ->
       exists disk', disks r !! Z.to_nat drive = Some disk' /\
         Img.filename disk' = Img.filename disk /\
         Img.size disk' = Img.size disk /\
         Img.writeProtected disk' = Img.writeProtected disk)).
  { simpl. repeat split; auto. intros disk Hd. exists disk. auto. }
  assert (Hset : forall d1 d2,
    (forall disk, disks dm !! Z.to_nat drive = Some disk ->
       Img.filename d2 = Img.filename disk /\ Img.size d2 = Img.size disk /\
       Img.writeProtected d2 = Img.writeProtected disk) ->
    let r := set_disk drive d2 (set_disk drive d1 dm) in
    diskImages r = diskImages dm /\
    loadedImageIndex r = loadedImageIndex dm /\
    length (disks r) = length (disks dm) /\
    (forall i, i <> Z.to_nat drive -> disks r !! i = disks dm !! i) /\
    (forall disk, disks dm !! Z.to_nat drive = Some disk ->
       exists disk', disks r !! Z.to_nat drive = Some disk' /\
         Img.filename disk' = Img.filename disk /\
         Img.size disk' = Img.size disk /\
         Img.writeProtected disk' = Img.writeProtected disk)).
  { intros d1 d2 Hd2. simpl. rewrite list_insert_insert_eq.
    repeat split; auto.
    - apply length_insert.
    - intros i Hi. apply list_lookup_insert_ne. auto.
    - intros disk Hd. exists d2. split; [|apply Hd2; exact Hd].
      apply list_lookup_insert_eq. eapply lookup_lt_Some. exact Hd. }
  destruct (fs_read card path 0 256) as [diskHeader|]; [|exact Hsame].
  destruct (negb (Z.of_nat (length diskHeader) =? 256)); [exact Hsame|].
  destruct (negb (strncmp_eq diskHeader "EXTENDED CPC DSK" 16) &&
            negb (strncmp_eq diskHeader "MV - CPCEMU Disk" 16));
    [exact Hsame|].
  set (d0 := default Img.empty (disks dm !! Z.to_nat drive)).
  assert (Hhalf : let r := set_disk drive
                     (Img.set_tracks (Catalog.byte_at diskHeader 48) d0) dm in
    diskImages r = diskImages dm /\
    loadedImageIndex r = loadedImageIndex dm /\
    length (disks r) = length (disks dm) /\
    (forall i, i <> Z.to_nat drive -> disks r !! i = disks dm !! i) /\
    (forall disk, disks dm !! Z.to_nat drive = Some disk ->
       exists disk', disks r !! Z.to_nat drive = Some disk' /\
         Img.filename disk' = Img.filename disk /\
         Img.size disk' = Img.size disk /\
         Img.writeProtected disk' = Img.writeProtected disk)).
  { simpl. repeat split; auto.
    - apply length_insert.
    - intros i Hi. apply list_lookup_insert_ne. auto.
    - intros disk Hd. eexists. split.
      + apply list_lookup_insert_eq. eapply lookup_lt_Some. exact Hd.
      + subst d0. rewrite Hd. simpl. auto. }
  cbv zeta.
  destruct (negb (Z.of_nat (length (default [] (fs_read card path 256 256)))
                  =? 256)); [exact Hhalf|].
  destruct (negb (strncmp_eq (default [] (fs_read card path 256 256))
                    "Track-Info" 10)); [exact Hhalf|].
  apply Hset. intros disk Hd. subst d0. rewrite Hd. simpl. auto.
Qed.


(** When [parseExtendedDSK] reports success, both 256-byte blocks were
    read, and the slot has the geometry of the blocks: tracks from byte
    0x30 of the disk block, sectors per track from byte 0x15 and the
    sector size from the code in byte 0x14 of the track block, header
    lengths of 256 and 256, and double density exactly for sectors of 512
    bytes or more; name, size and write protection are as before. *)
Lemma parseExtendedDSK_success (card : Fs) drive path dm disk :
  disks dm !! Z.to_nat drive = Some disk ->
  fst (parseExtendedDSK card drive path dm) = true ->
  exists diskHeader trackHeader,
    fs_read card path 0 256 = Some diskHeader /\
    fs_read card path 256 256 = Some trackHeader /\
    length diskHeader = 256%nat /\ length trackHeader = 256%nat /\
    snd (parseExtendedDSK card drive path dm) =
      set_disk drive
        {| Img.filename := Img.filename disk; Img.size := Img.size disk;
           Img.tracks := byte_at diskHeader 48;
           Img.sectorsPerTrack := byte_at trackHeader 21;
           Img.sectorSize := sector_size_of_code (byte_at trackHeader 20);
           Img.doubleDensity :=
             (sector_size_of_code (byte_at trackHeader 20) >=? 512);
           Img.writeProtected := Img.writeProtected disk;
           Img.isExtendedDSK := true;
           Img.headerOffset := 256; Img.trackHeaderSize := 256 |} dm.
Proof.
  intros Hd. unfold parseExtendedDSK.
  destruct (fs_read card path 0 256) as [diskHeader|]; [|discriminate].
  destruct (Z.eqb_spec (Z.of_nat (length diskHeader)) 256) as [L1|L1];
    [|discriminate]. simpl.
  destruct (negb (strncmp_eq diskHeader "EXTENDED CPC DSK" 16) &&
            negb (strncmp_eq diskHeader "MV - CPCEMU Disk" 16));
    [discriminate|].
  rewrite Hd. simpl.
  destruct (fs_read card path 256 256) as [trackHeader|]; simpl;
    [|discriminate].
  destruct (Z.eqb_spec (Z.of_nat (length trackHeader)) 256) as [L2|L2];
    [|discriminate]. simpl.
  destruct (negb (strncmp_eq trackHeader "Track-Info" 10)); [discriminate|].
  intros _. exists diskHeader, trackHeader.
  repeat split; try lia.
  unfold set_disk. simpl. rewrite list_insert_insert_eq. reflexivity.
Qed.

(** X5: [loadImage] reports failure exactly when the drive or the index is out
    of range or the file does not open, and then the catalog, the two
    slots and the loaded indexes are as they were. *)
Theorem loadImage_failure (card : Fs) drive imageIndex dm :
  fst (loadImage card drive imageIndex dm) = false <->
  (MAX_DRIVES <= drive \/ totalImages dm <= imageIndex \/ imageIndex < 0 \/
   fs_size card
     (String.append "/"
        (default "" (diskImages dm !! Z.to_nat imageIndex))) = None).
Proof.
  unfold loadImage.
  destruct (Z.geb_spec drive MAX_DRIVES) as [G1|G1]; simpl;
    [split; auto; lia|].
  destruct (Z.geb_spec imageIndex (totalImages dm)) as [G2|G2]; simpl;
    [split; auto; lia|].
  destruct (Z.ltb_spec imageIndex 0) as [G3|G3]; simpl;
    [split; auto; lia|].
  destruct (fs_size card _) as [fileSize|]; simpl.
  - split; [discriminate|]. intros [?|[?|[?|?]]]; try lia. discriminate.
  - split; auto.
Qed.

Lemma loadImage_failure_unchanged (card : Fs) drive imageIndex dm :
  fst (loadImage card drive imageIndex dm) = false ->
  snd (loadImage card drive imageIndex dm) = dm.
Proof.
  unfold loadImage.
  destruct ((drive >=? MAX_DRIVES) || (imageIndex >=? totalImages dm) ||
            (imageIndex <? 0)); [reflexivity|].
  destruct (fs_size card _); [discriminate | reflexivity].
Qed.

Lemma loadImage_result (card : Fs) drive imageIndex dm image fileSize :
  0 <= drive < MAX_DRIVES -> 0 <= imageIndex ->
  diskImages dm !! Z.to_nat imageIndex = Some image ->
  fs_size card (String.append "/" image) = Some fileSize ->
  loadImage card drive imageIndex dm =
  (true,
   let path := String.append "/" image in
   let base := set_loadedImageIndex drive imageIndex
                 (set_disk drive (flat_descriptor image fileSize) dm) in
   if strstr (upcase (strncpy 69 path)) ".DSK" ||
      strstr (upcase (strncpy 69 path)) ".HFE"
   then snd (parseExtendedDSK card drive path base) else base).
Proof.
  intros Hdrive Hidx Himg Hsize. unfold loadImage.
  destruct (Z.geb_spec drive MAX_DRIVES) as [G1|G1]; [lia|].
  assert (Hlt : imageIndex < totalImages dm).
  { unfold totalImages. apply lookup_lt_Some in Himg. lia. }
  destruct (Z.geb_spec imageIndex (totalImages dm)) as [G2|G2]; [lia|].
  destruct (Z.ltb_spec imageIndex 0) as [G3|G3]; [lia|].
  simpl. rewrite Himg. simpl. rewrite Hsize.
  rewrite detectFormat_by_size. reflexivity.
Qed.

Lemma getDisk_lookup drive dm :
  0 <= drive < MAX_DRIVES -> getDisk drive dm = disks dm !! Z.to_nat drive.
Proof.
  intros Hd. unfold getDisk.
  destruct (Z.geb_spec drive MAX_DRIVES); [lia | reflexivity].
Qed.

Lemma getLoadedIndex_lookup drive dm :
  0 <= drive < MAX_DRIVES ->
  getLoadedIndex drive dm =
  default (-1) (loadedImageIndex dm !! Z.to_nat drive).
Proof.
  intros Hd. unfold getLoadedIndex.
  destruct (Z.geb_spec drive MAX_DRIVES); [lia | reflexivity].
Qed.

(** X6: a successful [loadImage] binds the slot of [drive] to the catalogued
    name and the size of the file, never write-protected, records the
    index, and leaves the catalog and the other drive alone. *)
Theorem loadImage_binds (card : Fs) drive imageIndex dm image fileSize :
  0 <= drive < MAX_DRIVES -> 0 <= imageIndex ->
  diskImages dm !! Z.to_nat imageIndex = Some image ->
  fs_size card (String.append "/" image) = Some fileSize ->
  length (disks dm) = 2%nat -> length (loadedImageIndex dm) = 2%nat ->
  let r := snd (loadImage card drive imageIndex dm) in
  fst (loadImage card drive imageIndex dm) = true /\
  diskImages r = diskImages dm /\
  getLoadedIndex drive r = imageIndex /\
  (exists disk, getDisk drive r = Some disk /\
     Img.filename disk = strncpy 63 image /\ Img.size disk = fileSize /\
     Img.writeProtected disk = false) /\
  (forall other, 0 <= other < MAX_DRIVES -> other <> drive ->
     getDisk other r = getDisk other dm /\
     getLoadedIndex other r = getLoadedIndex other dm).
Proof.
  intros Hdrive Hidx Himg Hsize Hlen1 Hlen2 r. subst r.
  rewrite (loadImage_result card drive imageIndex dm image fileSize)
    by assumption.
  cbv zeta. cbn [fst snd].
  set (base := set_loadedImageIndex drive imageIndex
                 (set_disk drive (flat_descriptor image fileSize) dm)).
  assert (Hnat : (Z.to_nat drive < 2)%nat) by (unfold MAX_DRIVES in *; lia).
  assert (Hslot : disks base !! Z.to_nat drive =
                  Some (flat_descriptor image fileSize)).
  { simpl. apply list_lookup_insert_eq. lia. }
  assert (Hbase : diskImages base = diskImages dm /\
    loadedImageIndex base !! Z.to_nat drive = Some imageIndex /\
    (forall i, i <> Z.to_nat drive ->
       disks base !! i = disks dm !! i /\
       loadedImageIndex base !! i = loadedImageIndex dm !! i)).
  { simpl. split; [reflexivity|]. split.
    - apply list_lookup_insert_eq. lia.
    - intros i Hi. split; apply list_lookup_insert_ne; auto. }
  destruct Hbase as (B1 & B2 & B3).
  split; [reflexivity|].
  match goal with
  | |- context [if ?b then _ else _] => destruct b
  end.
  - destruct (parseExtendedDSK_frame card drive
                (String.append "/" image) base) as (P1 & P2 & P3 & P4 & P5).
    cbv zeta in P1, P2, P3, P4, P5.
    destruct (P5 _ Hslot) as (disk' & Hd' & Hn & Hs & Hw).
    split; [congruence|]. split.
    { rewrite getLoadedIndex_lookup by assumption. rewrite P2, B2.
      reflexivity. }
    split.
    { exists disk'. rewrite getDisk_lookup by assumption.
      split; [exact Hd'|]. rewrite Hn, Hs, Hw. simpl. auto. }
    intros other Ho Hne.
    assert (Hi : Z.to_nat other <> Z.to_nat drive) by lia.
    rewrite !getDisk_lookup, !getLoadedIndex_lookup by assumption.
    rewrite P2, (P4 _ Hi). destruct (B3 _ Hi) as (E1 & E2).
    rewrite E1, E2. auto.
  - split; [exact B1|]. split.
    { rewrite getLoadedIndex_lookup by assumption. rewrite B2. reflexivity. }
    split.
    { exists (flat_descriptor image fileSize).
      rewrite getDisk_lookup by assumption. split; [exact Hslot|].
      simpl. auto. }
    intros other Ho Hne.
    assert (Hi : Z.to_nat other <> Z.to_nat drive) by lia.
    rewrite !getDisk_lookup, !getLoadedIndex_lookup by assumption.
    destruct (B3 _ Hi) as (E1 & E2). rewrite E1, E2. auto.
Qed.

(** X7: an image whose name has neither [.DSK] nor [.HFE] in it is bound as
    a flat image: no header lengths, sectors of 256 or 512 bytes, which
    fit the 1024-byte staging buffer, and 40 or 80 tracks. *)
Theorem loadImage_flat (card : Fs) drive imageIndex dm image fileSize :
  0 <= drive < MAX_DRIVES -> 0 <= imageIndex ->
  diskImages dm !! Z.to_nat imageIndex = Some image ->
  fs_size card (String.append "/" image) = Some fileSize ->
  length (disks dm) = 2%nat -> 0 <= fileSize ->
  strstr (upcase (strncpy 69 (String.append "/" image))) ".DSK" = false ->
  strstr (upcase (strncpy 69 (String.append "/" image))) ".HFE" = false ->
  let r := snd (loadImage card drive imageIndex dm) in
  exists disk, getDisk drive r = Some disk /\
    Img.isExtendedDSK disk = false /\
    Img.headerOffset disk = 0 /\ Img.trackHeaderSize disk = 0 /\
    (Img.sectorSize disk = 256 \/ Img.sectorSize disk = 512) /\
    Img.sectorSize disk <= Fdc.BUFFER_SIZE /\
    (Img.tracks disk = 40 \/ Img.tracks disk = 80).
Proof.
  intros Hdrive Hidx Himg Hsize Hlen Hpos Hdsk Hhfe r. subst r.
  rewrite (loadImage_result card drive imageIndex dm image fileSize)
    by assumption.
  cbv zeta. cbn [snd]. rewrite Hdsk, Hhfe. cbn [orb].
  exists (flat_descriptor image fileSize).
  rewrite getDisk_lookup by assumption. split.
  { simpl. apply list_lookup_insert_eq. unfold MAX_DRIVES in *. lia. }
  destruct (detectFormat_resolved Img.empty fileSize Hpos)
    as (Htr & Hssz & _ & _).
  unfold flat_descriptor, Fdc.BUFFER_SIZE. cbn [Img.isExtendedDSK
    Img.headerOffset Img.trackHeaderSize Img.sectorSize Img.tracks].
  repeat split; auto. destruct Hssz as [E|E]; rewrite E; lia.
Qed.

(** [parseExtendedDSK] on a file that starts with both header blocks. *)
Lemma parseExtendedDSK_headers (card : Fs) drive path dm disk
    diskHeader trackHeader :
  disks dm !! Z.to_nat drive = Some disk ->
  fs_read card path 0 256 = Some diskHeader ->
  length diskHeader = 256%nat ->
  strncmp_eq diskHeader "EXTENDED CPC DSK" 16 ||
  strncmp_eq diskHeader "MV - CPCEMU Disk" 16 = true ->
  fs_read card path 256 256 = Some trackHeader ->
  length trackHeader = 256%nat ->
  strncmp_eq trackHeader "Track-Info" 10 = true ->
  parseExtendedDSK card drive path dm =
  (true,
   set_disk drive
     {| Img.filename := Img.filename disk; Img.size := Img.size disk;
        Img.tracks := byte_at diskHeader 48;
        Img.sectorsPerTrack := byte_at trackHeader 21;
        Img.sectorSize := sector_size_of_code (byte_at trackHeader 20);
        Img.doubleDensity :=
          (sector_size_of_code (byte_at trackHeader 20) >=? 512);
        Img.writeProtected := Img.writeProtected disk;
        Img.isExtendedDSK := true;
        Img.headerOffset := 256; Img.trackHeaderSize := 256 |} dm).
Proof.
  intros Hd Hr1 L1 Hsig Hr2 L2 Htrack. unfold parseExtendedDSK.
  rewrite Hr1, L1. cbn [Z.of_nat Pos.of_succ_nat].
  change (Z.of_nat 256 =? 256) with true. cbn [negb].
  apply orb_true_iff in Hsig.
  assert (Hs : negb (strncmp_eq diskHeader "EXTENDED CPC DSK" 16) &&
               negb (strncmp_eq diskHeader "MV - CPCEMU Disk" 16) = false).
  { destruct Hsig as [E|E]; rewrite E; simpl;
      [reflexivity | apply andb_false_r]. }
  rewrite Hs, Hd, Hr2. cbv zeta. cbn [default from_option id].
  rewrite L2. change (Z.of_nat 256 =? 256) with true. cbn [negb].
  rewrite Htrack. cbn [negb].
  unfold set_disk. cbn [disks diskImages loadedImageIndex Img.set_tracks
    Img.filename Img.size Img.tracks Img.writeProtected].
  rewrite list_insert_insert_eq. reflexivity.
Qed.

(** X8: an image whose path has .DSK in it and whose file starts with an
    Extended DSK disk block and a track block is bound with the geometry
    of the headers, whatever the file size says: tracks from byte 48 of
    the disk block, sectors per track from byte 21 and the sector size
    from the size code in byte 20 of the track block, both header
    offsets 256. *)
Theorem loadImage_extended (card : Fs) drive imageIndex dm image fileSize
    diskHeader trackHeader :
  0 <= drive < MAX_DRIVES -> 0 <= imageIndex ->
  diskImages dm !! Z.to_nat imageIndex = Some image ->
  fs_size card (String.append "/" image) = Some fileSize ->
  length (disks dm) = 2%nat ->
  strstr (upcase (strncpy 69 (String.append "/" image))) ".DSK" = true ->
  fs_read card (String.append "/" image) 0 256 = Some diskHeader ->
  length diskHeader = 256%nat ->
  strncmp_eq diskHeader "EXTENDED CPC DSK" 16 ||
  strncmp_eq diskHeader "MV - CPCEMU Disk" 16 = true ->
  fs_read card (String.append "/" image) 256 256 = Some trackHeader ->
  length trackHeader = 256%nat ->
  strncmp_eq trackHeader "Track-Info" 10 = true ->
  getDisk drive (snd (loadImage card drive imageIndex dm)) =
  Some {| Img.filename := strncpy 63 image; Img.size := fileSize;
          Img.tracks := byte_at diskHeader 48;
          Img.sectorsPerTrack := byte_at trackHeader 21;
          Img.sectorSize := sector_size_of_code (byte_at trackHeader 20);
          Img.doubleDensity :=
            (sector_size_of_code (byte_at trackHeader 20) >=? 512);
          Img.writeProtected := false; Img.isExtendedDSK := true;
          Img.headerOffset := 256; Img.trackHeaderSize := 256 |}.
Proof.
  intros Hdrive Hidx Himg Hsize Hlen Hdsk Hr1 L1 Hsig Hr2 L2 Htrack.
  rewrite (loadImage_result card drive imageIndex dm image fileSize)
    by assumption.
  cbv zeta. cbn [snd]. rewrite Hdsk. cbn [orb].
  assert (Hn : (Z.to_nat drive < 2)%nat) by (unfold MAX_DRIVES in *; lia).
  erewrite parseExtendedDSK_headers; try eassumption.
  2:{ unfold set_loadedImageIndex, set_disk. cbn [disks].
      apply list_lookup_insert_eq. lia. }
  cbn [snd]. rewrite getDisk_lookup by assumption.
  unfold set_disk, set_loadedImageIndex. cbn [disks].
  rewrite list_lookup_insert_eq by (rewrite length_insert; lia).
  reflexivity.
Qed.

(** X9: [ejectDrive] empties the slot of [drive] (no name, size 0, loaded
    index -1) and leaves the catalog and the other drive alone; the
    geometry stays in the slot.  For a drive number of 2 or more it does
    nothing. *)
Theorem ejectDrive_empties drive dm :
  length (disks dm) = 2%nat -> length (loadedImageIndex dm) = 2%nat ->
  0 <= drive ->
  let r := ejectDrive drive dm in
  diskImages r = diskImages dm /\
  (MAX_DRIVES <= drive -> r = dm) /\
  (drive < MAX_DRIVES ->
   getLoadedIndex drive r = -1 /\
   (exists old disk, getDisk drive dm = Some old /\
      getDisk drive r = Some disk /\
      Img.filename disk = "" /\ Img.size disk = 0 /\
      Img.tracks disk = Img.tracks old /\
      Img.sectorsPerTrack disk = Img.sectorsPerTrack old /\
      Img.sectorSize disk = Img.sectorSize old) /\
   (forall other, 0 <= other < MAX_DRIVES -> other <> drive ->
      getDisk other r = getDisk other dm /\
      getLoadedIndex other r = getLoadedIndex other dm)).
Proof.
  intros Hlen1 Hlen2 Hpos r. subst r. unfold ejectDrive.
  destruct (Z.geb_spec drive MAX_DRIVES) as [G|G].
  - split; [reflexivity|]. split; [reflexivity|]. lia.
  - split; [reflexivity|]. split; [lia|]. intros _.
    assert (Hnat : (Z.to_nat drive < 2)%nat) by (unfold MAX_DRIVES in *; lia).
    destruct (lookup_lt_is_Some_2 (disks dm) (Z.to_nat drive)
                ltac:(lia)) as (old & Hold).
    rewrite Hold. cbn [default].
    split.
    { rewrite getLoadedIndex_lookup by lia. simpl.
      rewrite list_lookup_insert_eq by lia. reflexivity. }
    split.
    { exists old. eexists. rewrite !getDisk_lookup by lia.
      split; [exact Hold|]. split.
      - simpl. apply list_lookup_insert_eq. lia.
      - simpl. auto 10. }
    intros other Ho Hne.
    assert (Hi : Z.to_nat drive <> Z.to_nat other) by lia.
    rewrite !getDisk_lookup, !getLoadedIndex_lookup by assumption.
    simpl. rewrite !list_lookup_insert_ne by exact Hi. auto.
Qed.

End WithCard.


(** Binding [FLAT.IMG] (index 1) to drive 1 leaves drive 0 unbound. *)
Lemma loadImage_binds_witness :
  let r := snd (loadImage images_card 1 1 scanned) in
  fst (loadImage images_card 1 1 scanned) = true /\
  getLoadedIndex 1 r = 1 /\ getLoadedIndex 0 r = -1.
Proof.
  assert (H1 : diskImages scanned !! Z.to_nat 1 = Some "FLAT.IMG")
    by (vm_compute; reflexivity).
  assert (H2 : fs_size images_card (String.append "/" "FLAT.IMG") = Some 1024)
    by (vm_compute; reflexivity).
  assert (H3 : length (disks scanned) = 2%nat) by (vm_compute; reflexivity).
  assert (H4 : length (loadedImageIndex scanned) = 2%nat)
    by (vm_compute; reflexivity).
  destruct (loadImage_binds images_card 1 1 scanned "FLAT.IMG" 1024
              ltac:(unfold MAX_DRIVES; lia) ltac:(lia) H1 H2 H3 H4)
    as (A & _ & B & _ & C).
  destruct (C 0 ltac:(unfold MAX_DRIVES; lia) ltac:(lia)) as (_ & D).
  split; [exact A|]. split; [exact B|]. rewrite D. reflexivity.
Defined.

(** [FLAT.IMG], 1024 bytes, bound to drive 0. *)
Lemma loadImage_flat_witness :
  exists disk,
    getDisk 0 (snd (loadImage images_card 0 1 scanned)) = Some disk /\
    Img.isExtendedDSK disk = false /\
    Img.headerOffset disk = 0 /\ Img.trackHeaderSize disk = 0 /\
    (Img.sectorSize disk = 256 \/ Img.sectorSize disk = 512) /\
    Img.sectorSize disk <= Fdc.BUFFER_SIZE /\
    (Img.tracks disk = 40 \/ Img.tracks disk = 80).
Proof.
  assert (H1 : diskImages scanned !! Z.to_nat 1 = Some "FLAT.IMG")
    by (vm_compute; reflexivity).
  assert (H2 : fs_size images_card (String.append "/" "FLAT.IMG") = Some 1024)
    by (vm_compute; reflexivity).
  assert (H3 : length (disks scanned) = 2%nat) by (vm_compute; reflexivity).
  assert (H4 : strstr (upcase (strncpy 69 (String.append "/" "FLAT.IMG")))
                 ".DSK" = false) by (vm_compute; reflexivity).
  assert (H5 : strstr (upcase (strncpy 69 (String.append "/" "FLAT.IMG")))
                 ".HFE" = false) by (vm_compute; reflexivity).
  exact (loadImage_flat images_card 0 1 scanned "FLAT.IMG" 1024
           ltac:(unfold MAX_DRIVES; lia) ltac:(lia) H1 H2 H3 ltac:(lia)
           H4 H5).
Defined.

(** [TINY.DSK], bound to drive 1: 2 tracks of 2 sectors of 128 bytes. *)
Lemma loadImage_extended_witness :
  getDisk 1 (snd (loadImage images_card 1 0 scanned)) =
  Some {| Img.filename := "TINY.DSK"; Img.size := 1280;
          Img.tracks := 2; Img.sectorsPerTrack := 2;
          Img.sectorSize := 128; Img.doubleDensity := false;
          Img.writeProtected := false; Img.isExtendedDSK := true;
          Img.headerOffset := 256; Img.trackHeaderSize := 256 |}.
Proof.
  assert (H1 : diskImages scanned !! Z.to_nat 0 = Some "TINY.DSK")
    by (vm_compute; reflexivity).
  assert (H2 : fs_size images_card (String.append "/" "TINY.DSK") = Some 1280)
    by (vm_compute; reflexivity).
  assert (H3 : length (disks scanned) = 2%nat) by (vm_compute; reflexivity).
  assert (H4 : strstr (upcase (strncpy 69 (String.append "/" "TINY.DSK")))
                 ".DSK" = true) by (vm_compute; reflexivity).
  assert (H5 : fs_read images_card (String.append "/" "TINY.DSK") 0 256 =
               Some tiny_disk_block) by (vm_compute; reflexivity).
  assert (H6 : length tiny_disk_block = 256%nat) by (vm_compute; reflexivity).
  assert (H7 : strncmp_eq tiny_disk_block "EXTENDED CPC DSK" 16 ||
               strncmp_eq tiny_disk_block "MV - CPCEMU Disk" 16 = true)
    by (vm_compute; reflexivity).
  assert (H8 : fs_read images_card (String.append "/" "TINY.DSK") 256 256 =
               Some tiny_track_block) by (vm_compute; reflexivity).
  assert (H9 : length tiny_track_block = 256%nat)
    by (vm_compute; reflexivity).
  assert (H10 : strncmp_eq tiny_track_block "Track-Info" 10 = true)
    by (vm_compute; reflexivity).
  exact (loadImage_extended images_card 1 0 scanned "TINY.DSK" 1280
           tiny_disk_block tiny_track_block
           ltac:(unfold MAX_DRIVES; lia) ltac:(lia) H1 H2 H3 H4 H5 H6 H7 H8
           H9 H10).
Defined.

(** Ejecting drive 1 of [both_bound]. *)
Lemma ejectDrive_empties_witness :
  getLoadedIndex 1 (ejectDrive 1 both_bound) = -1 /\
  getDisk 0 (ejectDrive 1 both_bound) = getDisk 0 both_bound.
Proof.
  assert (H1 : length (disks both_bound) = 2%nat)
    by (vm_compute; reflexivity).
  assert (H2 : length (loadedImageIndex both_bound) = 2%nat)
    by (vm_compute; reflexivity).
  destruct (ejectDrive_empties 1 both_bound H1 H2 ltac:(lia))
    as (_ & _ & K).
  destruct (K ltac:(unfold MAX_DRIVES; lia)) as (A & _ & C).
  destruct (C 0 ltac:(unfold MAX_DRIVES; lia) ltac:(lia)) as (D & _).
  split; [exact A | exact D].
Defined.

End BindingFacts.

(* ===================================================================== *)
(** ** The persisted binding *)
(* ===================================================================== *)

Module ConfigFacts.
Import Catalog Config MoreProps Props Runs Cards CatalogFacts GeometryFacts
  BindingFacts.

Lemma plain_char_cases c :
  plain_char c = true ->
  Ascii.eqb c "," = false /\ Ascii.eqb c (ascii_of_nat 10) = false /\
  Ascii.eqb c (ascii_of_nat 13) = false /\ Ascii.eqb c (ascii_of_nat 0) = false.
Proof.
  unfold plain_char. intros E. apply negb_true_iff in E.
  repeat (apply orb_false_iff in E; destruct E as [E ?]). auto.
Qed.

Lemma read_line_plain a rest n :
  plain_name a = true -> (String.length a <= n)%nat ->
  read_line n (String.append a rest) =
  String.append a (read_line (n - String.length a) rest).
Proof.
  revert n. induction a as [|c a IH]; intros n Hp Hn.
  - simpl. rewrite Nat.sub_0_r. reflexivity.
  - simpl in Hp. apply andb_true_iff in Hp. destruct Hp as [Hc Ha].
    destruct (plain_char_cases c Hc) as (_ & E10 & E13 & _).
    destruct n as [|n]; [simpl in Hn; lia|].
    change (String.append (String c a) ?r) with (String c (String.append a r)).
    simpl. rewrite E10, E13. simpl. f_equal. apply IH; [exact Ha|].
    simpl in Hn. lia.
Qed.

Lemma c_str_plain a rest :
  plain_name a = true ->
  c_str (String.append a rest) = String.append a (c_str rest).
Proof.
  induction a as [|c a IH]; intros Hp; [reflexivity|].
  simpl in Hp. apply andb_true_iff in Hp. destruct Hp as [Hc Ha].
  destruct (plain_char_cases c Hc) as (_ & _ & _ & E0).
  change (String.append (String c a) ?r) with (String c (String.append a r)).
  simpl. rewrite E0. f_equal. apply IH. exact Ha.
Qed.

Lemma c_str_plain_all a : plain_name a = true -> c_str a = a.
Proof.
  induction a as [|c a IH]; intros Hp; [reflexivity|].
  simpl in Hp. apply andb_true_iff in Hp. destruct Hp as [Hc Ha].
  destruct (plain_char_cases c Hc) as (_ & _ & _ & E0).
  simpl. rewrite E0. f_equal. apply IH. exact Ha.
Qed.

Lemma split_at_comma_plain a b :
  plain_name a = true ->
  split_at_comma (String.append a (String "," b)) = Some (a, b).
Proof.
  induction a as [|c a IH]; intros Hp; [reflexivity|].
  simpl in Hp. apply andb_true_iff in Hp. destruct Hp as [Hc Ha].
  destruct (plain_char_cases c Hc) as (Ec & _).
  change (String.append (String c a) ?r) with (String c (String.append a r)).
  simpl. rewrite Ec, (IH Ha). reflexivity.
Qed.

Lemma length_append a b :
  String.length (String.append a b) = (String.length a + String.length b)%nat.
Proof.
  induction a as [|c a IH]; [reflexivity|].
  change (String.append (String c a) b) with (String c (String.append a b)).
  simpl. rewrite IH. reflexivity.
Qed.

(** The line [loadConfig] recovers from the text [saveConfig] writes. *)
Lemma parse_config_text a b :
  plain_name a = true -> plain_name b = true ->
  (String.length a <= 63)%nat -> (String.length b <= 63)%nat ->
  split_at_comma
    (c_str (read_line 139
       (String.append a
          (String.append ","
             (String.append b
                (String (ascii_of_nat 13)
                   (String (ascii_of_nat 10) EmptyString))))))) =
  Some (a, b).
Proof.
  intros Ha Hb La Lb.
  rewrite read_line_plain by (auto; lia).
  change (String.append "," ?x) with (String "," x).
  assert (E : read_line (139 - String.length a)
                (String ","
                   (String.append b
                      (String (ascii_of_nat 13)
                         (String (ascii_of_nat 10) EmptyString)))) =
              String "," b).
  { destruct (139 - String.length a)%nat as [|k] eqn:Hk; [lia|].
    simpl. f_equal.
    rewrite read_line_plain by (auto; lia).
    destruct (k - String.length b)%nat as [|j] eqn:Hj; [lia|].
    simpl. clear. induction b as [|c b IH]; [reflexivity|].
    change (String.append (String c b) ?r) with (String c (String.append b r)).
    rewrite IH. reflexivity. }
  rewrite E. rewrite c_str_plain by exact Ha.
  simpl. rewrite c_str_plain_all by exact Hb.
  apply split_at_comma_plain. exact Ha.
Qed.

Lemma find_image_first filename images i :
  NoDup images -> images !! i = Some filename ->
  find_image filename images = Some (Z.of_nat i).
Proof.
  revert i. induction images as [|image rest IH]; intros i Hnd Hi;
    [discriminate|].
  apply NoDup_cons in Hnd. destruct Hnd as [Hnotin Hnd].
  destruct i as [|i]; simpl in *.
  - inversion Hi; subst. rewrite String.eqb_refl. reflexivity.
  - destruct (String.eqb_spec image filename) as [E|E].
    + subst image. exfalso. apply Hnotin.
      eapply list_elem_of_lookup_2. exact Hi.
    + rewrite (IH i Hnd Hi). simpl. f_equal. lia.
Qed.




Section WithCard.
Context {Fs : Type} `{Backend Fs} `{ConfigReader Fs}.


Lemma loadImage_images (card : Fs) drive imageIndex dm :
  diskImages (snd (loadImage card drive imageIndex dm)) = diskImages dm.
Proof.
  unfold loadImage.
  destruct ((drive >=? MAX_DRIVES) || (imageIndex >=? totalImages dm) ||
            (imageIndex <? 0)); [reflexivity|].
  cbv zeta. destruct (fs_size card _) as [fileSize|]; [|reflexivity].
  destruct (strstr _ ".DSK" || strstr _ ".HFE"); [|reflexivity].
  cbn [snd].
  match goal with
  | |- diskImages (snd (parseExtendedDSK card drive ?p ?b)) = _ =>
      exact (proj1 (parseExtendedDSK_frame card drive p b))
  end.
Qed.

Lemma config_name_saved drive saved :
  Forall (fun image => plain_name image = true /\
                       (String.length image <= 63)%nat /\
                       has_image_extension image = true)
         (diskImages saved) ->
  plain_name (config_name drive saved) = true /\
  (String.length (config_name drive saved) <= 63)%nat /\
  match saved_index drive saved with
  | Some i =>
      0 <= i /\
      diskImages saved !! Z.to_nat i = Some (config_name drive saved) /\
      String.eqb (config_name drive saved) "NONE" = false
  | None => config_name drive saved = "NONE"
  end.
Proof.
  intros Hall. unfold config_name, saved_index. cbv zeta.
  set (i := default (-1) (loadedImageIndex saved !! drive)).
  destruct ((i >=? 0) && (i <? totalImages saved)) eqn:Hrange.
  - apply andb_true_iff in Hrange. destruct Hrange as [Hlo Hhi].
    unfold totalImages in Hhi.
    destruct (lookup_lt_is_Some_2 (diskImages saved) (Z.to_nat i))
      as [image Himage]; [lia|].
    rewrite Himage. change (default "" (Some image)) with image.
    destruct (Forall_lookup_1 _ _ _ _ Hall Himage) as (Hp & Hlen & Hext).
    repeat split; try assumption; [lia|].
    apply String.eqb_neq. intros ->. vm_compute in Hext. discriminate.
  - repeat split; simpl; lia.
Qed.

Lemma load_named_saved (card : Fs) drive d saved dm :
  diskImages dm = diskImages saved ->
  NoDup (diskImages saved) ->
  Forall (fun image => plain_name image = true /\
                       (String.length image <= 63)%nat /\
                       has_image_extension image = true)
         (diskImages saved) ->
  load_named card drive (config_name d saved) dm =
  restore_binding card drive (saved_index d saved) dm.
Proof.
  intros Himgs Hnd Hall.
  destruct (config_name_saved d saved Hall) as (_ & _ & Hcase).
  unfold load_named, restore_binding.
  destruct (saved_index d saved) as [i|].
  - destruct Hcase as (Hi & Hlook & Hne). rewrite Hne. cbn [negb].
    rewrite Himgs, (find_image_first _ _ _ Hnd Hlook).
    rewrite Z2Nat.id by exact Hi. reflexivity.
  - rewrite Hcase. reflexivity.
Qed.









(** X11: a configuration record as [saveConfig] prints it is read back by
    [loadConfig] as the same binding: each drive recorded with a
    catalogued image is bound to that index again, and a drive recorded
    as NONE is left as it is. *)
Theorem loadConfig_restores (card : Fs) dm saved :
  cfg_chars card LASTIMG_FILE = Some (config_text saved) ->
  diskImages dm = diskImages saved ->
  NoDup (diskImages saved) ->
  Forall (fun image => plain_name image = true /\
                       (String.length image <= 63)%nat /\
                       has_image_extension image = true)
         (diskImages saved) ->
  loadConfig card dm =
  dm |> restore_binding card 0 (saved_index 0 saved)
     |> restore_binding card 1 (saved_index 1 saved).
Proof.
  intros Hchars Himgs Hnd Hall.
  destruct (config_name_saved 0 saved Hall) as (Hp0 & Hl0 & _).
  destruct (config_name_saved 1 saved Hall) as (Hp1 & Hl1 & _).
  unfold loadConfig. rewrite Hchars. cbv zeta. unfold config_text.
  rewrite (parse_config_text _ _ Hp0 Hp1 Hl0 Hl1).
  rewrite (load_named_saved card 0 0%nat saved dm Himgs Hnd Hall).
  apply load_named_saved; [|exact Hnd|exact Hall].
  unfold restore_binding. destruct (saved_index 0 saved); [|exact Himgs].
  rewrite loadImage_images. exact Himgs.
Qed.

(** X12: without a readable configuration file, [loadConfig] leaves the
    catalog and both drives as they are; so does a first line without a
    comma. *)
Theorem loadConfig_nothing_to_restore (card : Fs) dm :
  match cfg_chars card LASTIMG_FILE with
  | None => True
  | Some chars =>
      Forall (fun c => c <> ","%char)
             (list_ascii_of_string (read_line 139 chars))
  end ->
  loadConfig card dm = dm.
Proof.
  unfold loadConfig. destruct (cfg_chars card LASTIMG_FILE) as [chars|];
    [|reflexivity].
  intros Hnc. cbv zeta.
  assert (E : split_at_comma (c_str (read_line 139 chars)) = None);
    [|rewrite E; reflexivity].
  induction (read_line 139 chars) as [|c line IH]; [reflexivity|].
  simpl in Hnc. apply Forall_cons in Hnc. destruct Hnc as [Hc Hline].
  simpl. destruct (Ascii.eqb c (ascii_of_nat 0)); [reflexivity|].
  simpl. destruct (Ascii.eqb_spec c ","); [contradiction|].
  rewrite (IH Hline). reflexivity.
Qed.

End WithCard.

(** The record of [both_bound] read back on a freshly scanned catalog:
    drive 0 is bound to index 1, drive 1 to index 0. *)
Lemma loadConfig_restores_witness :
  let dm := scanImages configured_card DiskManager_new in
  getLoadedIndex 0 (loadConfig configured_card dm) = 1 /\
  getLoadedIndex 1 (loadConfig configured_card dm) = 0.
Proof.
  intros dm.
  assert (H1 : cfg_chars configured_card LASTIMG_FILE =
               Some (config_text both_bound)) by (vm_compute; reflexivity).
  assert (H2 : diskImages dm = diskImages both_bound)
    by (vm_compute; reflexivity).
  assert (H3 : NoDup (diskImages both_bound)).
  { change (diskImages both_bound) with ["TINY.DSK"; "FLAT.IMG"].
    apply NoDup_cons. split; [|apply NoDup_singleton].
    intros Hin. apply list_elem_of_singleton in Hin. discriminate. }
  assert (H4 : Forall (fun image => plain_name image = true /\
                         (String.length image <= 63)%nat /\
                         has_image_extension image = true)
                 (diskImages both_bound)).
  { change (diskImages both_bound) with ["TINY.DSK"; "FLAT.IMG"].
    repeat constructor; vm_compute; try reflexivity; lia. }
  rewrite (loadConfig_restores configured_card dm both_bound H1 H2 H3 H4).
  split; vm_compute; reflexivity.
Defined.

(** A record without a comma restores nothing. *)
Lemma loadConfig_nothing_to_restore_witness :
  loadConfig garbled_card scanned = scanned.
Proof.
  apply (loadConfig_nothing_to_restore garbled_card scanned).
  change (cfg_chars garbled_card LASTIMG_FILE) with (Some "NONE").
  change (read_line 139 "NONE") with "NONE".
  repeat constructor; discriminate.
Defined.

End ConfigFacts.

(* ===================================================================== *)
(** ** The registers and the bus in every reachable state *)
(* ===================================================================== *)

Module MachineFacts.
Import Fdc Props MoreProps Runs EngineFacts.

#[local] Arguments Catalog.getDisk : simpl never.
#[local] Arguments readSectorData_offset : simpl never.
#[local] Arguments writeSectorData_offset : simpl never.
#[local] Arguments image_path : simpl never.
#[local] Arguments wrap8 : simpl never.
#[local] Arguments wrap16 : simpl never.
#[local] Arguments wrap32 : simpl never.

Lemma lor_u8 a b : is_u8 a -> is_u8 b -> is_u8 (Z.lor a b).
Proof.
  unfold is_u8. intros Ha Hb.
  assert (Hn : 0 <= Z.lor a b) by (apply Z.lor_nonneg; lia).
  split; [exact Hn|].
  destruct (Z.eq_dec (Z.lor a b) 0) as [E|E]; [lia|].
  change 256 with (2 ^ 8). apply Z.log2_lt_pow2; [lia|].
  rewrite Z.log2_lor by lia.
  assert (La : Z.log2 a < 8).
  { destruct (Z.eq_dec a 0) as [->|]; [reflexivity|].
    apply Z.log2_lt_pow2; simpl; lia. }
  assert (Lb : Z.log2 b < 8).
  { destruct (Z.eq_dec b 0) as [->|]; [reflexivity|].
    apply Z.log2_lt_pow2; simpl; lia. }
  lia.
Qed.

Lemma bus_value_u8 (lines : list Level) : is_u8 (bus_value lines).
Proof.
  unfold bus_value. simpl.
  assert (Hstep : forall acc (c : bool) i, is_u8 acc -> (i < 8)%nat ->
            is_u8 (if c then Z.lor acc (Z.shiftl 1 (Z.of_nat i)) else acc)).
  { intros acc c i Hacc Hi. destruct c; [|exact Hacc].
    apply lor_u8; [exact Hacc|].
    do 8 (destruct i as [|i];
          [split; [apply Z.leb_le | apply Z.ltb_lt]; reflexivity|]).
    lia. }
  repeat (apply Hstep; [|lia]). unfold is_u8. lia.
Qed.

Lemma bytes_enumerated v :
  is_u8 v -> In v (Z.of_nat <$> seq 0 256).
Proof.
  intros Hv. unfold is_u8 in Hv. apply list_elem_of_In.
  apply list_elem_of_fmap. exists (Z.to_nat v). split; [lia|].
  apply list_elem_of_In, in_seq. lia.
Qed.

Lemma data_bus_round_trip_lemma v (out : list Level) :
  is_u8 v -> length out = 8%nat -> bus_value (digitalWrite_all v out) = v.
Proof.
  intros Hv Hlen.
  do 9 (destruct out as [|? out]; try discriminate Hlen).
  change (bus_value (digitalWrite_all v (replicate 8 LOW)) = v).
  assert (K : forallb (fun v =>
                bus_value (digitalWrite_all v (replicate 8 LOW)) =? v)
                (Z.of_nat <$> seq 0 256) = true)
    by (vm_compute; reflexivity).
  rewrite forallb_forall in K.
  apply Z.eqb_eq. apply K. apply bytes_enumerated. exact Hv.
Qed.

(** X13: the byte [driveDataBus] writes to the eight data pins is the byte
    [readDataBus] assembles from these levels, and what [readDataBus]
    assembles is always a byte. *)
Theorem data_bus_round_trip v (out lines : list Level) :
  is_u8 v -> length out = 8%nat ->
  bus_value (digitalWrite_all v out) = v /\
  bus_value (lines_of v) = v /\
  is_u8 (bus_value lines).
Proof.
  intros Hv Hlen. split; [|split; [|apply bus_value_u8]].
  - apply data_bus_round_trip_lemma; assumption.
  - assert (K : forallb (fun v => bus_value (lines_of v) =? v)
                  (Z.of_nat <$> seq 0 256) = true)
      by (vm_compute; reflexivity).
    rewrite forallb_forall in K.
    apply Z.eqb_eq. apply K. apply bytes_enumerated. exact Hv.
Qed.

Lemma data_bus_round_trip_witness :
  bus_value (digitalWrite_all 0xA5 (replicate 8 HIGH)) = 0xA5.
Proof.
  apply (data_bus_round_trip 0xA5 (replicate 8 HIGH) []);
    [unfold is_u8; lia | reflexivity].
Defined.

Section WithCard.
Context {Fs : Type} `{Backend Fs}.
Implicit Types (d : FdcDevice Fs) (s : FDCState).

Ltac case_tests :=
  repeat match goal with
  | |- context [if ?b then _ else _] => destruct b eqn:?; simpl
  | |- context [match ?x with _ => _ end] => destruct x eqn:?; simpl
  end.

Lemma pinMode_all_eight m (modes : list PinMode) :
  length modes = 8%nat -> pinMode_all m modes = replicate 8 m.
Proof.
  intros Hlen.
  do 9 (destruct modes as [|? modes]; try discriminate Hlen).
  reflexivity.
Qed.











Lemma select_read_eq d a1 a0 now :
  lastCS d = false ->
  handleBus (select_for_read a1 a0) now d =
  set_last true true (handleRead (reg_addr a1 a0) now d).
Proof.
  intros Hcs. unfold handleBus, select_for_read. cbv zeta.
  cbn [WD_CS WD_RW WD_A0 WD_A1 dataLines is_low is_high negb].
  rewrite Hcs. cbn [negb andb].
  change (Z.lor (Z.shiftl (level_bit a1) 1) (level_bit a0))
    with (reg_addr a1 a0).
  assert (E : lastCS (handleRead (reg_addr a1 a0) now d) = false).
  { rewrite <- Hcs. unfold handleRead. cbv zeta.
    case_tests; destruct d; reflexivity. }
  rewrite E. reflexivity.
Qed.

Lemma status_byte_code s :
  (let value := status s in
   let value := if busy s then Z.lor value ST_BUSY else value in
   if drq s then Z.lor value ST_DRQ else value) = status_byte s.
Proof.
  unfold status_byte. cbv zeta.
  destruct (busy s), (drq s); rewrite ?Z.lor_0_r; reflexivity.
Qed.

(** X15: a read cycle of the Status, Track or Sector register puts the
    register on the data pins, as outputs, and records the bus as driven
    until 500 us later; the Status byte carries the BUSY and DRQ bits of
    the moment.  Reading Status clears INTRQ and nothing else; reading
    Track or Sector changes no register. *)
Theorem register_read d a1 a0 now :
  lastCS d = false -> length (dataPinOut d) = 8%nat ->
  length (dataPinMode d) = 8%nat ->
  reg_addr a1 a0 <> 3 ->
  let value :=
    if reg_addr a1 a0 =? 0 then status_byte (fdc d)
    else if reg_addr a1 a0 =? 1 then track (fdc d) else sector (fdc d) in
  is_u8 value ->
  let d' := handleBus (select_for_read a1 a0) now d in
  bus_value (dataPinOut d') = value /\
  dataPinMode d' = replicate 8 OUTPUT /\
  dataBusDriven d' = true /\ dataValidUntil d' = wrap32 (now + 500) /\
  fdc d' =
    (if reg_addr a1 a0 =? 0 then set_intrq false (fdc d) else fdc d) /\
  ioLog d' = ioLog d /\ sd d' = sd d.
Proof.
  intros Hcs Hout Hmode Haddr value Hv d'. subst d' value.
  rewrite (select_read_eq d a1 a0 now Hcs).
  assert (Hcases : reg_addr a1 a0 = 0 \/ reg_addr a1 a0 = 1 \/
                   reg_addr a1 a0 = 2).
  { destruct a1, a0; vm_compute in Haddr |- *; auto; congruence. }
  destruct d as [s dm card ad lcs lrw dbd dvu pm po ip dp io ov].
  cbn [fdc dataPinOut dataPinMode] in *.
  unfold handleRead. cbv zeta. cbn [fdc].
  pose proof (status_byte_code s) as Hsb. cbv zeta in Hsb.
  destruct Hcases as [E|[E|E]]; rewrite E in *; cbn [Z.eqb] in *;
    unfold driveDataBus; simpl;
    rewrite ?Hsb;
    (split; [apply data_bus_round_trip_lemma; assumption|]);
    rewrite (pinMode_all_eight _ _ Hmode); auto 10.
Qed.

End WithCard.

(** A read of the Sector register after the host has stored 2 in it. *)
Lemma register_read_witness :
  bus_value
    (dataPinOut (handleBus (select_for_read HIGH LOW) 100 at_last_sector)) = 2.
Proof.
  assert (H1 : lastCS at_last_sector = false) by (vm_compute; reflexivity).
  assert (H2 : length (dataPinOut at_last_sector) = 8%nat)
    by (vm_compute; reflexivity).
  assert (H3 : length (dataPinMode at_last_sector) = 8%nat)
    by (vm_compute; reflexivity).
  assert (H4 : reg_addr HIGH LOW <> 3) by (vm_compute; discriminate).
  assert (H5 : is_u8 (sector (fdc at_last_sector)))
    by (change (sector (fdc at_last_sector)) with 2; unfold is_u8; lia).
  destruct (register_read at_last_sector HIGH LOW 100 H1 H2 H3 H4 H5)
    as (A & _).
  rewrite A. vm_compute. reflexivity.
Defined.

End MachineFacts.
